(** * Notebook-driven MLOps pipeline: parser, pipeline task and model server

    A shallow embedding of three Python modules of the repository:

    - [backend/core/notebook_parser.py]  (module [NotebookParser]),
    - [backend/tasks/celery_tasks.py]    (modules [Engine] and
      [DeploySession]),
    - [model-server/server.py]           (module [ModelServer]),

    and of what surrounds them in the backend:

    - [backend/core/github.py]           (module [GitHub]),
    - [backend/core/pipeline.py] and the exception handler of
      [backend/main.py]                  (module [App]),
    - [backend/routers/webhook.py]       (module [WebhookRouter]),
    - [backend/routers/models.py]        (module [ModelsRouter]),
    - [backend/routers/repos.py]         (module [ReposRouter]),
    - [backend/routers/pipelines.py]     (module [PipelinesRouter]).

    Python dictionaries are finite maps ([gmap]), Python lists are lists, a
    text is the [string] of the bytes of its UTF-8 encoding,
    exceptions are values of the type [Py.exn], and every call to a
    collaborator outside the process (Redis, the SQL database, GitHub,
    papermill, MLflow, the model server) takes its outcome from an explicit
    oracle, so that the control flow of the source, including its
    [try]/[except] blocks, is kept as it is written. *)

From Stdlib Require Import QArith Ascii String.
From stdpp Require Import base option list strings gmap fin_maps pretty.

Local Open Scope string_scope.
Local Open Scope list_scope.

(* ===================================================================== *)
(** * Part I: the programs                                                *)
(* ===================================================================== *)

(** ** Python exceptions *)

Module Py.

(** The exception classes the three modules raise or catch.  [SystemExit]
    derives from [BaseException] only, so [except Exception] does not catch
    it; all the others derive from [Exception].  [ExternalError] stands for
    whatever a collaborator raises (httpx, redis, sqlalchemy, papermill,
    mlflow, joblib): its class is not inspected anywhere in the source. *)
Inductive exn : Type :=
| ValueError (msg : string)
| FileNotFoundError (msg : string)
| ExternalError (msg : string)
| HTTPException (status_code : nat) (detail : string)
| SystemExit (msg : string).

(** [isinstance(e, Exception)] *)
Definition is_Exception (e : exn) : bool :=
  match e with
  | SystemExit _ => false
  | _ => true
  end.

(** [str(e)] for the exceptions that are built from one message. *)
Definition str (e : exn) : string :=
  match e with
  | ValueError m | FileNotFoundError m | ExternalError m | SystemExit m => m
  | HTTPException _ d => d
  end.

(** [sep.join(parts)] *)
Definition join (sep : string) (parts : list string) : string :=
  String.concat sep parts.

End Py.

(** ** backend/core/notebook_parser.py *)

Module NotebookParser.

(** A notebook is the dictionary that [json.loads] returns.  Only the keys
    the parser reads are kept; a key that may be absent is an [option].
    The source of a cell is either a list of lines or one string. *)
Inductive source_t : Type :=
| SourceLines (lines : list string)
| SourceStr (text : string).

Record metadata_t : Type := { md_tags : option (list string) }.

Record cell : Type := {
  cell_metadata : option metadata_t;
  cell_source : option source_t
}.

Record notebook : Type := { nb_cells : option (list cell) }.

Definition REQUIRED_TAGS : list string :=
  [ "mlops:config"; "mlops:preprocessing"; "mlops:training"; "mlops:export" ].

(** The tags under the keys metadata and tags, each defaulting to empty. *)
Definition _cell_tags (c : cell) : list string :=
  match cell_metadata c with
  | None => []
  | Some md => default [] (md_tags md)
  end.

Definition get_cells_by_tag (nb : notebook) (tag : string) : list cell :=
  filter (fun c => tag ∈ _cell_tags c) (default [] (nb_cells nb)).

(** The tags of [REQUIRED_TAGS], in that order, that no cell carries: the
    list [missing] the loop of [validate_required_tags] builds. *)
Definition missing_tags (nb : notebook) : list string :=
  filter (fun tag => get_cells_by_tag nb tag = []) REQUIRED_TAGS.

Definition missing_message (missing : list string) : string :=
  "Notebook is missing required MLOps tags: " +:+ Py.join ", " missing +:+ ". "
  +:+ "Each cell must have metadata.tags containing the appropriate "
  +:+ "mlops:* tag. Required tags: " +:+ Py.join ", " REQUIRED_TAGS.

Definition validate_required_tags (nb : notebook) : Py.exn + unit :=
  let missing := missing_tags nb in
  match missing with
  | [] => inr tt
  | _ :: _ => inl (Py.ValueError (missing_message missing))
  end.

(** *** The two regular expressions of [extract_config]

    [re.search] with the pattern: KEY, white space, an equals sign, white
    space, a quote character (single or double), one or more characters that
    are not quote characters (group 1), a quote character.

    A text is held as the bytes of its UTF-8 encoding, each code point
    encoded by the rule of its range.  The key, the equals sign and the
    quote characters are ASCII, and a byte below 128 never occurs inside the
    encoding of another character: the key matches where its bytes are, a
    run of characters other than quotes is a run of bytes other than the
    quote bytes, and the leftmost match among the characters starts at the
    leftmost match among the bytes.  White space alone has characters of
    more than one byte.

    The pattern has no real choice point: the character that has to follow
    each repetition ([=] after whitespace, a quote after whitespace, a quote
    after the value) is outside the repeated class, so the greedy repetition
    is the only way to match and the backtracking of the regex engine never
    finds another one.  The matcher below is therefore the regex, tried at
    each start position from left to right as [re.search] does. *)

Definition squote : ascii := Eval cbv in ascii_of_nat 39.
Definition dquote : ascii := Eval cbv in ascii_of_nat 34.
Definition equals : ascii := Eval cbv in ascii_of_nat 61.

(** The class of the two quote characters. *)
Definition is_quote (a : ascii) : bool :=
  Ascii.eqb a squote || Ascii.eqb a dquote.

(** White space of a [str] pattern is Unicode white space, the characters
    for which [str.isspace] holds: U+0009 to U+000D, U+001C to U+0020,
    U+0085, U+00A0, U+1680, U+2000 to U+200A, U+2028, U+2029, U+202F, U+205F
    and U+3000.  Their encodings have one, two or three bytes. *)

(** U+0009 to U+000D, U+001C to U+001F, U+0020 *)
Definition is_space1 (a : ascii) : bool :=
  let n := nat_of_ascii a in
  ((9 <=? n)%nat && (n <=? 13)%nat) || ((28 <=? n)%nat && (n <=? 31)%nat)
  || (n =? 32)%nat.

(** U+0085 is C2 85, U+00A0 is C2 A0 *)
Definition is_space2 (a b : ascii) : bool :=
  (nat_of_ascii a =? 194)%nat
  && ((nat_of_ascii b =? 133)%nat || (nat_of_ascii b =? 160)%nat).

(** U+1680 is E1 9A 80; U+2000 to U+200A are E2 80 80 to E2 80 8A; U+2028,
    U+2029 and U+202F are E2 80 A8, E2 80 A9 and E2 80 AF; U+205F is
    E2 81 9F; U+3000 is E3 80 80 *)
Definition is_space3 (a b c : ascii) : bool :=
  let x := nat_of_ascii a in
  let y := nat_of_ascii b in
  let z := nat_of_ascii c in
  ((x =? 225)%nat && ((y =? 154)%nat && (z =? 128)%nat))
  || ((x =? 226)%nat
      && (((y =? 128)%nat
           && (((128 <=? z)%nat && (z <=? 138)%nat)
               || (z =? 168)%nat || (z =? 169)%nat || (z =? 175)%nat))
          || ((y =? 129)%nat && (z =? 159)%nat)))
  || ((x =? 227)%nat && ((y =? 128)%nat && (z =? 128)%nat)).

Fixpoint strip_prefix (p s : list ascii) : option (list ascii) :=
  match p, s with
  | [], _ => Some s
  | a :: p', b :: s' => if Ascii.eqb a b then strip_prefix p' s' else None
  | _ :: _, [] => None
  end.

(** The greedy run of white space: white-space characters are passed over,
    one encoding after the other, up to the first character that is not
    one. *)
Fixpoint skip_spaces (s : list ascii) : list ascii :=
  match s with
  | a :: s1 =>
      if is_space1 a then skip_spaces s1
      else
        match s1 with
        | b :: s2 =>
            if is_space2 a b then skip_spaces s2
            else
              match s2 with
              | c :: s3 => if is_space3 a b c then skip_spaces s3 else s
              | [] => s
              end
        | [] => s
        end
  | [] => []
  end.

(** The greedy run of non-quote characters: the longest quote-free prefix
    and what follows it. *)
Fixpoint span_value (s : list ascii) : list ascii * list ascii :=
  match s with
  | a :: s' =>
      if is_quote a then ([], s)
      else let '(v, rest) := span_value s' in (a :: v, rest)
  | [] => ([], [])
  end.

(** The pattern anchored at the start of [s]; the result is group 1. *)
Definition match_assign (key s : list ascii) : option (list ascii) :=
  match strip_prefix key s with
  | None => None
  | Some r1 =>
      match skip_spaces r1 with
      | e :: r2 =>
          if Ascii.eqb e equals then
            match skip_spaces r2 with
            | q :: r3 =>
                if is_quote q then
                  match span_value r3 with
                  | ((_ :: _) as v, _ :: _) => Some v
                  | _ => None
                  end
                else None
            | [] => None
            end
          else None
      | [] => None
      end
  end.

(** [re.search]: the leftmost start position at which the pattern matches. *)
Fixpoint re_search (key s : list ascii) : option (list ascii) :=
  match match_assign key s with
  | Some v => Some v
  | None =>
      match s with
      | [] => None
      | _ :: s' => re_search key s'
      end
  end.

Definition chars (s : string) : list ascii := list_ascii_of_string s.

Record config : Type := { model_name : string; version : string }.

(** The lines of [cells[0].get(source, [])] joined with the empty string,
    replaced by the source itself when it is a [str]. *)
Definition cell_text (c : cell) : string :=
  match cell_source c with
  | None => Py.join "" []
  | Some (SourceLines l) => Py.join "" l
  | Some (SourceStr s) => s
  end.

Definition config_field (key : string) (dflt : string) (src : string) : string :=
  match re_search (chars key) (chars src) with
  | Some v => string_of_list_ascii v
  | None => dflt
  end.

Definition extract_config (nb : notebook) : Py.exn + config :=
  match get_cells_by_tag nb "mlops:config" with
  | [] => inl (Py.ValueError "No cell with tag 'mlops:config' found in notebook.")
  | c :: _ =>
      let source := cell_text c in
      inr {| model_name := config_field "MODEL_NAME" "default-model" source;
             version := config_field "VERSION" "1" source |}
  end.

(** *** What the claims say, in terms of the notebook alone *)

(** Some cell of the notebook carries [tag]. *)
Definition has_tag (nb : notebook) (tag : string) : Prop :=
  Exists (fun c => tag ∈ _cell_tags c) (default [] (nb_cells nb)).

(** The required tags that no cell carries, in the order of the vocabulary. *)
Definition absent_tags (nb : notebook) : list string :=
  filter (fun tag => ¬ has_tag nb tag) REQUIRED_TAGS.

(** The bytes [e] are the encoding of one white-space character. *)
Definition space_char (e : list ascii) : bool :=
  match e with
  | [a] => is_space1 a
  | [a; b] => is_space2 a b
  | [a; b; c] => is_space3 a b c
  | _ => false
  end.

(** A run of white-space characters, possibly empty. *)
Definition spaces (ws : list ascii) : Prop :=
  exists l, Forall (fun e => space_char e = true) l /\ ws = concat l.

(** The byte [a] can start the encoding of a white-space character. *)
Definition space_lead (a : ascii) : bool :=
  let n := nat_of_ascii a in
  is_space1 a || (n =? 194)%nat || (n =? 225)%nat || (n =? 226)%nat
  || (n =? 227)%nat.

(** The text [src] holds, right after the prefix [pre], the declaration
    [key], white space, [=], white space, a quote, the non-empty quote-free
    value [v], a quote. *)
Definition assign_at (key src pre v : list ascii) : Prop :=
  exists ws1 ws2 q1 q2 rest,
    src = pre ++ key ++ ws1 ++ equals :: ws2 ++ q1 :: v ++ q2 :: rest
    /\ spaces ws1
    /\ spaces ws2
    /\ is_quote q1 = true /\ is_quote q2 = true
    /\ v <> [] /\ Forall (fun a => is_quote a = false) v.

(** The declaration of [key] that starts first in [src]. *)
Definition first_assign (key src pre v : list ascii) : Prop :=
  assign_at key src pre v
  /\ forall pre' v', assign_at key src pre' v' -> length pre <= length pre'.

(** What a field of the extracted configuration has to be: the literal value
    of the first declaration of [key], or the default when there is none. *)
Definition field_spec (key dflt src out : string) : Prop :=
  (exists pre v, first_assign (chars key) (chars src) pre v
                 /\ out = string_of_list_ascii v)
  \/ ((forall pre v, ~ assign_at (chars key) (chars src) pre v) /\ out = dflt).

End NotebookParser.

(** ** backend/tasks/celery_tasks.py *)

Module Engine.
Import NotebookParser.

(** *** Data *)

(** An entry of the list [phases]: the dictionary with the keys name,
    status, timestamp and logs that [_phase] builds.  Statuses are the
    strings of the source. *)
Record PhaseEntry : Type := {
  ph_name : string;
  ph_status : string;
  ph_timestamp : nat;
  ph_logs : string
}.

(** The payload [_publish_phase] serialises with [json.dumps]. *)
Record Event : Type := {
  ev_pipeline_id : string;
  ev_phase : string;
  ev_status : string;
  ev_logs : string;
  ev_timestamp : nat
}.

(** A value of the dictionary [metrics]: a number read back from MLflow, or
    the boolean stored under the key deployed.  Numbers are rationals: the
    only operation on them is the comparison with the threshold. *)
Inductive mvalue : Type :=
| MNum (q : Q)
| MBool (b : bool).

(** The columns of the table [pipelines] that the task writes. *)
Record Pipeline : Type := {
  p_status : string;
  p_phases : list PhaseEntry;
  p_metrics : gmap string mvalue;
  p_started_at : option nat;
  p_finished_at : option nat
}.

(** A row of the table [model_deployments]; rows are kept in insertion
    order, which stands for the auto-incremented primary key. *)
Record ModelDeployment : Type := {
  d_model_name : string;
  d_version : string;
  d_accuracy : Q;
  d_endpoint_url : string;
  d_deployed_at : nat;
  d_is_active : bool;
  d_pipeline_id : option string
}.

(** The settings the task reads. *)
Record Settings : Type := {
  auto_deploy_on_success : bool;
  min_accuracy_threshold : Q;
  model_server_url : string
}.

(** Everything the task reads or writes: its local variables, the SQL
    database, Redis, the clock, and how many Redis commands and pipeline
    transactions have been issued so far. *)
Record State : Type := {
  phases : list PhaseEntry;
  metrics : gmap string mvalue;
  deployed : bool;
  pipelines : gmap string Pipeline;
  model_deployments : list ModelDeployment;
  published : list (string * Event);
  redis_lists : gmap string (list Event);
  redis_expiry : gmap string N;
  clock : nat;
  redis_calls : nat;
  db_calls : nat
}.

(** The outcome of every call that leaves the process.  [redis_ok n] and
    [db_ok n] tell whether the [n]-th Redis command, resp. the [n]-th
    transaction of [_update_pipeline_db], goes through; [shutting_down k] is
    the value of the flag [_shutting_down] when the [k]-th check reads it.
    A failing download (repository row not found, HTTP error, undecodable
    content), notebook execution or MLflow registration carries the message
    of the exception; the class of these exceptions is never inspected. *)
Record World : Type := {
  settings : Settings;
  redis_ok : nat -> bool;
  db_ok : nat -> bool;
  shutting_down : nat -> bool;
  download_notebook : string + notebook;
  execute_notebook : string + string;
  mlflow_register : string + (option (gmap string Q) * string);
  model_server_load : option string;
  deployment_commit : option string
}.

(** The dictionary [run_pipeline] returns. *)
Inductive RunResult : Type :=
| RunSuccess (m : gmap string mvalue)
| RunShutdown
| RunError (error : string).

(** *** State and exceptions *)

Inductive Res (A : Type) : Type :=
| Ok (a : A)
| Raise (e : Py.exn).
Arguments Ok {A} a.
Arguments Raise {A} e.

Definition M (A : Type) : Type := State -> Res A * State.

#[global] Instance M_ret : MRet M := fun A a s => (Ok a, s).

#[global] Instance M_bind : MBind M := fun A B f m s =>
  match m s with
  | (Ok a, s') => f a s'
  | (Raise e, s') => (Raise e, s')
  end.

Definition raise {A : Type} (e : Py.exn) : M A := fun s => (Raise e, s).

Definition gets {A : Type} (f : State -> A) : M A := fun s => (Ok (f s), s).

Definition modify (f : State -> State) : M unit := fun s => (Ok tt, f s).

(** [try: body except ...: handler]; [handler e = None] when no clause
    matches the exception, which then goes on to the caller. *)
Definition try_except {A : Type} (body : M A) (handler : Py.exn -> option (M A)) : M A :=
  fun s =>
    match body s with
    | (Ok a, s') => (Ok a, s')
    | (Raise e, s') =>
        match handler e with
        | Some h => h s'
        | None => (Raise e, s')
        end
    end.

(** A pure function of the parser that may raise. *)
Definition lift {A : Type} (r : Py.exn + A) : M A :=
  match r with
  | inl e => raise e
  | inr a => mret a
  end.

(** A collaborator that either raises with a message or returns. *)
Definition external {A : Type} (r : string + A) : M A :=
  match r with
  | inl msg => raise (Py.ExternalError msg)
  | inr a => mret a
  end.

Definition set_phases (f : list PhaseEntry -> list PhaseEntry) (s : State) : State :=
  {| phases := f (phases s); metrics := metrics s; deployed := deployed s;
     pipelines := pipelines s; model_deployments := model_deployments s;
     published := published s; redis_lists := redis_lists s;
     redis_expiry := redis_expiry s; clock := clock s;
     redis_calls := redis_calls s; db_calls := db_calls s |}.

Definition set_metrics (f : gmap string mvalue -> gmap string mvalue) (s : State) : State :=
  {| phases := phases s; metrics := f (metrics s); deployed := deployed s;
     pipelines := pipelines s; model_deployments := model_deployments s;
     published := published s; redis_lists := redis_lists s;
     redis_expiry := redis_expiry s; clock := clock s;
     redis_calls := redis_calls s; db_calls := db_calls s |}.

Definition set_deployed (b : bool) (s : State) : State :=
  {| phases := phases s; metrics := metrics s; deployed := b;
     pipelines := pipelines s; model_deployments := model_deployments s;
     published := published s; redis_lists := redis_lists s;
     redis_expiry := redis_expiry s; clock := clock s;
     redis_calls := redis_calls s; db_calls := db_calls s |}.

Definition set_pipelines (f : gmap string Pipeline -> gmap string Pipeline) (s : State) : State :=
  {| phases := phases s; metrics := metrics s; deployed := deployed s;
     pipelines := f (pipelines s); model_deployments := model_deployments s;
     published := published s; redis_lists := redis_lists s;
     redis_expiry := redis_expiry s; clock := clock s;
     redis_calls := redis_calls s; db_calls := db_calls s |}.

Definition set_model_deployments (f : list ModelDeployment -> list ModelDeployment)
    (s : State) : State :=
  {| phases := phases s; metrics := metrics s; deployed := deployed s;
     pipelines := pipelines s; model_deployments := f (model_deployments s);
     published := published s; redis_lists := redis_lists s;
     redis_expiry := redis_expiry s; clock := clock s;
     redis_calls := redis_calls s; db_calls := db_calls s |}.

Definition set_published (f : list (string * Event) -> list (string * Event))
    (s : State) : State :=
  {| phases := phases s; metrics := metrics s; deployed := deployed s;
     pipelines := pipelines s; model_deployments := model_deployments s;
     published := f (published s); redis_lists := redis_lists s;
     redis_expiry := redis_expiry s; clock := clock s;
     redis_calls := redis_calls s; db_calls := db_calls s |}.

Definition set_redis_lists (f : gmap string (list Event) -> gmap string (list Event))
    (s : State) : State :=
  {| phases := phases s; metrics := metrics s; deployed := deployed s;
     pipelines := pipelines s; model_deployments := model_deployments s;
     published := published s; redis_lists := f (redis_lists s);
     redis_expiry := redis_expiry s; clock := clock s;
     redis_calls := redis_calls s; db_calls := db_calls s |}.

Definition set_redis_expiry (f : gmap string N -> gmap string N) (s : State) : State :=
  {| phases := phases s; metrics := metrics s; deployed := deployed s;
     pipelines := pipelines s; model_deployments := model_deployments s;
     published := published s; redis_lists := redis_lists s;
     redis_expiry := f (redis_expiry s); clock := clock s;
     redis_calls := redis_calls s; db_calls := db_calls s |}.

Definition set_clock (n : nat) (s : State) : State :=
  {| phases := phases s; metrics := metrics s; deployed := deployed s;
     pipelines := pipelines s; model_deployments := model_deployments s;
     published := published s; redis_lists := redis_lists s;
     redis_expiry := redis_expiry s; clock := n;
     redis_calls := redis_calls s; db_calls := db_calls s |}.

Definition set_redis_calls (n : nat) (s : State) : State :=
  {| phases := phases s; metrics := metrics s; deployed := deployed s;
     pipelines := pipelines s; model_deployments := model_deployments s;
     published := published s; redis_lists := redis_lists s;
     redis_expiry := redis_expiry s; clock := clock s;
     redis_calls := n; db_calls := db_calls s |}.

Definition set_db_calls (n : nat) (s : State) : State :=
  {| phases := phases s; metrics := metrics s; deployed := deployed s;
     pipelines := pipelines s; model_deployments := model_deployments s;
     published := published s; redis_lists := redis_lists s;
     redis_expiry := redis_expiry s; clock := clock s;
     redis_calls := redis_calls s; db_calls := n |}.

(** [datetime.now(timezone.utc)]: a logical clock that advances each time
    it is read. *)
Definition now : M nat :=
  fun s => (Ok (clock s), set_clock (S (clock s)) s).

(** *** Redis helpers for pipeline state *)

Definition redis_error : string := "redis.exceptions.ConnectionError".
Definition db_error : string := "sqlalchemy.exc.OperationalError".

Definition logs_channel (pipeline_id : string) : string :=
  "pipeline:" +:+ pipeline_id +:+ ":logs".

Definition phases_key (pipeline_id : string) : string :=
  "pipeline:" +:+ pipeline_id +:+ ":phases".

(** One command sent to Redis: it raises, with no effect, when the server
    cannot be reached. *)
Definition redis_command (w : World) (effect : State -> State) : M unit :=
  fun s =>
    let n := redis_calls s in
    let s1 := set_redis_calls (S n) s in
    if redis_ok w n then (Ok tt, effect s1)
    else (Raise (Py.ExternalError redis_error), s1).

Definition _publish_phase (w : World) (pipeline_id phase_name status logs : string)
    : M unit :=
  ts ← now;
  let payload :=
    {| ev_pipeline_id := pipeline_id; ev_phase := phase_name;
       ev_status := status; ev_logs := logs; ev_timestamp := ts |} in
  redis_command w
    (set_published (fun l => l ++ [(logs_channel pipeline_id, payload)]));;
  redis_command w
    (set_redis_lists (fun m =>
       <[phases_key pipeline_id :=
           default [] (m !! phases_key pipeline_id) ++ [payload]]> m));;
  redis_command w
    (set_redis_expiry (fun m => <[phases_key pipeline_id := 86400%N]> m)).

(** The keyword arguments of [_update_pipeline_db]; [None] is the default. *)
Record Update : Type := {
  u_status : option string;
  u_phases : option (list PhaseEntry);
  u_metrics : option (gmap string mvalue);
  u_started_at : option nat;
  u_finished_at : option nat
}.

Definition no_update : Update :=
  {| u_status := None; u_phases := None; u_metrics := None;
     u_started_at := None; u_finished_at := None |}.

Definition apply_update (u : Update) (p : Pipeline) : Pipeline :=
  {| p_status := default (p_status p) (u_status u);
     p_phases := default (p_phases p) (u_phases u);
     p_metrics := default (p_metrics p) (u_metrics u);
     p_started_at :=
       match u_started_at u with Some t => Some t | None => p_started_at p end;
     p_finished_at :=
       match u_finished_at u with Some t => Some t | None => p_finished_at p end |}.

(** One transaction on the row of the run: nothing is written when the
    database raises, and a missing row is logged and left alone. *)
Definition _update_pipeline_db (w : World) (pipeline_id : string) (u : Update) : M unit :=
  fun s =>
    let n := db_calls s in
    let s1 := set_db_calls (S n) s in
    if db_ok w n then
      match pipelines s !! pipeline_id with
      | None => (Ok tt, s1)
      | Some p => (Ok tt, set_pipelines (<[pipeline_id := apply_update u p]>) s1)
      end
    else (Raise (Py.ExternalError db_error), s1).

(** *** The task *)

(** The closure [_phase] of [run_pipeline]: append to the local list, then
    publish, then store the whole list. *)
Definition _phase (w : World) (pipeline_id name status logs : string) : M unit :=
  ts ← now;
  let entry :=
    {| ph_name := name; ph_status := status; ph_timestamp := ts; ph_logs := logs |} in
  modify (set_phases (fun l => l ++ [entry]));;
  _publish_phase w pipeline_id name status logs;;
  ps ← gets phases;
  _update_pipeline_db w pipeline_id
    {| u_status := None; u_phases := Some ps; u_metrics := None;
       u_started_at := None; u_finished_at := None |}.

(** [if _shutting_down: raise SystemExit(...)] *)
Definition check_shutdown (w : World) (k : nat) : M unit :=
  if shutting_down w k then raise (Py.SystemExit "Worker shutting down")
  else mret tt.

(** Phase 1: Download notebook *)
Definition download_phase (w : World) (pipeline_id : string) : M notebook :=
  _phase w pipeline_id "download" "running" "";;
  nb ← external (download_notebook w);
  _phase w pipeline_id "download" "success" "";;
  mret nb.

(** Phase 2: Validate tags *)
Definition validate_phase (w : World) (pipeline_id : string) (nb : notebook) : M config :=
  _phase w pipeline_id "validate" "running" "";;
  lift (validate_required_tags nb);;
  cfg ← lift (extract_config nb);
  _phase w pipeline_id "validate" "success" "";;
  mret cfg.

(** Phase 3: Execute notebook with papermill.  The oracle gives the excerpt
    of the cell logs that is stored with the phase. *)
Definition execute_phase (w : World) (pipeline_id : string) : M unit :=
  _phase w pipeline_id "execute" "running" "";;
  cell_logs ← external (execute_notebook w);
  _phase w pipeline_id "execute" "success" cell_logs.

(** [metrics.get(accuracy, 0.0)].  At the one place it is read the
    dictionary holds numbers only; a Python boolean compares as 0 or 1. *)
Definition metrics_accuracy (m : gmap string mvalue) : Q :=
  match m !! "accuracy" with
  | Some (MNum q) => q
  | Some (MBool b) => if b then 1 else 0
  | None => 0
  end.

(** Phase 4: Register in MLflow.  Reading the metrics back is guarded by
    its own [try]/[except]: a failed read gives the empty dictionary. *)
Definition register_phase (w : World) (pipeline_id : string) : M (Q * string) :=
  _phase w pipeline_id "register" "running" "";;
  r ← external (mlflow_register w);
  modify (set_metrics (fun _ =>
    match r.1 with Some m => MNum <$> m | None => ∅ end));;
  accuracy ← gets (fun s => metrics_accuracy (metrics s));
  let mlflow_run_id := r.2 in
  _phase w pipeline_id "register" "success" "";;
  mret (accuracy, mlflow_run_id).

(** The rows of [model_name] that are active are switched off. *)
Definition deactivate (model_name : string) (d : ModelDeployment) : ModelDeployment :=
  if bool_decide (d_model_name d = model_name) && d_is_active d then
    {| d_model_name := d_model_name d; d_version := d_version d;
       d_accuracy := d_accuracy d; d_endpoint_url := d_endpoint_url d;
       d_deployed_at := d_deployed_at d; d_is_active := false;
       d_pipeline_id := d_pipeline_id d |}
  else d.

(** What the session of the deploy phase commits: the former active rows of
    the model switched off and the new row added. *)
Definition promote (new : ModelDeployment) (table : list ModelDeployment)
    : list ModelDeployment :=
  map (deactivate (d_model_name new)) table ++ [new].

(** Save deployment record: one session, one commit.  When the database
    raises, the session is discarded and the table is as before. *)
Definition save_deployment (w : World) (pipeline_id : string) (cfg : config)
    (accuracy : Q) (endpoint_url : string) : M unit :=
  ts ← now;
  match deployment_commit w with
  | Some msg => raise (Py.ExternalError msg)
  | None =>
      modify (set_model_deployments (promote
        {| d_model_name := model_name cfg; d_version := version cfg;
           d_accuracy := accuracy; d_endpoint_url := endpoint_url;
           d_deployed_at := ts; d_is_active := true;
           d_pipeline_id := Some pipeline_id |}))
  end.

(** [settings.auto_deploy_on_success and accuracy >= settings.min_accuracy_threshold] *)
Definition deploy_condition (w : World) (accuracy : Q) : bool :=
  auto_deploy_on_success (settings w)
  && Qle_bool (min_accuracy_threshold (settings w)) accuracy.

(** The body of the inner [try] of the deploy phase. *)
Definition deploy_attempt (w : World) (pipeline_id : string) (cfg : config)
    (accuracy : Q) : M unit :=
  match model_server_load w with
  | Some msg => raise (Py.ExternalError msg)
  | None => mret tt
  end;;
  let endpoint_url := model_server_url (settings w) +:+ "/predict/" +:+ model_name cfg in
  save_deployment w pipeline_id cfg accuracy endpoint_url;;
  modify (set_deployed true);;
  _phase w pipeline_id "deploy" "success" "".

(** Phase 5: Auto-deploy *)
Definition deploy_phase (w : World) (pipeline_id : string) (cfg : config)
    (accuracy : Q) : M unit :=
  modify (set_deployed false);;
  if deploy_condition w accuracy then
    _phase w pipeline_id "deploy" "running" "";;
    try_except (deploy_attempt w pipeline_id cfg accuracy)
      (fun exc =>
         if Py.is_Exception exc
         then Some (_phase w pipeline_id "deploy" "failed" (Py.str exc))
         else None)
  else mret tt.

(** Mark success *)
Definition mark_success (w : World) (pipeline_id : string) : M RunResult :=
  d ← gets deployed;
  modify (set_metrics (<["deployed" := MBool d]>));;
  ps ← gets phases;
  ms ← gets metrics;
  t ← now;
  _update_pipeline_db w pipeline_id
    {| u_status := Some "success"; u_phases := Some ps; u_metrics := Some ms;
       u_started_at := None; u_finished_at := Some t |};;
  _publish_phase w pipeline_id "complete" "success" "";;
  ms' ← gets metrics;
  mret (RunSuccess ms').

(** The [try] block of [run_pipeline]. *)
Definition pipeline_body (w : World) (pipeline_id : string) : M RunResult :=
  t ← now;
  _update_pipeline_db w pipeline_id
    {| u_status := Some "running"; u_phases := None; u_metrics := None;
       u_started_at := Some t; u_finished_at := None |};;
  nb ← download_phase w pipeline_id;
  check_shutdown w 0;;
  cfg ← validate_phase w pipeline_id nb;
  check_shutdown w 1;;
  execute_phase w pipeline_id;;
  check_shutdown w 2;;
  r ← register_phase w pipeline_id;
  deploy_phase w pipeline_id cfg r.1;;
  mark_success w pipeline_id.

(** [except SystemExit:] *)
Definition on_shutdown (w : World) (pipeline_id : string) : M RunResult :=
  ps ← gets phases;
  t ← now;
  _update_pipeline_db w pipeline_id
    {| u_status := Some "failed"; u_phases := Some ps; u_metrics := None;
       u_started_at := None; u_finished_at := Some t |};;
  _publish_phase w pipeline_id "shutdown" "failed" "Worker shutting down";;
  mret RunShutdown.

(** [except Exception as exc:] *)
Definition on_error (w : World) (pipeline_id : string) (exc : Py.exn) : M RunResult :=
  _phase w pipeline_id "error" "failed" (Py.str exc);;
  ps ← gets phases;
  ms ← gets metrics;
  t ← now;
  _update_pipeline_db w pipeline_id
    {| u_status := Some "failed"; u_phases := Some ps; u_metrics := Some ms;
       u_started_at := None; u_finished_at := Some t |};;
  mret (RunError (Py.str exc)).

(** The task.  [repo_id] and [commit_sha] only reach the collaborators,
    whose outcomes the world gives. *)
Definition run_pipeline (w : World) (pipeline_id : string) : M RunResult :=
  modify (set_phases (fun _ => []));;
  modify (set_metrics (fun _ => ∅));;
  try_except (pipeline_body w pipeline_id)
    (fun exc =>
       match exc with
       | Py.SystemExit _ => Some (on_shutdown w pipeline_id)
       | _ => Some (on_error w pipeline_id exc)
       end).

End Engine.

(** ** What the claims about the task say *)

Module EngineSpec.
Import NotebookParser Engine.

(** *** Runs on a healthy infrastructure

    When Redis and the database answer every call, a run is a composition of
    a few state transformers, one per helper of the task. *)

Definition infra_ok (w : World) : Prop :=
  (forall n, redis_ok w n = true) /\ (forall n, db_ok w n = true).

Definition mk_entry (name status logs : string) (ts : nat) : PhaseEntry :=
  {| ph_name := name; ph_status := status; ph_timestamp := ts; ph_logs := logs |}.

Definition mk_event (pid name status logs : string) (ts : nat) : Event :=
  {| ev_pipeline_id := pid; ev_phase := name; ev_status := status;
     ev_logs := logs; ev_timestamp := ts |}.

Definition publish_effect (pid name status logs : string) (s : State) : State :=
  let ev := mk_event pid name status logs (clock s) in
  let n := redis_calls s in
  set_redis_expiry (fun m => <[phases_key pid := 86400%N]> m)
    (set_redis_calls (S (S (S n)))
      (set_redis_lists
         (fun m => <[phases_key pid := default [] (m !! phases_key pid) ++ [ev]]> m)
         (set_redis_calls (S (S n))
            (set_published (fun l => l ++ [(logs_channel pid, ev)])
               (set_redis_calls (S n) (set_clock (S (clock s)) s)))))).

Definition update_effect (pid : string) (u : Update) (s : State) : State :=
  let s1 := set_db_calls (S (db_calls s)) s in
  match pipelines s !! pid with
  | None => s1
  | Some p => set_pipelines (<[pid := apply_update u p]>) s1
  end.

Definition phases_update (ps : list PhaseEntry) : Update :=
  {| u_status := None; u_phases := Some ps; u_metrics := None;
     u_started_at := None; u_finished_at := None |}.

Definition phase_effect (pid name status logs : string) (s : State) : State :=
  let s1 := set_phases (fun l => l ++ [mk_entry name status logs (clock s)])
              (set_clock (S (clock s)) s) in
  let s2 := publish_effect pid name status logs s1 in
  update_effect pid (phases_update (phases s2)) s2.

(** *** What is observed of a state

    The part of the state the claims speak about, for the run [pid]: the
    local variables, the row of the run, the deployments, the events
    published so far, and the clock.  Each transformer above acts on it
    without looking at the rest of the state. *)
Definition snoc_event (l : list (string * Event)) (x : string * Event)
    : list (string * Event) := l ++ [x].

Record Obs : Type := {
  o_phases : list PhaseEntry;
  o_metrics : gmap string mvalue;
  o_deployed : bool;
  o_row : option Pipeline;
  o_deployments : list ModelDeployment;
  o_published : list (string * Event);
  o_clock : nat
}.

Definition obs (pid : string) (s : State) : Obs :=
  {| o_phases := phases s; o_metrics := metrics s; o_deployed := deployed s;
     o_row := pipelines s !! pid; o_deployments := model_deployments s;
     o_published := published s; o_clock := clock s |}.

Definition o_set_phases (f : list PhaseEntry -> list PhaseEntry) (o : Obs) : Obs :=
  {| o_phases := f (o_phases o); o_metrics := o_metrics o;
     o_deployed := o_deployed o; o_row := o_row o;
     o_deployments := o_deployments o; o_published := o_published o;
     o_clock := o_clock o |}.

Definition o_set_metrics (f : gmap string mvalue -> gmap string mvalue) (o : Obs) : Obs :=
  {| o_phases := o_phases o; o_metrics := f (o_metrics o);
     o_deployed := o_deployed o; o_row := o_row o;
     o_deployments := o_deployments o; o_published := o_published o;
     o_clock := o_clock o |}.

Definition o_set_deployed (b : bool) (o : Obs) : Obs :=
  {| o_phases := o_phases o; o_metrics := o_metrics o;
     o_deployed := b; o_row := o_row o;
     o_deployments := o_deployments o; o_published := o_published o;
     o_clock := o_clock o |}.

Definition o_set_deployments (f : list ModelDeployment -> list ModelDeployment)
    (o : Obs) : Obs :=
  {| o_phases := o_phases o; o_metrics := o_metrics o;
     o_deployed := o_deployed o; o_row := o_row o;
     o_deployments := f (o_deployments o); o_published := o_published o;
     o_clock := o_clock o |}.

Definition o_set_clock (n : nat) (o : Obs) : Obs :=
  {| o_phases := o_phases o; o_metrics := o_metrics o;
     o_deployed := o_deployed o; o_row := o_row o;
     o_deployments := o_deployments o; o_published := o_published o;
     o_clock := n |}.

Definition o_publish (pid name status logs : string) (o : Obs) : Obs :=
  {| o_phases := o_phases o; o_metrics := o_metrics o;
     o_deployed := o_deployed o; o_row := o_row o;
     o_deployments := o_deployments o;
     o_published :=
       snoc_event (o_published o)
         (logs_channel pid, mk_event pid name status logs (o_clock o));
     o_clock := S (o_clock o) |}.

Definition o_update (u : Update) (o : Obs) : Obs :=
  {| o_phases := o_phases o; o_metrics := o_metrics o;
     o_deployed := o_deployed o; o_row := option_map (apply_update u) (o_row o);
     o_deployments := o_deployments o; o_published := o_published o;
     o_clock := o_clock o |}.

Definition o_phase (pid name status logs : string) (o : Obs) : Obs :=
  let ps := o_phases o ++ [mk_entry name status logs (o_clock o)] in
  {| o_phases := ps; o_metrics := o_metrics o;
     o_deployed := o_deployed o;
     o_row := option_map (apply_update (phases_update ps)) (o_row o);
     o_deployments := o_deployments o;
     o_published :=
       snoc_event (o_published o)
         (logs_channel pid, mk_event pid name status logs (S (o_clock o)));
     o_clock := S (S (o_clock o)) |}.

(** The names and statuses of a list of phase entries, in order. *)
Definition summary (ps : list PhaseEntry) : list (string * string) :=
  map (fun e => (ph_name e, ph_status e)) ps.

(** The accuracy the register phase extracts from what MLflow returned. *)
Definition extracted_accuracy (m : option (gmap string Q)) : Q :=
  match m with
  | Some m => default 0%Q (m !! "accuracy")
  | None => 0%Q
  end.

(** The names and statuses of the published events, in order. *)
Definition event_summary (l : list (string * Event)) : list (string * string) :=
  map (fun x => (ev_phase x.2, ev_status x.2)) l.

(** *** The course of a run, read off the world *)

Definition PHASE_ORDER : list string :=
  [ "download"; "validate"; "execute"; "register" ].

(** The entries of a run that went through the phases before [ph] and
    started [ph]; with [closed], [ph] succeeded too. *)
Fixpoint trace (order : list string) (ph : string) (closed : bool)
    : list (string * string) :=
  match order with
  | [] => []
  | p :: rest =>
      if String.eqb p ph
      then (p, "running") :: (if closed then [(p, "success")] else [])
      else (p, "running") :: (p, "success") :: trace rest ph closed
  end.

(** The entries of a run whose four mandatory phases succeeded. *)
Definition happy_prefix : list (string * string) :=
  trace PHASE_ORDER "register" true.

(** What happens to a run: the first phase that raises, with the message of
    its exception; or the check after a phase finds the worker shutting
    down; or every mandatory phase succeeds and no check fires. *)
Inductive Outcome : Type :=
| Failed (phase : string) (msg : string)
| Interrupted (after : string)
| Completed.

Definition classify (w : World) : Outcome :=
  match download_notebook w with
  | inl msg => Failed "download" msg
  | inr nb =>
      if shutting_down w 0 then Interrupted "download" else
      match validate_required_tags nb with
      | inl e => Failed "validate" (Py.str e)
      | inr _ =>
          match extract_config nb with
          | inl e => Failed "validate" (Py.str e)
          | inr _ =>
              if shutting_down w 1 then Interrupted "validate" else
              match execute_notebook w with
              | inl msg => Failed "execute" msg
              | inr _ =>
                  if shutting_down w 2 then Interrupted "execute" else
                  match mlflow_register w with
                  | inl msg => Failed "register" msg
                  | inr _ => Completed
                  end
              end
          end
      end
  end.

(** The four mandatory phases succeed and no shutdown is seen: the run
    comes to the deploy decision with the configuration [cfg] and with what
    MLflow returned. *)
Definition reaches_deploy (w : World) (nb : notebook) (cfg : config) (logs : string)
    (m : option (gmap string Q)) (rid : string) : Prop :=
  download_notebook w = inr nb
  /\ validate_required_tags nb = inr tt
  /\ extract_config nb = inr cfg
  /\ execute_notebook w = inr logs
  /\ mlflow_register w = inr (m, rid)
  /\ shutting_down w 0 = false
  /\ shutting_down w 1 = false
  /\ shutting_down w 2 = false.

(** Promotion is enabled and the accuracy reaches the minimum. *)
Definition gate_open (w : World) (m : option (gmap string Q)) : Prop :=
  auto_deploy_on_success (settings w) = true
  /\ (min_accuracy_threshold (settings w) <= extracted_accuracy m)%Q.

(** Promotion is disabled or the accuracy is strictly below the minimum. *)
Definition gate_closed (w : World) (m : option (gmap string Q)) : Prop :=
  auto_deploy_on_success (settings w) = false
  \/ (extracted_accuracy m < min_accuracy_threshold (settings w))%Q.

(** The same, for whatever MLflow returns in this world. *)
Definition gate_closed_world (w : World) : Prop :=
  forall m rid, mlflow_register w = inr (m, rid) -> gate_closed w m.

(** Both the load call and the write of the deployment row go through. *)
Definition deployment_succeeds (w : World) : bool :=
  match model_server_load w, deployment_commit w with
  | None, None => true
  | _, _ => false
  end.

(** The active rows of a model. *)
Definition active_for (name : string) (table : list ModelDeployment)
    : list ModelDeployment :=
  filter (fun d => d_model_name d = name /\ d_is_active d = true) table.

(** The table after a run: as before, or promoted once by this run. *)
Definition promoted_or_same (pid : string) (before after : list ModelDeployment) : Prop :=
  after = before
  \/ exists new, d_is_active new = true /\ d_pipeline_id new = Some pid
                 /\ after = promote new before.

(** *** The claims that fail, as they are stated *)

(** No exception leaves the task. *)
Definition nothing_escapes (w : World) (pid : string) (s : State) : Prop :=
  exists r, (run_pipeline w pid s).1 = Ok r.

(** The stored status is success exactly when no stored entry other than
    one of the deploy phase is failed. *)
Definition success_iff_phases_succeeded (w : World) (pid : string) (s : State)
    : Prop :=
  forall row',
    pipelines (run_pipeline w pid s).2 !! pid = Some row' ->
    (p_status row' = "success"
     <-> Forall (fun e => ph_status e = "failed" -> ph_name e = "deploy")
           (p_phases row')).

(** The failed entries of a stored run. *)
Definition failed_entries (row : Pipeline) : list PhaseEntry :=
  filter (fun e => ph_status e = "failed") (p_phases row).

(** The stored run is failed and its one failed entry is the validate
    phase. *)
Definition validate_entry_failed (w : World) (pid : string) (s : State) : Prop :=
  exists row',
    pipelines (run_pipeline w pid s).2 !! pid = Some row'
    /\ p_status row' = "failed"
    /\ map ph_name (failed_entries row') = ["validate"].

(** The run returns success, its stored status is success and its stored
    metrics hold the boolean deployed. *)
Definition deploy_failure_absorbed (w : World) (pid : string) (s : State) : Prop :=
  exists ms row',
    (run_pipeline w pid s).1 = Ok (RunSuccess ms)
    /\ pipelines (run_pipeline w pid s).2 !! pid = Some row'
    /\ p_status row' = "success"
    /\ exists b, p_metrics row' !! "deployed" = Some (MBool b).

(** Two runs end alike: same result for the caller, same stored status. *)
Definition same_outcome (w w' : World) (pid : string) (s : State) : Prop :=
  (run_pipeline w pid s).1 = (run_pipeline w' pid s).1
  /\ p_status <$> (pipelines (run_pipeline w pid s).2 !! pid)
     = p_status <$> (pipelines (run_pipeline w' pid s).2 !! pid).

(** *** Runs in any world

    Whatever Redis and the database answer, a computation is [quiet] when it
    leaves the deployments table alone and only appends entries with allowed
    names to the list of phases; it is a [promotion_step] when the table it
    leaves is the table it found, or that table promoted once. *)
Definition quiet (allowed : string -> Prop) {A : Type} (m : M A) : Prop :=
  forall s,
    model_deployments (m s).2 = model_deployments s
    /\ exists l, phases (m s).2 = phases s ++ l
                 /\ Forall (fun e => allowed (ph_name e)) l.

Definition promotion_step (pid : string) {A : Type} (m : M A) : Prop :=
  forall s,
    promoted_or_same pid (model_deployments s) (model_deployments (m s).2).

Definition not_deploy (name : string) : Prop := name <> "deploy".

Definition any_name (name : string) : Prop := True.

End EngineSpec.

(** ** What a run leaves alone, in any world *)

Module EngineFrames.
Import NotebookParser Engine EngineSpec.

(** A computation keeps a relation between the state it starts from and
    the state it ends in, whether it returns or raises. *)
Definition keeps (R : relation State) {A : Type} (m : M A) : Prop :=
  forall s, R s (m s).2.

(** What it takes for a relation to be kept by the whole task: it is a
    preorder, and every assignment to a local variable, every reading of the
    clock, every publication and every update of the row keeps it. *)
Class Kept (R : relation State) (w : World) (pid : string) : Prop := {
  kept_preorder :: PreOrder R;
  kept_clock : forall n s, R s (set_clock n s);
  kept_phases : forall f s, R s (set_phases f s);
  kept_metrics : forall f s, R s (set_metrics f s);
  kept_deployed : forall b s, R s (set_deployed b s);
  kept_deployments : forall f s, R s (set_model_deployments f s);
  kept_publish : forall name st lg, keeps R (_publish_phase w pid name st lg);
  kept_update : forall u, keeps R (_update_pipeline_db w pid u)
}.

(** A computation that starts in a state where [I] holds ends in a state
    where [I] holds when it raises, and where [G] holds of its result when
    it returns. *)
Definition ends (I : State -> Prop) {A : Type} (G : A -> State -> Prop) (m : M A)
    : Prop :=
  forall s, I s ->
    match m s with
    | (Ok a, s') => G a s'
    | (Raise _, s') => I s'
    end.

(** The row of the run exists. *)
Definition has_row (pid : string) (s : State) : Prop :=
  is_Some (pipelines s !! pid).

(** The stored run agrees with what the task returns: the stored phases are
    the list of the task, the run is finished, and the stored status and
    metrics are those of the result. *)
Definition stored_as_returned (pid : string) (r : RunResult) (s : State) : Prop :=
  exists row,
    pipelines s !! pid = Some row
    /\ p_phases row = phases s
    /\ is_Some (p_finished_at row)
    /\ match r with
       | RunSuccess ms =>
           p_status row = "success" /\ p_metrics row = ms
           /\ ms !! "deployed" = Some (MBool (deployed s))
       | RunShutdown => p_status row = "failed"
       | RunError msg =>
           p_status row = "failed" /\ p_metrics row = metrics s
           /\ exists e, last (p_phases row) = Some e
                        /\ ph_name e = "error" /\ ph_status e = "failed"
                        /\ ph_logs e = msg
       end.

(** The table of runs differs at most in the row [pid], and that row is
    neither created nor deleted. *)
Definition only_row (pid : string) (s s' : State) : Prop :=
  (forall k, k <> pid -> pipelines s' !! k = pipelines s !! k)
  /\ (is_Some (pipelines s' !! pid) <-> is_Some (pipelines s !! pid)).

(** An event of the run [pid] on the channel of that run. *)
Definition own_event (pid : string) (x : string * Event) : Prop :=
  x.1 = logs_channel pid /\ ev_pipeline_id x.2 = pid.

(** What Redis holds after the commands of the run [pid]: the events
    published are events of the run on its channel; the list of the run has
    grown by payloads that were published, in the order of their
    publication; its expiry is as before or one day; every other key is as
    before. *)
Definition only_own_events (pid : string) (s s' : State) : Prop :=
  exists evs l,
    published s' = published s ++ evs
    /\ Forall (own_event pid) evs
    /\ default [] (redis_lists s' !! phases_key pid)
       = default [] (redis_lists s !! phases_key pid) ++ l
    /\ sublist l (map snd evs)
    /\ (redis_expiry s' !! phases_key pid = redis_expiry s !! phases_key pid
        \/ redis_expiry s' !! phases_key pid = Some 86400%N)
    /\ (forall k, k <> phases_key pid ->
          redis_lists s' !! k = redis_lists s !! k
          /\ redis_expiry s' !! k = redis_expiry s !! k).

(** On a healthy infrastructure the list of the run in Redis grows by
    exactly the payloads published, and has the expiry of one day as soon
    as one was published. *)
Definition mirrored (pid : string) (s s' : State) : Prop :=
  exists evs,
    published s' = published s ++ map (fun ev => (logs_channel pid, ev)) evs
    /\ default [] (redis_lists s' !! phases_key pid)
       = default [] (redis_lists s !! phases_key pid) ++ evs
    /\ (evs = [] -> redis_expiry s' !! phases_key pid
                    = redis_expiry s !! phases_key pid)
    /\ (evs <> [] -> redis_expiry s' !! phases_key pid = Some 86400%N).

(** The closing event of a run, by what the task returns. *)
Definition closing_event (r : RunResult) : list (string * string) :=
  match r with
  | RunSuccess _ => [("complete", "success")]
  | RunShutdown => [("shutdown", "failed")]
  | RunError _ => []
  end.

End EngineFrames.

(** ** The session of the deploy phase, statement by statement *)

Module DeploySession.
Import Engine EngineSpec.

(** The session that saves a deployment (celery_tasks.py, lines 360 to
    382) sends three kinds of statements: one SELECT of the active rows of
    the model, then, at the commit, one UPDATE by primary key for each row
    it has read and one INSERT.  A row is known by its primary key, which is
    its position in the table: rows are added at the end and never removed.
    Between the SELECT and the commit of one session another session can
    commit: no statement takes a lock, and the table has no constraint on
    its active rows.  Each statement sees the rows committed so far, as
    under the default isolation of PostgreSQL and of SQLite. *)

(** [session.exec(select(ModelDeployment).where(model_name == ...,
    is_active == True)).all()]: the keys of the rows read. *)
Definition select_active (model_name : string) (table : list ModelDeployment)
    : list nat :=
  (filter (fun x : nat * ModelDeployment =>
             d_model_name x.2 = model_name /\ d_is_active x.2 = true)
     (imap pair table)).*1.

(** [p.is_active = False] *)
Definition switch_off (d : ModelDeployment) : ModelDeployment :=
  {| d_model_name := d_model_name d; d_version := d_version d;
     d_accuracy := d_accuracy d; d_endpoint_url := d_endpoint_url d;
     d_deployed_at := d_deployed_at d; d_is_active := false;
     d_pipeline_id := d_pipeline_id d |}.

(** [session.commit()]: the rows read, [prev], are switched off by their
    keys and the new row is inserted.  A row that another session has
    committed since the SELECT is not among the rows read and is left as it
    is. *)
Definition commit_promotion (prev : list nat) (new : ModelDeployment)
    (table : list ModelDeployment) : list ModelDeployment :=
  imap (fun i d => if bool_decide (i ∈ prev) then switch_off d else d) table
  ++ [new].

(** The session of one deploy phase with no commit of another session
    between its SELECT and its commit. *)
Definition session_alone (new : ModelDeployment) (table : list ModelDeployment)
    : list ModelDeployment :=
  commit_promotion (select_active (d_model_name new) table) new table.

(** The sessions of two deploy phases that overlap: both read the table
    before either commits; the one of [a] commits first. *)
Definition sessions_overlapping (a b : ModelDeployment) (table : list ModelDeployment)
    : list ModelDeployment :=
  let prev_a := select_active (d_model_name a) table in
  let prev_b := select_active (d_model_name b) table in
  commit_promotion prev_b b (commit_promotion prev_a a table).

(** After a deploy, the model has exactly one active row. *)
Definition exactly_one_active (name : string) (table : list ModelDeployment) : Prop :=
  exists d, active_for name table = [d].

End DeploySession.

(** ** model-server/server.py *)

Module ModelServer.

(** *** Data *)

(** What [model.predict] returns: a numpy array (it has [tolist]), another
    iterable, or an object that is neither, on which [list(...)] raises. *)
Inductive py_prediction : Type :=
| NdArray (values : list Q)
| Iterable (values : list Q)
| Scalar (value : Q).

(** A deserialised model: its [predict] method on a 2-D array of features;
    [inl msg] stands for an exception with that message. *)
Record Model : Type := {
  model_predict : list (list Q) -> string + py_prediction
}.

(** [_ModelEntry] *)
Record _ModelEntry : Type := {
  model : Model;
  model_name : string;
  version : string;
  mlflow_run_id : string;
  loaded_at : nat;
  request_count : nat
}.

(** The process state: the dictionary [_models] and the clock. *)
Record ServerState : Type := {
  _models : gmap string _ModelEntry;
  clock : nat
}.

Record LoadModelRequest : Type := {
  req_mlflow_run_id : string;
  req_version : string
}.

Record PredictResponse : Type := {
  resp_prediction : list Q;
  resp_model_name : string;
  resp_version : string
}.

Record ModelInfoResponse : Type := {
  info_model_name : string;
  info_version : string;
  info_mlflow_run_id : string;
  info_loaded_at : nat;
  info_request_count : nat
}.

Record MessageResponse : Type := { message : string }.

(** What is outside the process: the MLflow artifact store, the local file
    system after the download, and joblib.  A directory is listed in the
    order the operating system gives. *)
Record Env : Type := {
  download_artifacts : string -> string + string;
  is_dir : string -> bool;
  iterdir : string -> list string;
  joblib_load : string -> string + Model
}.

Definition HTTP_404_NOT_FOUND : nat := 404.
Definition HTTP_500_INTERNAL_SERVER_ERROR : nat := 500.

(** *** Model management *)

(** [name] ends with [suffix]. *)
Definition ends_with (suffix name : string) : bool :=
  (String.length suffix <=? String.length name)%nat
  && String.eqb
       (String.substring (String.length name - String.length suffix)
          (String.length suffix) name)
       suffix.

(** [model_file.glob(pattern)] for the pattern that is a star followed by
    the extension [.joblib]. *)
Definition glob_joblib (env : Env) (dir : string) : list string :=
  filter (fun f => ends_with ".joblib" f = true) (iterdir env dir).

(** The body of the [try] block up to the assignment of [model]. *)
Definition locate_and_load (env : Env) (body : LoadModelRequest) : Py.exn + Model :=
  match download_artifacts env (req_mlflow_run_id body) with
  | inl msg => inl (Py.ExternalError msg)
  | inr local_path =>
      let load f :=
        match joblib_load env f with
        | inl msg => inl (Py.ExternalError msg)
        | inr m => inr m
        end in
      if is_dir env local_path then
        match glob_joblib env local_path with
        | f :: _ => load f
        | [] =>
            match iterdir env local_path with
            | f :: _ => load f
            | [] =>
                inl (Py.FileNotFoundError ("No model files in " +:+ local_path))
            end
        end
      else load local_path
  end.

Definition load_model (env : Env) (name : string) (body : LoadModelRequest)
    (st : ServerState) : (Py.exn + MessageResponse) * ServerState :=
  match locate_and_load env body with
  | inr m =>
      let entry :=
        {| model := m; model_name := name; version := req_version body;
           mlflow_run_id := req_mlflow_run_id body;
           loaded_at := clock st; request_count := 0 |} in
      (inr {| message := "Model '" +:+ name +:+ "' v" +:+ req_version body
                         +:+ " loaded successfully." |},
       {| _models := <[name := entry]> (_models st); clock := S (clock st) |})
  | inl exc =>
      (inl (Py.HTTPException HTTP_500_INTERNAL_SERVER_ERROR
              ("Failed to load model: " +:+ Py.str exc)),
       st)
  end.

(** [prediction.tolist() if hasattr(prediction, tolist) else list(prediction)] *)
Definition to_list (p : py_prediction) : string + list Q :=
  match p with
  | NdArray l => inr l
  | Iterable l => inr l
  | Scalar _ => inl "object is not iterable"
  end.

Definition count_request (e : _ModelEntry) : _ModelEntry :=
  {| model := model e; model_name := model_name e; version := version e;
     mlflow_run_id := mlflow_run_id e; loaded_at := loaded_at e;
     request_count := S (request_count e) |}.

Definition set_models (f : gmap string _ModelEntry -> gmap string _ModelEntry)
    (st : ServerState) : ServerState :=
  {| _models := f (_models st); clock := clock st |}.

Definition predict (name : string) (data : list (list Q)) (st : ServerState)
    : (Py.exn + PredictResponse) * ServerState :=
  match _models st !! name with
  | None =>
      (inl (Py.HTTPException HTTP_404_NOT_FOUND
              ("Model '" +:+ name +:+ "' is not loaded.")),
       st)
  | Some entry =>
      match model_predict (model entry) data with
      | inl msg =>
          (inl (Py.HTTPException HTTP_500_INTERNAL_SERVER_ERROR
                  ("Prediction failed: " +:+ msg)),
           st)
      | inr prediction =>
          (* entry.request_count += 1: the entry is the object the
             dictionary holds under [name] *)
          let st' := set_models (<[name := count_request entry]>) st in
          match to_list prediction with
          | inl msg =>
              (inl (Py.HTTPException HTTP_500_INTERNAL_SERVER_ERROR
                      ("Prediction failed: " +:+ msg)),
               st')
          | inr result =>
              (inr {| resp_prediction := result; resp_model_name := name;
                      resp_version := version entry |},
               st')
          end
      end
  end.

Definition list_models (st : ServerState) : list ModelInfoResponse :=
  (fun kv : string * _ModelEntry =>
     {| info_model_name := model_name kv.2; info_version := version kv.2;
        info_mlflow_run_id := mlflow_run_id kv.2;
        info_loaded_at := loaded_at kv.2;
        info_request_count := request_count kv.2 |})
  <$> map_to_list (_models st).

Definition delete_model (name : string) (st : ServerState)
    : (Py.exn + MessageResponse) * ServerState :=
  match _models st !! name with
  | None =>
      (inl (Py.HTTPException HTTP_404_NOT_FOUND
              ("Model '" +:+ name +:+ "' is not loaded.")),
       st)
  | Some _ =>
      (inr {| message := "Model '" +:+ name +:+ "' unloaded." |},
       set_models (delete name) st)
  end.

(** *** What the claims about the server say *)

(** Every entry is stored under its own name, as [load_model] stores it. *)
Definition registry_wf (m : gmap string _ModelEntry) : Prop :=
  forall k e, m !! k = Some e -> model_name e = k.

(** The states the server can be in: it starts empty and serves requests. *)
Inductive reachable (env : Env) : ServerState -> Prop :=
| reach_start c : reachable env {| _models := ∅; clock := c |}
| reach_load st name body :
    reachable env st -> reachable env (load_model env name body st).2
| reach_predict st name data :
    reachable env st -> reachable env (predict name data st).2
| reach_delete st name :
    reachable env st -> reachable env (delete_model name st).2.

End ModelServer.

(** ** model-server/server.py: the system endpoints, and the server at work *)

Module ModelServerSystem.
Import ModelServer.

Record HealthResponse : Type := { health_status : string }.

(** [health] *)
Definition health : HealthResponse := {| health_status := "ok" |}.

Record ReadyResponse : Type := {
  status : string;
  models_loaded : nat
}.

(** [ready]: a dictionary is true when it is not empty. *)
Definition ready (st : ServerState) : ReadyResponse :=
  {| status := if bool_decide (_models st = ∅) then "no_models" else "ok";
     models_loaded := size (_models st) |}.

(** The server answers a sequence of prediction requests, one after the
    other. *)
Definition serve (reqs : list (string * list (list Q))) (st : ServerState)
    : ServerState :=
  foldl (fun st r => (predict r.1 r.2 st).2) st reqs.

(** The request is for [name] and the model of the entry [e] answers it
    with a prediction rather than with an exception. *)
Definition answered (e : _ModelEntry) (name : string)
    (r : string * list (list Q)) : bool :=
  bool_decide (r.1 = name)
  && match model_predict (model e) r.2 with
     | inr _ => true
     | inl _ => false
     end.

End ModelServerSystem.

(** ** backend/core/github.py *)

Module GitHub.
Import NotebookParser.

(** *** [parse_repo_url]

    [re.search] with the pattern: the text github.com, a slash or a colon,
    one or more characters that are not slashes (the group owner), a slash,
    one or more characters that are neither slashes nor dots (the group
    repo).  As for the patterns of the notebook parser, each repetition is
    followed by a character outside the repeated class (or by nothing), so
    the greedy run is the only way to match at a given start position, and
    [re.search] takes the leftmost start position that matches. *)

Definition slash : ascii := Eval cbv in ascii_of_nat 47.
Definition colon : ascii := Eval cbv in ascii_of_nat 58.
Definition dot : ascii := Eval cbv in ascii_of_nat 46.

(** The class of the owner: anything but a slash. *)
Definition owner_char (a : ascii) : bool := negb (Ascii.eqb a slash).

(** The class of the repo: anything but a slash or a dot. *)
Definition repo_char (a : ascii) : bool :=
  negb (Ascii.eqb a slash) && negb (Ascii.eqb a dot).

(** The greedy run of the characters of a class, and what follows it. *)
Fixpoint span (p : ascii -> bool) (s : list ascii) : list ascii * list ascii :=
  match s with
  | a :: s' =>
      if p a then let '(v, rest) := span p s' in (a :: v, rest)
      else ([], s)
  | [] => ([], [])
  end.

(** The pattern anchored at the start of [s]; the result is the two groups. *)
Definition match_repo (s : list ascii) : option (list ascii * list ascii) :=
  match strip_prefix (chars "github.com") s with
  | Some (c :: r1) =>
      if Ascii.eqb c slash || Ascii.eqb c colon then
        match span owner_char r1 with
        | ((_ :: _) as owner, _ :: r2) =>
            (* the character after the run is a slash: the run stops at
               the end of the text or at a slash *)
            match span repo_char r2 with
            | ((_ :: _) as repo, _) => Some (owner, repo)
            | _ => None
            end
        | _ => None
        end
      else None
  | _ => None
  end.

(** [re.search]: the leftmost start position at which the pattern matches. *)
Fixpoint search_repo (s : list ascii) : option (list ascii * list ascii) :=
  match match_repo s with
  | Some r => Some r
  | None =>
      match s with
      | [] => None
      | _ :: s' => search_repo s'
      end
  end.

Definition parse_repo_url (github_url : string) : Py.exn + (string * string) :=
  match search_repo (chars github_url) with
  | Some (owner, repo) =>
      inr (string_of_list_ascii owner, string_of_list_ascii repo)
  | None => inl (Py.ValueError ("Cannot parse GitHub URL: " +:+ github_url))
  end.

(** *** [verify_webhook_signature] *)

(** [s.startswith(prefix)] *)
Definition startswith (prefix s : string) : bool := String.prefix prefix s.

(** A [str] of ASCII characters only. *)
Definition is_ascii (s : string) : bool :=
  forallb (fun a => (nat_of_ascii a <? 128)%nat) (chars s).

(** [hmac.compare_digest] on two [str]: equality, and [TypeError] when one
    of them has a character that is not ASCII. *)
Definition compare_digest (a b : string) : string + bool :=
  if is_ascii a && is_ascii b then inr (String.eqb a b)
  else inl "comparing strings with non-ASCII characters is not supported".

(** [hexdigest secret payload] is the hexadecimal HMAC-SHA256 of the
    payload under the secret, computed by the library.  The result is the
    verdict, or the message of the [TypeError] of [compare_digest]. *)
Definition verify_webhook_signature (hexdigest : string -> string -> string)
    (payload signature secret : string) : string + bool :=
  if negb (startswith "sha256=" signature) then inr false
  else
    let expected := hexdigest secret payload in
    compare_digest ("sha256=" +:+ expected) signature.

(** *** What is said of [parse_repo_url] *)

(** The text [url] holds, right after the prefix [pre], the text
    github.com, a slash or a colon, the owner, a slash, and the repo, which
    ends where the text ends or where a slash or a dot follows. *)
Definition repo_at (url pre owner repo : list ascii) : Prop :=
  exists c rest,
    url = pre ++ chars "github.com" ++ c :: owner ++ slash :: repo ++ rest
    /\ (c = slash \/ c = colon)
    /\ owner <> [] /\ Forall (fun a => a <> slash) owner
    /\ repo <> [] /\ Forall (fun a => a <> slash /\ a <> dot) repo
    /\ match rest with
       | [] => True
       | a :: _ => a = slash \/ a = dot
       end.

End GitHub.

(** ** backend/main.py, backend/models/schemas.py, backend/core/pipeline.py *)

Module App.

(** An exception that leaves a handler of the API: an [HTTPException] the
    handler raised, or any other exception, known by the name of its class
    and its message.  No handler distinguishes the classes of the latter. *)
Inductive exn : Type :=
| HTTPException (status_code : nat) (detail : string)
| Unhandled (class msg : string).

(** What the client gets for an exception: the status and the detail of an
    [HTTPException]; for anything else, the answer of
    [unhandled_exception_handler] in main.py. *)
Definition response_of (e : exn) : nat * string :=
  match e with
  | HTTPException status_code detail => (status_code, detail)
  | Unhandled _ _ => (500, "Internal server error.")
  end.

Definition db_error (msg : string) : exn := Unhandled "OperationalError" msg.

(** *** The tables of models/schemas.py *)

(** A row of [repositories]; a stored row has its primary key. *)
Record Repository : Type := {
  r_id : nat;
  r_github_url : string;
  r_github_token_masked : string;
  r_branch : string;
  r_notebook_path : string;
  r_webhook_id : option Z;
  r_webhook_url : option string;
  r_created_at : nat;
  r_is_active : bool
}.

(** A row of [pipelines], with all its columns. *)
Record PipelineRow : Type := {
  pl_id : string;
  pl_repo_id : nat;
  pl_status : string;
  pl_commit_sha : string;
  pl_started_at : option nat;
  pl_finished_at : option nat;
  pl_phases : list Engine.PhaseEntry;
  pl_metrics : gmap string Engine.mvalue
}.

(** *** The pipeline runners of core/pipeline.py *)

Inductive RunnerBackend : Type := celery | kubernetes.

Inductive PipelineRunner : Type :=
| CeleryPipelineRunner
| KubernetesPipelineRunner.

(** [get_pipeline_runner] *)
Definition get_pipeline_runner (runner_backend : RunnerBackend) : PipelineRunner :=
  match runner_backend with
  | kubernetes => KubernetesPipelineRunner
  | celery => CeleryPipelineRunner
  end.

(** A message of the task queue: [run_pipeline.apply_async] with the three
    arguments and the identifier of the run as identifier of the task. *)
Record Task : Type := {
  task_id : string;
  task_pipeline_id : string;
  task_repo_id : nat;
  task_commit_sha : string
}.

Definition not_implemented : exn :=
  Unhandled "NotImplementedError" "Kubernetes runner not yet implemented.".

(** [runner.run]: the Celery runner sends the task, and raises what the
    broker raises when it cannot; the Kubernetes runner raises. *)
Definition run (broker : option string) (runner : PipelineRunner)
    (pipeline_id : string) (repo_id : nat) (commit_sha : string)
    (queue : list Task) : exn + list Task :=
  match runner with
  | CeleryPipelineRunner =>
      match broker with
      | Some msg => inl (Unhandled "OperationalError" msg)
      | None =>
          inr (queue ++ [{| task_id := pipeline_id; task_pipeline_id := pipeline_id;
                            task_repo_id := repo_id; task_commit_sha := commit_sha |}])
      end
  | KubernetesPipelineRunner => inl not_implemented
  end.

End App.

(** ** backend/routers/webhook.py *)

Module WebhookRouter.
Import NotebookParser GitHub App.

(** One commit of a push event: the keys the handler reads. *)
Record Commit : Type := {
  added : option (list string);
  modified : option (list string)
}.

(** The payload of a push event: the keys the handler reads, each absent
    or present with a value of the type a push event has there (a text, a
    list of commits, a list of file names).  [html_url] is the key of that
    name under [repository]. *)
Record Push : Type := {
  html_url : option string;
  ref : option string;
  after : option string;
  commits : option (list Commit)
}.

(** A request: the raw body, what [request.json()] makes of it (the payload,
    or the exception raised for a body that is not a JSON object), and the
    two headers, empty when absent. *)
Record Request : Type := {
  body : string;
  json : exn + Push;
  x_hub_signature_256 : string;
  x_github_event : string
}.

(** What the handler reads of its surroundings: the HMAC of the library,
    the settings, the identifier [uuid4] draws for the new run, whether the
    [k]-th statement sent to the database goes through, and what the broker
    raises, if anything, when a task is sent. *)
Record WebEnv : Type := {
  hexdigest : string -> string -> string;
  github_webhook_secret : string;
  runner_backend : RunnerBackend;
  new_uuid : string;
  db_ok : nat -> bool;
  broker : option string
}.

(** The database and the task queue. *)
Record AppState : Type := {
  repositories : list Repository;
  pipelines : list PipelineRow;
  queue : list Task
}.

Record WebhookAccepted : Type := {
  wa_status : string;
  wa_pipeline_id : string
}.

(** [s.replace(old, new)] for a non-empty [old]: the occurrences of [old]
    are replaced from left to right, without overlap.  [skip] counts the
    characters of an occurrence still to be passed over. *)
Fixpoint replace_go (old new : list ascii) (skip : nat) (s : list ascii)
    : list ascii :=
  match s with
  | [] => []
  | a :: s' =>
      match skip with
      | S k => replace_go old new k s'
      | O =>
          match strip_prefix old s with
          | Some _ => new ++ replace_go old new (length old - 1) s'
          | None => a :: replace_go old new 0 s'
          end
      end
  end.

Definition replace (old new s : string) : string :=
  string_of_list_ascii (replace_go (chars old) (chars new) 0 (chars s)).

(** [ref.replace(refs/heads/, empty)] *)
Definition branch_of (ref : string) : string := replace "refs/heads/" "" ref.

(** The active repositories registered under a URL, in the order of the
    table. *)
Definition active_repos (url : string) (table : list Repository) : list Repository :=
  filter (fun r => r_github_url r = url /\ r_is_active r = true) table.

(** The files added or modified by the commits of the push. *)
Definition modified_files (payload : Push) : list string :=
  flat_map (fun c => default [] (added c) ++ default [] (modified c))
    (default [] (commits payload)).

(** [any(f.endswith(.ipynb) for f in modified_files)] *)
Definition notebook_changed (payload : Push) : bool :=
  existsb (ModelServer.ends_with ".ipynb") (modified_files payload).

Definition new_pipeline (id : string) (repo_id : nat) (commit_sha : string)
    : PipelineRow :=
  {| pl_id := id; pl_repo_id := repo_id; pl_status := "queued";
     pl_commit_sha := commit_sha; pl_started_at := None; pl_finished_at := None;
     pl_phases := []; pl_metrics := ∅ |}.

Definition add_pipeline (row : PipelineRow) (st : AppState) : AppState :=
  {| repositories := repositories st; pipelines := pipelines st ++ [row];
     queue := queue st |}.

Definition set_queue (q : list Task) (st : AppState) : AppState :=
  {| repositories := repositories st; pipelines := pipelines st; queue := q |}.

(** The end of the handler: the run is stored, then handed to the runner.
    [k] is the number of statements the request has sent to the database so
    far.  The insertion fails when the database does, and when the
    identifier is taken already. *)
Definition enqueue (env : WebEnv) (k : nat) (repo : Repository) (commit_sha : string)
    (st : AppState) : (exn + WebhookAccepted) * AppState :=
  let pipeline := new_pipeline (new_uuid env) (r_id repo) commit_sha in
  if negb (db_ok env k) then (inl (db_error "commit"), st)
  else if bool_decide (new_uuid env ∈ map pl_id (pipelines st)) then
    (inl (Unhandled "IntegrityError" "UNIQUE constraint failed: pipelines.id"), st)
  else
    let st1 := add_pipeline pipeline st in
    if negb (db_ok env (S k)) then (inl (db_error "refresh"), st1)
    else
      match run (broker env) (get_pipeline_runner (runner_backend env))
              (pl_id pipeline) (r_id repo) commit_sha (queue st1) with
      | inl e => (inl e, st1)
      | inr q =>
          (inr {| wa_status := "queued"; wa_pipeline_id := pl_id pipeline |},
           set_queue q st1)
      end.

(** [github_webhook] *)
Definition github_webhook (env : WebEnv) (req : Request) (st : AppState)
    : (exn + WebhookAccepted) * AppState :=
  match verify_webhook_signature (hexdigest env) (body req)
          (x_hub_signature_256 req) (github_webhook_secret env) with
  | inl msg => (inl (Unhandled "TypeError" msg), st)
  | inr false => (inl (HTTPException 401 "Invalid webhook signature."), st)
  | inr true =>
      if negb (String.eqb (x_github_event req) "push") then
        (inl (HTTPException 200 ("Event '" +:+ x_github_event req +:+ "' ignored.")),
         st)
      else
        match json req with
        | inl e => (inl e, st)
        | inr payload =>
            let repo_url := default "" (html_url payload) in
            let branch := branch_of (default "" (ref payload)) in
            let commit_sha := default "" (after payload) in
            if negb (db_ok env 0) then (inl (db_error "select"), st)
            else
              let repos := active_repos repo_url (repositories st) in
              let second := match repos with [] => true | _ => false end in
              if second && negb (db_ok env 1) then (inl (db_error "select"), st)
              else
                let repos :=
                  if second
                  then active_repos (repo_url +:+ ".git") (repositories st)
                  else repos in
                match repos with
                | [] =>
                    (inl (HTTPException 404
                            "No registered repository matches this webhook."),
                     st)
                | repo :: _ =>
                    if negb (String.eqb (r_branch repo) branch) then
                      (inl (HTTPException 200
                              ("Push to branch '" +:+ branch
                               +:+ "' ignored (monitoring '" +:+ r_branch repo
                               +:+ "').")),
                       st)
                    else if negb (notebook_changed payload) then
                      (inl (HTTPException 200
                              "No notebook files modified in this push."),
                       st)
                    else
                      enqueue env (if second then 2 else 1) repo commit_sha st
                end
        end
  end.

(** *** What is said of the handler *)

(** The repository a push is for: the first active registration of the URL
    of the payload, or else of that URL followed by [.git]. *)
Definition repository_of (payload : Push) (table : list Repository)
    : option Repository :=
  match active_repos (default "" (html_url payload)) table with
  | repo :: _ => Some repo
  | [] => head (active_repos (default "" (html_url payload) +:+ ".git") table)
  end.

(** The request is a signed push to the monitored branch of the registered
    repository [repo] that adds or modifies a notebook. *)
Definition qualifies (env : WebEnv) (req : Request) (st : AppState)
    (payload : Push) (repo : Repository) : Prop :=
  x_hub_signature_256 req
  = "sha256=" +:+ hexdigest env (github_webhook_secret env) (body req)
  /\ is_ascii (x_hub_signature_256 req) = true
  /\ x_github_event req = "push"
  /\ json req = inr payload
  /\ repository_of payload (repositories st) = Some repo
  /\ r_branch repo = branch_of (default "" (ref payload))
  /\ (exists f, In f (modified_files payload)
                /\ exists stem, f = stem +:+ ".ipynb").

(** The statements of the request go through, and the identifier drawn is
    not taken. *)
Definition storable (env : WebEnv) (st : AppState) : Prop :=
  (forall k, db_ok env k = true)
  /\ ~ In (new_uuid env) (map pl_id (pipelines st)).

(** The state once the run is stored and its task sent. *)
Definition queued (env : WebEnv) (repo : Repository) (commit_sha : string)
    (st : AppState) : AppState :=
  set_queue
    (queue st
     ++ [{| task_id := new_uuid env; task_pipeline_id := new_uuid env;
            task_repo_id := r_id repo; task_commit_sha := commit_sha |}])
    (add_pipeline (new_pipeline (new_uuid env) (r_id repo) commit_sha) st).

(** The text [old] occurs in [s]. *)
Definition occurs_in (old s : string) : Prop :=
  exists pre post, s = pre +:+ old +:+ post.

End WebhookRouter.

(** ** backend/routers/models.py *)

Module ModelsRouter.
Import Engine App.

(** The handlers work on the table [model_deployments], the one the deploy
    phase of the task writes, its rows in the order of their primary key. *)

(** What is outside the handlers: the model server, reached over HTTP, and
    the database.  [load name body] and [unload name] are [None] when the
    model server answers 2xx, and otherwise the message of the exception
    that [httpx] raises (connection refused, timeout, or the status of an
    error answer); [db_ok k] tells whether the [k]-th statement the request
    sends to the database goes through. *)
Record ModelsEnv : Type := {
  load : string -> ModelServer.LoadModelRequest -> option string;
  unload : string -> option string;
  db_ok : nat -> bool
}.

Record MessageResponse : Type := { message : string }.

(** [list_models]: the active deployments. *)
Definition list_models (table : list ModelDeployment) : list ModelDeployment :=
  filter (fun d => d_is_active d = true) table.

Definition set_active (b : bool) (d : ModelDeployment) : ModelDeployment :=
  {| d_model_name := d_model_name d; d_version := d_version d;
     d_accuracy := d_accuracy d; d_endpoint_url := d_endpoint_url d;
     d_deployed_at := d_deployed_at d; d_is_active := b;
     d_pipeline_id := d_pipeline_id d |}.

(** The body of the load request of a rollback: the run identifier is the
    [pipeline_id] of the deployment, or the empty text. *)
Definition reload_request (deployment : ModelDeployment) (version : string)
    : ModelServer.LoadModelRequest :=
  {| ModelServer.req_mlflow_run_id :=
       match d_pipeline_id deployment with
       | Some p => p
       | None => ""
       end;
     ModelServer.req_version := version |}.

(** The table a rollback commits: the active rows of the model switched
    off, then the target row, the [i]-th, switched on. *)
Definition rolled_back (model_name : string) (i : nat) (table : list ModelDeployment)
    : list ModelDeployment :=
  alter (set_active true) i (map (deactivate model_name) table).

(** [rollback_model] *)
Definition rollback_model (env : ModelsEnv) (model_name version : string)
    (table : list ModelDeployment)
    : (exn + MessageResponse) * list ModelDeployment :=
  if negb (db_ok env 0) then (inl (db_error "select"), table)
  else
    match list_find (fun d => d_model_name d = model_name /\ d_version d = version)
            table with
    | None =>
        (inl (HTTPException 404
                ("No deployment found for " +:+ model_name +:+ " version "
                 +:+ version +:+ ".")),
         table)
    | Some (i, deployment) =>
        match load env model_name (reload_request deployment version) with
        | Some msg =>
            (inl (HTTPException 502 ("Failed to reload model: " +:+ msg)), table)
        | None =>
            if negb (db_ok env 1) then (inl (db_error "select"), table)
            else if negb (db_ok env 2) then (inl (db_error "commit"), table)
            else
              (inr {| message := "Rolled back " +:+ model_name +:+ " to version "
                                 +:+ version +:+ "." |},
               rolled_back model_name i table)
        end
    end.

(** [delete_model]: a failure of the model server is logged and ignored. *)
Definition delete_model (env : ModelsEnv) (model_name : string)
    (table : list ModelDeployment)
    : (exn + MessageResponse) * list ModelDeployment :=
  match unload env model_name with
  | Some _ | None =>
      if negb (db_ok env 0) then (inl (db_error "select"), table)
      else if negb (db_ok env 1) then (inl (db_error "commit"), table)
      else
        (inr {| message := "Model " +:+ model_name +:+ " unregistered." |},
         map (deactivate model_name) table)
  end.

(** *** What is said of the table *)

(** At most one row of each model is active. *)
Definition one_active_per_model (table : list ModelDeployment) : Prop :=
  forall name, length (EngineSpec.active_for name table) <= 1.

(** The tables that the deploy phase of the task, rollbacks and deletions
    make out of the empty table. *)
Inductive reachable_table : list ModelDeployment -> Prop :=
| table_empty : reachable_table []
| table_promote new table :
    d_is_active new = true ->
    reachable_table table -> reachable_table (promote new table)
| table_rollback env model_name version table :
    reachable_table table ->
    reachable_table (rollback_model env model_name version table).2
| table_delete env model_name table :
    reachable_table table ->
    reachable_table (delete_model env model_name table).2.

End ModelsRouter.

(** ** backend/routers/repos.py *)

Module ReposRouter.
Import GitHub App WebhookRouter.

(** What is outside the handlers: the token of the settings, the GitHub API
    ([http_delete owner repo hook] is [None] when the hook is deleted, and
    otherwise the message of the exception of [httpx]), and the database. *)
Record ReposEnv : Type := {
  github_token : string;
  http_delete : string -> string -> Z -> option string;
  db_ok : nat -> bool
}.

Record MessageResponse : Type := { message : string }.

(** [delete_webhook] of core/github.py *)
Definition delete_webhook (env : ReposEnv) (repo_url : string) (webhook_id : Z)
    : Py.exn + unit :=
  match parse_repo_url repo_url with
  | inl e => inl e
  | inr (owner, repo) =>
      match http_delete env owner repo webhook_id with
      | Some msg => inl (Py.ExternalError msg)
      | None => inr tt
      end
  end.

Definition set_repositories (l : list Repository) (st : AppState) : AppState :=
  {| repositories := l; pipelines := pipelines st; queue := queue st |}.

(** [list_repos] *)
Definition list_repos (st : AppState) : list Repository := repositories st.

(** [delete_repo], for an identifier that is not negative.  The hook is
    deleted when the row has a hook identifier other than zero, and whatever
    that raises is logged and ignored.  The table of runs has no cascade on
    its reference to the repository: the deletion leaves the runs alone, and
    a database that refuses it makes the commit fail. *)
Definition delete_repo (env : ReposEnv) (repo_id : nat) (st : AppState)
    : (exn + MessageResponse) * AppState :=
  if negb (db_ok env 0) then (inl (db_error "select"), st)
  else
    match list_find (fun r => r_id r = repo_id) (repositories st) with
    | None =>
        (inl (HTTPException 404
                ("Repository " +:+ pretty repo_id +:+ " not found.")),
         st)
    | Some (_, repo) =>
        let attempt :=
          match r_webhook_id repo with
          | Some webhook_id =>
              if bool_decide (webhook_id = 0%Z) then inr tt
              else delete_webhook env (r_github_url repo) webhook_id
          | None => inr tt
          end in
        match attempt with
        | inl _ | inr _ =>
            if negb (db_ok env 1) then (inl (db_error "commit"), st)
            else
              (inr {| message := "Repository " +:+ pretty repo_id +:+ " deleted." |},
               set_repositories
                 (filter (fun r => r_id r <> repo_id) (repositories st)) st)
        end
    end.

End ReposRouter.

(** ** backend/routers/pipelines.py *)

Module PipelinesRouter.
Import Engine.

(** The handlers read the table of runs and the Redis list that the task
    writes: their state is the state of the task. *)

(** The query parameters as declared: [page >= 1], [1 <= size <= 100].  A
    request outside these bounds is answered 422 by the framework and the
    handler is not called. *)
Definition valid_query (page size : Z) : bool :=
  (1 <=? page)%Z && (1 <=? size)%Z && (size <=? 100)%Z.

Record PipelineListResponse : Type := {
  items : list Pipeline;
  total : nat;
  page : Z;
  size : Z
}.

(** The largest integer the database takes as a parameter: a signed
    64-bit integer. *)
Definition INT64_MAX : Z := 9223372036854775807.

(** [list_pipelines].  [rows] is what the database returns for the
    selection of all runs ordered by [started_at], newest first; [OFFSET]
    and [LIMIT] cut the page out of it.  [db_ok k] tells whether the [k]-th
    statement of the request goes through: the count, then the selection.
    [page] has no upper bound, and an [OFFSET] that does not fit in 64 bits
    makes the driver raise when it binds the parameter ([OverflowError] with
    this message for SQLite; no handler tells the classes apart). *)
Definition list_pipelines (db_ok : nat -> bool) (page size : Z) (rows : list Pipeline)
    : option (App.exn + PipelineListResponse) :=
  if valid_query page size then
    Some
      (if negb (db_ok 0) then inl (App.db_error "select")
       else
         let total := length rows in
         let offset := ((page - 1) * size)%Z in
         if (INT64_MAX <? offset)%Z then
           inl (App.Unhandled "OverflowError"
                  "Python int too large to convert to SQLite INTEGER")
         else if negb (db_ok 1) then inl (App.db_error "select")
         else
           inr {| items := take (Z.to_nat size) (drop (Z.to_nat offset) rows);
                  total := total; page := page; size := size |})
  else None.

(** The items of the page [p], nothing for a request that is refused or
    fails. *)
Definition page_items (db_ok : nat -> bool) (size : Z) (rows : list Pipeline)
    (p : nat) : list Pipeline :=
  match list_pipelines db_ok (Z.of_nat p) size rows with
  | Some (inr resp) => items resp
  | _ => []
  end.

Definition HTTP_404_NOT_FOUND : nat := 404.

(** [get_pipeline] *)
Definition get_pipeline (pipeline_id : string) (s : State) : Py.exn + Pipeline :=
  match pipelines s !! pipeline_id with
  | None =>
      inl (Py.HTTPException HTTP_404_NOT_FOUND
             ("Pipeline " +:+ pipeline_id +:+ " not found."))
  | Some pipeline => inr pipeline
  end.

Record PipelineLogsResponse : Type := {
  logs_pipeline_id : string;
  logs : list Event
}.

(** [get_pipeline_logs].  The entries of the list are the payloads
    [_publish_phase] serialised; [lrange] of a key that does not exist is
    the empty list.  [redis_up] tells whether Redis answers. *)
Definition get_pipeline_logs (redis_up : bool) (pipeline_id : string) (s : State)
    : Py.exn + PipelineLogsResponse :=
  match pipelines s !! pipeline_id with
  | None =>
      inl (Py.HTTPException HTTP_404_NOT_FOUND
             ("Pipeline " +:+ pipeline_id +:+ " not found."))
  | Some _ =>
      if redis_up then
        inr {| logs_pipeline_id := pipeline_id;
               logs := default [] (redis_lists s !! phases_key pipeline_id) |}
      else inl (Py.ExternalError redis_error)
  end.

(** *** The WebSocket endpoint *)

(** What a message of the channel carries: the JSON text of a payload, or a
    text that is not a JSON object. *)
Inductive frame : Type :=
| Payload (ev : Event)
| Raw (text : string).

(** One turn of the loop: [get_message] times out, returns a message, or
    raises because Redis is gone. *)
Inductive poll : Type :=
| Timeout
| Message (data : frame)
| RedisGone.

(** How the handler leaves its loop: by [break] after a payload of the
    phase complete, because the client went away ([WebSocketDisconnect]),
    because of another exception, or not at all within the turns given. *)
Inductive ws_end : Type :=
| WsComplete
| WsDisconnected
| WsError
| WsListening.

(** The loop of [ws_pipeline_logs] over the turns [polls]; [connected k]
    tells whether the client is still there at the [k]-th [send_text].  The
    result is what was sent to the client, and how the loop was left. *)
Fixpoint ws_loop (connected : nat -> bool) (k : nat) (polls : list poll)
    : list frame * ws_end :=
  match polls with
  | [] => ([], WsListening)
  | Timeout :: rest => ws_loop connected k rest
  | RedisGone :: _ => ([], WsError)
  | Message data :: rest =>
      if connected k then
        match data with
        | Raw _ => ([data], WsError)
        | Payload ev =>
            if String.eqb (ev_phase ev) "complete" then ([data], WsComplete)
            else
              let '(sent, e) := ws_loop connected (S k) rest in
              (data :: sent, e)
        end
      else ([], WsDisconnected)
  end.

(** The messages a subscriber of the channel of [pipeline_id] gets out of
    what was published. *)
Definition deliveries (pipeline_id : string) (l : list (string * Event)) : list frame :=
  map (fun x => Payload x.2)
    (filter (fun x => x.1 = logs_channel pipeline_id) l).

Definition ws_pipeline_logs (connected : nat -> bool) (polls : list poll)
    : list frame * ws_end :=
  ws_loop connected 0 polls.

(** The messages among the turns. *)
Definition messages (polls : list poll) : list frame :=
  omap (fun p => match p with Message d => Some d | _ => None end) polls.

(** The payloads of the phase complete. *)
Definition is_complete (d : frame) : bool :=
  match d with
  | Payload ev => String.eqb (ev_phase ev) "complete"
  | Raw _ => false
  end.

(** A payload of another phase. *)
Definition running_payload (d : frame) : Prop :=
  exists ev, d = Payload ev /\ ev_phase ev <> "complete".

End PipelinesRouter.

(** ** Sample notebooks, worlds and states *)

Module Samples.
Import NotebookParser Engine.

Definition code_cell (tags : list string) (src : string) : cell :=
  {| cell_metadata := Some {| md_tags := Some tags |};
     cell_source := Some (SourceLines [src]) |}.

Definition nb_config_only : notebook :=
  {| nb_cells := Some [ code_cell ["mlops:config"] "MODEL_NAME = 'test'" ] |}.

Definition nb_version_only : notebook :=
  {| nb_cells := Some [ code_cell ["mlops:training"] "x = 1";
                        code_cell ["mlops:config"] "VERSION = '3'" ] |}.

(** The text of the bytes with these codes. *)
Definition bytes (codes : list nat) : string :=
  string_of_list_ascii (map ascii_of_nat codes).

(** A configuration written with wide white space: an em space (U+2003)
    before the equals sign, a no-break space (U+00A0) and an ideographic
    space (U+3000) after it. *)
Definition nb_wide_spaces : notebook :=
  {| nb_cells := Some
       [ code_cell ["mlops:config"]
           ("MODEL_NAME" +:+ bytes [226; 128; 131] +:+ "="
            +:+ bytes [194; 160; 227; 128; 128] +:+ "'em'") ] |}.

(** A notebook with the four required sections. *)
Definition nb_full : notebook :=
  {| nb_cells := Some
       [ code_cell ["mlops:config"] "MODEL_NAME = 'iris-classifier'";
         code_cell ["mlops:preprocessing"] "X = load()";
         code_cell ["mlops:training"] "fit(X)";
         code_cell ["mlops:export"] "dump()" ] |}.

(** The same notebook without its training section. *)
Definition nb_no_training : notebook :=
  {| nb_cells := Some
       [ code_cell ["mlops:config"] "MODEL_NAME = 'iris-classifier'";
         code_cell ["mlops:preprocessing"] "X = load()";
         code_cell ["mlops:export"] "dump()" ] |}.

Definition queued_row : Pipeline :=
  {| p_status := "queued"; p_phases := []; p_metrics := ∅;
     p_started_at := None; p_finished_at := None |}.

Definition old_deployment : ModelDeployment :=
  {| d_model_name := "iris-classifier"; d_version := "0"; d_accuracy := 8 # 10;
     d_endpoint_url := "http://model-server:8001/predict/iris-classifier";
     d_deployed_at := 0; d_is_active := true; d_pipeline_id := Some "p0" |}.

(** The run [p1] is queued; an earlier run deployed the same model. *)
Definition s0 : State :=
  {| phases := []; metrics := ∅; deployed := false;
     pipelines := {[ "p1" := queued_row ]};
     model_deployments := [old_deployment];
     published := []; redis_lists := ∅; redis_expiry := ∅;
     clock := 1; redis_calls := 0; db_calls := 0 |}.

(** The row that a run of the sample notebook with accuracy 0.95 inserts
    when it starts from [s0]. *)
Definition deployment_of (pipeline_id : string) : ModelDeployment :=
  {| d_model_name := "iris-classifier"; d_version := "1"; d_accuracy := 95 # 100;
     d_endpoint_url := "http://model-server:8001/predict/iris-classifier";
     d_deployed_at := 20; d_is_active := true; d_pipeline_id := Some pipeline_id |}.

Definition default_settings : Settings :=
  {| auto_deploy_on_success := true; min_accuracy_threshold := 7 # 10;
     model_server_url := "http://model-server:8001" |}.

(** Every collaborator answers; the notebook reaches accuracy 0.95. *)
Definition w_ok : World :=
  {| settings := default_settings;
     redis_ok := fun _ => true; db_ok := fun _ => true;
     shutting_down := fun _ => false;
     download_notebook := inr nb_full;
     execute_notebook := inr "[]";
     mlflow_register := inr (Some {[ "accuracy" := 95 # 100 ]}, "run-1");
     model_server_load := None;
     deployment_commit := None |}.

Definition with_redis (f : nat -> bool) (w : World) : World :=
  {| settings := settings w; redis_ok := f; db_ok := db_ok w;
     shutting_down := shutting_down w;
     download_notebook := download_notebook w;
     execute_notebook := execute_notebook w;
     mlflow_register := mlflow_register w;
     model_server_load := model_server_load w;
     deployment_commit := deployment_commit w |}.

Definition with_shutdown (f : nat -> bool) (w : World) : World :=
  {| settings := settings w; redis_ok := redis_ok w; db_ok := db_ok w;
     shutting_down := f;
     download_notebook := download_notebook w;
     execute_notebook := execute_notebook w;
     mlflow_register := mlflow_register w;
     model_server_load := model_server_load w;
     deployment_commit := deployment_commit w |}.

Definition with_download (d : string + notebook) (w : World) : World :=
  {| settings := settings w; redis_ok := redis_ok w; db_ok := db_ok w;
     shutting_down := shutting_down w;
     download_notebook := d;
     execute_notebook := execute_notebook w;
     mlflow_register := mlflow_register w;
     model_server_load := model_server_load w;
     deployment_commit := deployment_commit w |}.

Definition with_register (r : string + (option (gmap string Q) * string)) (w : World)
    : World :=
  {| settings := settings w; redis_ok := redis_ok w; db_ok := db_ok w;
     shutting_down := shutting_down w;
     download_notebook := download_notebook w;
     execute_notebook := execute_notebook w;
     mlflow_register := r;
     model_server_load := model_server_load w;
     deployment_commit := deployment_commit w |}.

Definition with_load (l : option string) (w : World) : World :=
  {| settings := settings w; redis_ok := redis_ok w; db_ok := db_ok w;
     shutting_down := shutting_down w;
     download_notebook := download_notebook w;
     execute_notebook := execute_notebook w;
     mlflow_register := mlflow_register w;
     model_server_load := l;
     deployment_commit := deployment_commit w |}.

Definition with_db (f : nat -> bool) (w : World) : World :=
  {| settings := settings w; redis_ok := redis_ok w; db_ok := f;
     shutting_down := shutting_down w;
     download_notebook := download_notebook w;
     execute_notebook := execute_notebook w;
     mlflow_register := mlflow_register w;
     model_server_load := model_server_load w;
     deployment_commit := deployment_commit w |}.

Definition with_commit (c : option string) (w : World) : World :=
  {| settings := settings w; redis_ok := redis_ok w; db_ok := db_ok w;
     shutting_down := shutting_down w;
     download_notebook := download_notebook w;
     execute_notebook := execute_notebook w;
     mlflow_register := mlflow_register w;
     model_server_load := model_server_load w;
     deployment_commit := c |}.

(** The download answers 404; Redis serves the first transition and is
    down from then on. *)
Definition w_handler_fails : World :=
  with_redis (fun n => (n <? 3)%nat) (with_download (inl "404 Not Found") w_ok).

(** The worker is told to shut down while the notebook downloads. *)
Definition w_shutdown : World := with_shutdown (fun _ => true) w_ok.

(** The download answers 404 on a healthy infrastructure. *)
Definition w_not_found : World := with_download (inl "404 Not Found") w_ok.

(** The notebook lacks its training section. *)
Definition w_no_training : World := with_download (inr nb_no_training) w_ok.

(** Accuracy 0.5 against the threshold 0.7. *)
Definition w_low_accuracy : World :=
  with_register (inr (Some {[ "accuracy" := 1 # 2 ]}, "run-1")) w_ok.

(** The model server refuses the load call. *)
Definition w_load_refused : World := with_load (Some "503 Service Unavailable") w_ok.

(** The database goes down once the deploy phase is entered: it served the
    ten transactions on the row of the run up to the entry deploy running,
    and refuses the write of the deployment row and everything after it. *)
Definition w_store_lost_in_deploy : World :=
  with_db (fun n => (n <? 10)%nat)
    (with_commit (Some "sqlalchemy.exc.OperationalError") w_ok).

(** One publish, the first of the run, is lost. *)
Definition w_one_publish_lost : World :=
  with_redis (fun n => negb (n =? 0)%nat) w_ok.

(** Redis is down for the whole run. *)
Definition w_redis_down : World := with_redis (fun _ => false) w_ok.

(** A model that answers class 0 for every row, loaded under its name. *)
Definition constant_model : ModelServer.Model :=
  {| ModelServer.model_predict :=
       fun rows => inr (ModelServer.NdArray (map (fun _ => 0%Q) rows)) |}.

Definition iris_entry : ModelServer._ModelEntry :=
  {| ModelServer.model := constant_model;
     ModelServer.model_name := "iris-classifier";
     ModelServer.version := "1";
     ModelServer.mlflow_run_id := "run-1";
     ModelServer.loaded_at := 3;
     ModelServer.request_count := 7 |}.

Definition server_with_iris : ModelServer.ServerState :=
  {| ModelServer._models := {[ "iris-classifier" := iris_entry ]};
     ModelServer.clock := 4 |}.

(** MLflow is down. *)
Definition env_mlflow_down : ModelServer.Env :=
  {| ModelServer.download_artifacts := fun _ => inl "MLflow down";
     ModelServer.is_dir := fun _ => false;
     ModelServer.iterdir := fun _ => [];
     ModelServer.joblib_load := fun _ => inl "no such file" |}.

End Samples.

(** ** More samples *)

Module MoreSamples.
Import NotebookParser Engine Samples.

Definition failed_row : Pipeline :=
  {| p_status := "failed"; p_phases := []; p_metrics := ∅;
     p_started_at := Some 1; p_finished_at := Some 2 |}.

(** The sections of [nb_full] in another order, one of them twice, with a
    tag of no meaning and a cell without metadata. *)
Definition nb_shuffled : notebook :=
  {| nb_cells := Some
       [ code_cell ["mlops:export"] "dump()";
         code_cell ["notes"; "mlops:training"] "fit(X)";
         {| cell_metadata := None; cell_source := Some (SourceStr "print(1)") |};
         code_cell ["mlops:training"] "fit(X2)";
         code_cell ["mlops:preprocessing"] "X = load()";
         code_cell ["mlops:config"] "VERSION = '7'" ] |}.

(** The artifact store holds, for every run, a directory with a descriptor
    and a model file, listed in that order; only the model file can be
    deserialised. *)
Definition env_artifact_dir : ModelServer.Env :=
  {| ModelServer.download_artifacts := fun _ => inr "/app/models/model";
     ModelServer.is_dir := fun p => String.eqb p "/app/models/model";
     ModelServer.iterdir := fun _ => [ "/app/models/model/MLmodel";
                                       "/app/models/model/model.joblib" ];
     ModelServer.joblib_load := fun p =>
       if String.eqb p "/app/models/model/model.joblib"
       then inr constant_model else inl "invalid file" |}.

(** A model that raises on an empty batch and answers a batch of one row
    with a bare number, which cannot be turned into a list. *)
Definition moody_model : ModelServer.Model :=
  {| ModelServer.model_predict := fun rows =>
       match rows with
       | [] => inl "empty batch"
       | [_] => inr (ModelServer.Scalar 1%Q)
       | _ => inr (ModelServer.Iterable (map (fun _ => 1%Q) rows))
       end |}.

Definition moody_entry : ModelServer._ModelEntry :=
  {| ModelServer.model := moody_model;
     ModelServer.model_name := "moody";
     ModelServer.version := "3";
     ModelServer.mlflow_run_id := "run-3";
     ModelServer.loaded_at := 5;
     ModelServer.request_count := 0 |}.

Definition server_with_two : ModelServer.ServerState :=
  {| ModelServer._models :=
       <[ "moody" := moody_entry ]> {[ "iris-classifier" := iris_entry ]};
     ModelServer.clock := 6 |}.

End MoreSamples.

(** ** Sample requests *)

Module AppSamples.

(** A registered repository and a push to it. *)

Definition sample_repo : App.Repository :=
  {| App.r_id := 1;
     App.r_github_url := "https://github.com/user/repo";
     App.r_github_token_masked := "****cdef";
     App.r_branch := "main";
     App.r_notebook_path := "notebooks/train.ipynb";
     App.r_webhook_id := Some 12345%Z;
     App.r_webhook_url := Some "http://localhost:8000/webhook/github";
     App.r_created_at := 0;
     App.r_is_active := true |}.

Definition app0 : WebhookRouter.AppState :=
  {| WebhookRouter.repositories := [sample_repo];
     WebhookRouter.pipelines := [];
     WebhookRouter.queue := [] |}.

Definition sample_push : WebhookRouter.Push :=
  {| WebhookRouter.html_url := Some "https://github.com/user/repo";
     WebhookRouter.ref := Some "refs/heads/main";
     WebhookRouter.after := Some "abc123";
     WebhookRouter.commits :=
       Some [ {| WebhookRouter.added := Some ["notebooks/train.ipynb"];
                 WebhookRouter.modified := None |} ] |}.

(** A stand-in for the HMAC of the library: any function will do where
    only the comparison with the header matters. *)
Definition toy_hexdigest (secret payload : string) : string := "0f".

Definition env_celery : WebhookRouter.WebEnv :=
  {| WebhookRouter.hexdigest := toy_hexdigest;
     WebhookRouter.github_webhook_secret := "test-secret";
     WebhookRouter.runner_backend := App.celery;
     WebhookRouter.new_uuid := "6f1c";
     WebhookRouter.db_ok := fun _ => true;
     WebhookRouter.broker := None |}.

Definition env_kubernetes : WebhookRouter.WebEnv :=
  {| WebhookRouter.hexdigest := toy_hexdigest;
     WebhookRouter.github_webhook_secret := "test-secret";
     WebhookRouter.runner_backend := App.kubernetes;
     WebhookRouter.new_uuid := "6f1c";
     WebhookRouter.db_ok := fun _ => true;
     WebhookRouter.broker := None |}.

Definition signed_push : WebhookRouter.Request :=
  {| WebhookRouter.body := "{...}";
     WebhookRouter.json := inr sample_push;
     WebhookRouter.x_hub_signature_256 := "sha256=0f";
     WebhookRouter.x_github_event := "push" |}.

Definition forged_push : WebhookRouter.Request :=
  {| WebhookRouter.body := "{...}";
     WebhookRouter.json := inr sample_push;
     WebhookRouter.x_hub_signature_256 := "sha256=invalidsignature";
     WebhookRouter.x_github_event := "push" |}.

(** Two deployments of one model: version 0, then version 1, which is the
    active one. *)
Definition deployment_v (version : string) (pipeline_id : string)
    : Engine.ModelDeployment :=
  {| Engine.d_model_name := "iris-classifier"; Engine.d_version := version;
     Engine.d_accuracy := 9 # 10;
     Engine.d_endpoint_url := "http://model-server:8001/predict/iris-classifier";
     Engine.d_deployed_at := 0; Engine.d_is_active := true;
     Engine.d_pipeline_id := Some pipeline_id |}.

Definition two_deployments : list Engine.ModelDeployment :=
  Engine.promote (deployment_v "1" "p1") (Engine.promote (deployment_v "0" "p0") []).

(** The model server and the database answer. *)
Definition models_env : ModelsRouter.ModelsEnv :=
  {| ModelsRouter.load := fun _ _ => None;
     ModelsRouter.unload := fun _ => None;
     ModelsRouter.db_ok := fun _ => true |}.

(** The model server cannot be reached. *)
Definition models_env_down : ModelsRouter.ModelsEnv :=
  {| ModelsRouter.load := fun _ _ => Some "All connection attempts failed";
     ModelsRouter.unload := fun _ => Some "All connection attempts failed";
     ModelsRouter.db_ok := fun _ => true |}.

(** GitHub refuses every call. *)
Definition repos_env_github_down : ReposRouter.ReposEnv :=
  {| ReposRouter.github_token := "ghp_test";
     ReposRouter.http_delete := fun _ _ _ => Some "403 Forbidden";
     ReposRouter.db_ok := fun _ => true |}.

End AppSamples.

(* ===================================================================== *)
(** * Part II: properties                                                 *)
(* ===================================================================== *)

Module ParserFacts.
Import NotebookParser Samples.

Example validate_sample :
  validate_required_tags
    {| nb_cells := Some [ code_cell ["mlops:config"] "MODEL_NAME = 'test'" ] |}
  = inl (Py.ValueError
      ("Notebook is missing required MLOps tags: "
       +:+ "mlops:preprocessing, mlops:training, mlops:export. "
       +:+ "Each cell must have metadata.tags containing the appropriate "
       +:+ "mlops:* tag. Required tags: "
       +:+ "mlops:config, mlops:preprocessing, mlops:training, mlops:export")).
Proof. vm_compute. reflexivity. Qed.

Example extract_sample :
  extract_config
    {| nb_cells := Some [ code_cell ["mlops:config"] "MODEL_NAME = 'test'" ] |}
  = inr {| model_name := "test"; version := "1" |}.
Proof. vm_compute. reflexivity. Qed.

(** **** The pieces of the matcher *)

Lemma strip_prefix_Some p s r : strip_prefix p s = Some r <-> s = p ++ r.
Proof.
  revert s; induction p as [|a p IH]; intros [|b s]; simpl.
  - split; congruence.
  - split; congruence.
  - split; [discriminate | intros H; discriminate H].
  - destruct (Ascii.eqb_spec a b) as [->|Hab].
    + rewrite IH. split; congruence.
    + split; [discriminate | intros H; congruence].
Qed.

Lemma is_quote_not_space q : is_quote q = true -> space_lead q = false.
Proof.
  unfold is_quote. intros H. apply orb_prop in H.
  destruct H as [H|H]; apply Ascii.eqb_eq in H; subst; reflexivity.
Qed.

Lemma is_space2_lead a b :
  is_space2 a b = true -> nat_of_ascii a = 194 /\ is_space1 a = false.
Proof.
  unfold is_space2, is_space1. intros H. apply andb_prop in H as [H _].
  apply Nat.eqb_eq in H. rewrite H. split; reflexivity.
Qed.

Lemma is_space3_lead a b c :
  is_space3 a b c = true -> is_space1 a = false /\ is_space2 a b = false.
Proof.
  unfold is_space3, is_space2, is_space1. intros H.
  repeat (apply orb_prop in H as [H|H]);
    apply andb_prop in H as [H _]; apply Nat.eqb_eq in H; rewrite H;
    split; reflexivity.
Qed.

Lemma space_lead_false a :
  space_lead a = false ->
  is_space1 a = false /\ (forall b, is_space2 a b = false)
  /\ (forall b c, is_space3 a b c = false).
Proof.
  unfold space_lead. intros H.
  apply orb_false_elim in H as [H H227].
  apply orb_false_elim in H as [H H226].
  apply orb_false_elim in H as [H H225].
  apply orb_false_elim in H as [H H194].
  split; [exact H|]. split.
  - intros b. unfold is_space2. now rewrite H194.
  - intros b c. unfold is_space3. now rewrite H225, H226, H227.
Qed.

Lemma spaces_nil : spaces [].
Proof. exists []. split; [constructor | reflexivity]. Qed.

Lemma spaces_cons e ws : space_char e = true -> spaces ws -> spaces (e ++ ws).
Proof.
  intros He (l & Hl & ->). exists (e :: l). split; [now constructor | reflexivity].
Qed.

(** A white-space character at the head of the text is passed over. *)
Lemma skip_spaces_char e r :
  space_char e = true -> skip_spaces (e ++ r) = skip_spaces r.
Proof.
  destruct e as [|a [|b [|c [|d e]]]]; try discriminate; cbn [space_char app].
  - intros H. cbn [skip_spaces]. now rewrite H.
  - intros H. destruct (is_space2_lead a b H) as [_ H1].
    cbn [skip_spaces]. now rewrite H1, H.
  - intros H. destruct (is_space3_lead a b c H) as [H1 H2].
    cbn [skip_spaces]. now rewrite H1, H2, H.
Qed.

(** The run stops at a byte that starts no white-space character. *)
Lemma skip_spaces_stop r :
  match r with [] => True | a :: _ => space_lead a = false end ->
  skip_spaces r = r.
Proof.
  destruct r as [|a r]; [reflexivity|]. intros H.
  destruct (space_lead_false a H) as (H1 & H2 & H3).
  cbn [skip_spaces]. rewrite H1.
  destruct r as [|b r]; [reflexivity|]. rewrite H2.
  destruct r as [|c r]; [reflexivity|]. now rewrite H3.
Qed.

Lemma skip_spaces_app ws r :
  spaces ws ->
  match r with [] => True | a :: _ => space_lead a = false end ->
  skip_spaces (ws ++ r) = r.
Proof.
  intros (l & Hl & ->) Hr. induction Hl as [|e l He _ IH]; cbn [concat].
  - now apply skip_spaces_stop.
  - rewrite <- app_assoc, skip_spaces_char by exact He. exact IH.
Qed.

Lemma skip_spaces_inv s :
  exists ws, s = ws ++ skip_spaces s /\ spaces ws.
Proof.
  assert (H : forall n s, length s <= n ->
                exists ws, s = ws ++ skip_spaces s /\ spaces ws).
  { clear s. induction n as [|n IH]; intros s Hn.
    - destruct s; [|simpl in Hn; lia].
      exists []. split; [reflexivity | apply spaces_nil].
    - destruct s as [|a s1]; [exists []; split; [reflexivity | apply spaces_nil]|].
      cbn [skip_spaces]. destruct (is_space1 a) eqn:H1.
      { destruct (IH s1) as (ws & Hs & Hws); [simpl in Hn; lia|].
        exists ([a] ++ ws). split; [simpl; congruence|].
        apply spaces_cons; [exact H1 | exact Hws]. }
      destruct s1 as [|b s2];
        [exists []; split; [reflexivity | apply spaces_nil]|].
      destruct (is_space2 a b) eqn:H2.
      { destruct (IH s2) as (ws & Hs & Hws); [simpl in Hn; lia|].
        exists ([a; b] ++ ws). split; [simpl; congruence|].
        apply spaces_cons; [exact H2 | exact Hws]. }
      destruct s2 as [|c s3];
        [exists []; split; [reflexivity | apply spaces_nil]|].
      destruct (is_space3 a b c) eqn:H3.
      { destruct (IH s3) as (ws & Hs & Hws); [simpl in Hn; lia|].
        exists ([a; b; c] ++ ws). split; [simpl; congruence|].
        apply spaces_cons; [exact H3 | exact Hws]. }
      exists []. split; [reflexivity | apply spaces_nil]. }
  apply (H (length s)). lia.
Qed.

Lemma span_value_app v q rest :
  Forall (fun a => is_quote a = false) v -> is_quote q = true ->
  span_value (v ++ q :: rest) = (v, q :: rest).
Proof.
  intros Hv Hq. induction Hv as [|a v Ha _ IH]; simpl.
  - now rewrite Hq.
  - now rewrite Ha, IH.
Qed.

Lemma span_value_inv s v r :
  span_value s = (v, r) ->
  s = v ++ r /\ Forall (fun a => is_quote a = false) v
  /\ match r with [] => True | q :: _ => is_quote q = true end.
Proof.
  revert v r; induction s as [|a s IH]; intros v r; simpl.
  - intros [= <- <-]. repeat split; constructor.
  - destruct (is_quote a) eqn:Ha.
    + intros [= <- <-]. repeat split; [constructor | assumption].
    + destruct (span_value s) as [v' r'] eqn:Hs. intros [= <- <-].
      destruct (IH v' r' eq_refl) as (-> & Hv & Hr).
      repeat split; [constructor; assumption | assumption].
Qed.

(** The anchored matcher accepts exactly the declarations that start at the
    beginning of the text. *)
Lemma match_assign_iff key s v :
  match_assign key s = Some v <-> assign_at key s [] v.
Proof.
  unfold match_assign, assign_at. split.
  - destruct (strip_prefix key s) as [r1|] eqn:Hp; [|discriminate].
    apply strip_prefix_Some in Hp. subst s.
    destruct (skip_spaces_inv r1) as (ws1 & Hr1 & Hws1).
    destruct (skip_spaces r1) as [|e r2]; [discriminate|].
    destruct (Ascii.eqb_spec e equals) as [->|]; [|discriminate].
    destruct (skip_spaces_inv r2) as (ws2 & Hr2 & Hws2).
    destruct (skip_spaces r2) as [|q r3]; [discriminate|].
    destruct (is_quote q) eqn:Hq; [|discriminate].
    destruct (span_value r3) as [v' r4] eqn:Hs.
    apply span_value_inv in Hs. destruct Hs as (Hr3 & Hv & Hr4).
    destruct v' as [|a v']; [discriminate|].
    destruct r4 as [|q2 rest]; [discriminate|].
    intros [= <-].
    exists ws1, ws2, q, q2, rest. simpl.
    repeat split; try assumption; [|discriminate].
    rewrite Hr1 at 1. rewrite Hr2 at 1. rewrite Hr3. reflexivity.
  - intros (ws1 & ws2 & q1 & q2 & rest & Hs & Hws1 & Hws2 & Hq1 & Hq2 & Hne & Hv).
    simpl in Hs. subst s.
    assert (Hp : strip_prefix key
                   (key ++ ws1 ++ equals :: ws2 ++ q1 :: v ++ q2 :: rest)
                 = Some (ws1 ++ equals :: ws2 ++ q1 :: v ++ q2 :: rest))
      by now apply strip_prefix_Some.
    rewrite Hp.
    rewrite (skip_spaces_app ws1) by (assumption || reflexivity).
    rewrite Ascii.eqb_refl.
    rewrite (skip_spaces_app ws2) by (assumption || now apply is_quote_not_space).
    rewrite Hq1, (span_value_app v q2 rest) by assumption.
    destruct v; [congruence | reflexivity].
Qed.

Lemma assign_at_cons key a s pre v :
  assign_at key (a :: s) (a :: pre) v <-> assign_at key s pre v.
Proof.
  unfold assign_at. split;
    intros (ws1 & ws2 & q1 & q2 & rest & Hs & H);
    exists ws1, ws2, q1, q2, rest; (split; [|exact H]); simpl in *; congruence.
Qed.

Lemma assign_at_head key a s b pre v :
  assign_at key (a :: s) (b :: pre) v -> b = a.
Proof.
  intros (ws1 & ws2 & q1 & q2 & rest & Hs & _). simpl in Hs. congruence.
Qed.

Lemma assign_at_nil_pre key pre v : assign_at key [] pre v -> pre = [].
Proof.
  intros (ws1 & ws2 & q1 & q2 & rest & Hs & _).
  destruct pre; [reflexivity | discriminate Hs].
Qed.

(** [re.search] finds nothing exactly when the text holds no declaration. *)
Lemma re_search_None key s :
  re_search key s = None <-> forall pre v, ~ assign_at key s pre v.
Proof.
  induction s as [|a s IH]; simpl.
  - destruct (match_assign key []) as [v|] eqn:Hm.
    + split; [discriminate|]. intros H. apply match_assign_iff in Hm.
      now apply H in Hm.
    + split; [|reflexivity]. intros _ pre v H.
      pose proof (assign_at_nil_pre _ _ _ H) as ->.
      apply match_assign_iff in H. congruence.
  - destruct (match_assign key (a :: s)) as [v|] eqn:Hm.
    + split; [discriminate|]. intros H. apply match_assign_iff in Hm.
      now apply H in Hm.
    + rewrite IH. split.
      * intros H [|b pre] v Hat.
        -- apply match_assign_iff in Hat. congruence.
        -- pose proof (assign_at_head _ _ _ _ _ _ Hat) as ->.
           apply assign_at_cons in Hat. now apply H in Hat.
      * intros H pre v Hat. apply (H (a :: pre) v). now apply assign_at_cons.
Qed.

(** [re.search] returns the value of the declaration that starts first. *)
Lemma re_search_Some key s v :
  re_search key s = Some v -> exists pre, first_assign key s pre v.
Proof.
  induction s as [|a s IH]; simpl.
  - destruct (match_assign key []) as [v'|] eqn:Hm; [|discriminate].
    intros [= ->]. exists []. split; [now apply match_assign_iff|].
    intros; simpl; lia.
  - destruct (match_assign key (a :: s)) as [v'|] eqn:Hm.
    + intros [= ->]. exists []. split; [now apply match_assign_iff|].
      intros; simpl; lia.
    + intros Hs. destruct (IH Hs) as (pre & Hat & Hmin).
      exists (a :: pre). split; [now apply assign_at_cons|].
      intros [|b pre'] v' Hat'.
      * apply match_assign_iff in Hat'. congruence.
      * pose proof (assign_at_head _ _ _ _ _ _ Hat') as ->.
        apply assign_at_cons in Hat'. apply Hmin in Hat'. simpl. lia.
Qed.

Lemma config_field_spec key dflt src :
  field_spec key dflt src (config_field key dflt src).
Proof.
  unfold field_spec, config_field.
  destruct (re_search (chars key) (chars src)) as [v|] eqn:Hs.
  - left. destruct (re_search_Some _ _ _ Hs) as (pre & Hf). now exists pre, v.
  - right. split; [now apply re_search_None | reflexivity].
Qed.

(** **** Required tags *)

Lemma get_cells_by_tag_nil nb tag :
  get_cells_by_tag nb tag = [] <-> ~ has_tag nb tag.
Proof.
  unfold get_cells_by_tag, has_tag.
  induction (default [] (nb_cells nb)) as [|c l IH].
  - split; [intros _ H; inversion H | reflexivity].
  - rewrite filter_cons. destruct (decide (tag ∈ _cell_tags c)) as [Hc|Hc].
    + split; [discriminate | intros H; exfalso; apply H; now left].
    + rewrite IH. split.
      * intros H He. inversion He; subst; contradiction.
      * intros H He. apply H. now right.
Qed.

Lemma missing_tags_absent nb : missing_tags nb = absent_tags nb.
Proof.
  unfold missing_tags, absent_tags.
  induction REQUIRED_TAGS as [|t l IH]; [reflexivity|].
  rewrite !filter_cons, IH.
  destruct (decide (get_cells_by_tag nb t = [])) as [H|H],
           (decide (¬ has_tag nb t)) as [H'|H']; try reflexivity;
    exfalso; rewrite get_cells_by_tag_nil in H; contradiction.
Qed.

(** C3. A notebook that misses [N >= 1] of the four required tags makes
    [validate_required_tags] raise [ValueError] with a message whose list of
    missing tags is exactly those [N] tags, all of them, in the order of the
    vocabulary; a notebook with a cell for each required tag passes. *)
Theorem validate_required_tags_lists_missing (nb : notebook) (N : nat) :
  length (absent_tags nb) = N ->
  (forall t, t ∈ absent_tags nb <-> t ∈ REQUIRED_TAGS /\ ~ has_tag nb t)
  /\ (1 <= N ->
      validate_required_tags nb
      = inl (Py.ValueError
          ("Notebook is missing required MLOps tags: "
           +:+ Py.join ", " (absent_tags nb) +:+ ". "
           +:+ "Each cell must have metadata.tags containing the appropriate "
           +:+ "mlops:* tag. Required tags: "
           +:+ "mlops:config, mlops:preprocessing, mlops:training, mlops:export")))
  /\ ((forall t, t ∈ REQUIRED_TAGS -> has_tag nb t) ->
      N = 0 /\ validate_required_tags nb = inr tt).
Proof.
  intros HN. split; [|split].
  - intros t. unfold absent_tags. rewrite list_elem_of_filter. tauto.
  - intros H1. unfold validate_required_tags. rewrite missing_tags_absent.
    destruct (absent_tags nb) as [|t l] eqn:Ha; [simpl in HN; lia|].
    reflexivity.
  - intros Hall.
    assert (Ha : absent_tags nb = []).
    { unfold absent_tags. revert Hall.
      induction REQUIRED_TAGS as [|t l IH]; intros Hall; [reflexivity|].
      rewrite filter_cons. destruct (decide (¬ has_tag nb t)) as [Hn|_].
      - exfalso. apply Hn, Hall. now left.
      - apply IH. intros t' Ht'. apply Hall. now right. }
    unfold validate_required_tags. rewrite missing_tags_absent, Ha in *.
    simpl in HN. split; [lia | reflexivity].
Qed.

Lemma validate_required_tags_lists_missing_witness :
  length (absent_tags nb_config_only) = 3
  /\ validate_required_tags nb_config_only
     = inl (Py.ValueError
         ("Notebook is missing required MLOps tags: "
          +:+ "mlops:preprocessing, mlops:training, mlops:export" +:+ ". "
          +:+ "Each cell must have metadata.tags containing the appropriate "
          +:+ "mlops:* tag. Required tags: "
          +:+ "mlops:config, mlops:preprocessing, mlops:training, mlops:export")).
Proof.
  assert (H3 : length (absent_tags nb_config_only) = 3) by (vm_compute; reflexivity).
  split; [exact H3|].
  destruct (validate_required_tags_lists_missing nb_config_only 3 H3)
    as (_ & Hraise & _).
  rewrite Hraise by lia. vm_compute. reflexivity.
Defined.

(** C4. With at least one cell tagged [mlops:config], [extract_config]
    returns a configuration read off the text of the first such cell: each of
    [model_name] and [version] is the literal value of the first declaration
    of [MODEL_NAME], resp. [VERSION] (either quote character, any Unicode
    white space, of one byte or more, around the equals sign), and the fixed
    default ([default-model], resp. [1]) when the text has no such
    declaration.  Nothing is evaluated: the result depends on the characters
    of the text only. *)
Theorem extract_config_literal_or_default (nb : notebook) (c : cell) (cs : list cell) :
  get_cells_by_tag nb "mlops:config" = c :: cs ->
  exists cfg,
    extract_config nb = inr cfg
    /\ field_spec "MODEL_NAME" "default-model" (cell_text c) (model_name cfg)
    /\ field_spec "VERSION" "1" (cell_text c) (version cfg).
Proof.
  intros Hc. unfold extract_config. rewrite Hc. eexists. split; [reflexivity|].
  simpl. split; apply config_field_spec.
Qed.

Lemma extract_config_literal_or_default_witness :
  extract_config nb_version_only
  = inr {| model_name := "default-model"; version := "3" |}
  /\ extract_config nb_wide_spaces
     = inr {| model_name := "em"; version := "1" |}.
Proof.
  split.
  - destruct (extract_config_literal_or_default nb_version_only
                (code_cell ["mlops:config"] "VERSION = '3'") [])
      as (cfg & Hcfg & _); [vm_compute; reflexivity|].
    rewrite Hcfg. vm_compute in Hcfg. congruence.
  - destruct (extract_config_literal_or_default nb_wide_spaces
                (code_cell ["mlops:config"]
                   ("MODEL_NAME" +:+ bytes [226; 128; 131] +:+ "="
                    +:+ bytes [194; 160; 227; 128; 128] +:+ "'em'")) [])
      as (cfg & Hcfg & _); [vm_compute; reflexivity|].
    rewrite Hcfg. vm_compute in Hcfg. congruence.
Defined.

(** White space is Unicode white space: a line separator (U+2028) and an
    Ogham space mark (U+1680) are passed over; a zero width space (U+200B)
    is not white space and no declaration is found; a value holds any
    character but the two quotes. *)
Example extract_unicode_white_space :
  config_field "VERSION" "1"
    ("VERSION" +:+ bytes [226; 128; 168] +:+ "=" +:+ bytes [225; 154; 128]
     +:+ "'7'") = "7"
  /\ config_field "VERSION" "1"
       ("VERSION" +:+ bytes [226; 128; 139] +:+ "= '7'") = "1"
  /\ config_field "MODEL_NAME" "default-model"
       ("MODEL_NAME = '" +:+ bytes [195; 169] +:+ "t" +:+ bytes [195; 169] +:+ "'")
     = bytes [195; 169; 116; 195; 169].
Proof. repeat split; vm_compute; reflexivity. Qed.

(** The source of the test suite: both fields between double quotes, on
    two lines of one string. *)
Example extract_double_quoted :
  let q := String dquote "" in
  let src := "MODEL_NAME = " +:+ q +:+ "my-model" +:+ q +:+ String (ascii_of_nat 10) ""
             +:+ "VERSION = " +:+ q +:+ "2" +:+ q in
  extract_config
    {| nb_cells := Some [ {| cell_metadata := Some {| md_tags := Some ["mlops:config"] |};
                             cell_source := Some (SourceStr src) |} ] |}
  = inr {| model_name := "my-model"; version := "2" |}.
Proof. vm_compute. reflexivity. Qed.

(** An empty value is not a declaration: the default is returned. *)
Example extract_empty_value :
  config_field "VERSION" "1" "VERSION = ''" = "1".
Proof. vm_compute. reflexivity. Qed.

(** Without a config cell [extract_config] raises. *)
Example extract_no_config_cell :
  extract_config {| nb_cells := Some [ code_cell ["mlops:training"] "x = 1" ] |}
  = inl (Py.ValueError "No cell with tag 'mlops:config' found in notebook.").
Proof. vm_compute. reflexivity. Qed.

(** A notebook without the key cells misses the four tags. *)
Example validate_no_cells :
  absent_tags {| nb_cells := None |} = REQUIRED_TAGS.
Proof. vm_compute. reflexivity. Qed.

End ParserFacts.

(** ** The pipeline task *)

Module EngineFacts.
Import NotebookParser Engine EngineSpec DeploySession Samples.

Ltac state_simpl :=
  cbn [phases metrics deployed pipelines model_deployments published
       redis_lists redis_expiry clock redis_calls db_calls
       set_phases set_metrics set_deployed set_pipelines set_model_deployments
       set_published set_redis_lists set_redis_expiry set_clock set_redis_calls
       set_db_calls fst snd].

Ltac refl := exact eq_refl.

Lemma bind_Ok {A B} (m : M A) (f : A -> M B) s a s' :
  m s = (Ok a, s') -> (m ≫= f) s = f a s'.
Proof. intros H. unfold mbind, M_bind. rewrite H. refl. Qed.

Lemma bind_Raise {A B} (m : M A) (f : A -> M B) s e s' :
  m s = (Raise e, s') -> (m ≫= f) s = (Raise e, s').
Proof. intros H. unfold mbind, M_bind. rewrite H. refl. Qed.

Section projections.
Context (pid name st lg : string) (u : Update) (s : State).

Lemma phases_publish : phases (publish_effect pid name st lg s) = phases s.
Proof. refl. Qed.
Lemma metrics_publish : metrics (publish_effect pid name st lg s) = metrics s.
Proof. refl. Qed.
Lemma deployed_publish : deployed (publish_effect pid name st lg s) = deployed s.
Proof. refl. Qed.
Lemma pipelines_publish : pipelines (publish_effect pid name st lg s) = pipelines s.
Proof. refl. Qed.
Lemma deployments_publish :
  model_deployments (publish_effect pid name st lg s) = model_deployments s.
Proof. refl. Qed.
Lemma published_publish :
  published (publish_effect pid name st lg s)
  = published s ++ [(logs_channel pid, mk_event pid name st lg (clock s))].
Proof. refl. Qed.
Lemma clock_publish : clock (publish_effect pid name st lg s) = S (clock s).
Proof. refl. Qed.

Lemma phases_update_effect : phases (update_effect pid u s) = phases s.
Proof. unfold update_effect. destruct (pipelines s !! pid); refl. Qed.
Lemma metrics_update_effect : metrics (update_effect pid u s) = metrics s.
Proof. unfold update_effect. destruct (pipelines s !! pid); refl. Qed.
Lemma deployed_update_effect : deployed (update_effect pid u s) = deployed s.
Proof. unfold update_effect. destruct (pipelines s !! pid); refl. Qed.
Lemma deployments_update_effect :
  model_deployments (update_effect pid u s) = model_deployments s.
Proof. unfold update_effect. destruct (pipelines s !! pid); refl. Qed.
Lemma published_update_effect : published (update_effect pid u s) = published s.
Proof. unfold update_effect. destruct (pipelines s !! pid); refl. Qed.
Lemma clock_update_effect : clock (update_effect pid u s) = clock s.
Proof. unfold update_effect. destruct (pipelines s !! pid); refl. Qed.
Lemma row_update_effect :
  pipelines (update_effect pid u s) !! pid = apply_update u <$> (pipelines s !! pid).
Proof.
  unfold update_effect. destruct (pipelines s !! pid) as [p|] eqn:Hp; state_simpl.
  - rewrite lookup_insert_eq. refl.
  - rewrite Hp. refl.
Qed.

End projections.

Section phase_projections.
Context (pid name st lg : string) (s : State).

Lemma phases_phase_effect :
  phases (phase_effect pid name st lg s)
  = phases s ++ [mk_entry name st lg (clock s)].
Proof. unfold phase_effect. rewrite phases_update_effect. refl. Qed.
Lemma metrics_phase_effect : metrics (phase_effect pid name st lg s) = metrics s.
Proof. unfold phase_effect. rewrite metrics_update_effect. refl. Qed.
Lemma deployed_phase_effect : deployed (phase_effect pid name st lg s) = deployed s.
Proof. unfold phase_effect. rewrite deployed_update_effect. refl. Qed.
Lemma deployments_phase_effect :
  model_deployments (phase_effect pid name st lg s) = model_deployments s.
Proof. unfold phase_effect. rewrite deployments_update_effect. refl. Qed.
Lemma published_phase_effect :
  published (phase_effect pid name st lg s)
  = published s ++ [(logs_channel pid, mk_event pid name st lg (S (clock s)))].
Proof. unfold phase_effect. rewrite published_update_effect. refl. Qed.
Lemma clock_phase_effect : clock (phase_effect pid name st lg s) = S (S (clock s)).
Proof. unfold phase_effect. rewrite clock_update_effect. refl. Qed.
Lemma row_phase_effect :
  pipelines (phase_effect pid name st lg s) !! pid
  = apply_update (phases_update (phases s ++ [mk_entry name st lg (clock s)]))
    <$> (pipelines s !! pid).
Proof. unfold phase_effect. rewrite row_update_effect. refl. Qed.

End phase_projections.

Lemma update_effect_unfold pid u s :
  update_effect pid u s
  = match pipelines s !! pid with
    | None => set_db_calls (S (db_calls s)) s
    | Some p => set_pipelines (<[pid := apply_update u p]>) (set_db_calls (S (db_calls s)) s)
    end.
Proof. refl. Qed.

#[local] Opaque publish_effect update_effect phase_effect.

(** The observation of a state after a transformer is a function of the
    observation before it. *)
Section observations.
Context (pid : string).

Lemma obs_publish_effect name st lg s :
  obs pid (publish_effect pid name st lg s) = o_publish pid name st lg (obs pid s).
Proof.
  unfold obs, o_publish.
  rewrite phases_publish, metrics_publish, deployed_publish, pipelines_publish,
    deployments_publish, published_publish, clock_publish. refl.
Qed.

Lemma obs_update_effect u s :
  obs pid (update_effect pid u s) = o_update u (obs pid s).
Proof.
  unfold obs, o_update.
  rewrite phases_update_effect, metrics_update_effect, deployed_update_effect,
    row_update_effect, deployments_update_effect, published_update_effect,
    clock_update_effect. refl.
Qed.

Lemma obs_phase_effect name st lg s :
  obs pid (phase_effect pid name st lg s) = o_phase pid name st lg (obs pid s).
Proof.
  unfold obs, o_phase.
  rewrite phases_phase_effect, metrics_phase_effect, deployed_phase_effect,
    row_phase_effect, deployments_phase_effect, published_phase_effect,
    clock_phase_effect. refl.
Qed.

Lemma obs_set_phases f s : obs pid (set_phases f s) = o_set_phases f (obs pid s).
Proof. refl. Qed.
Lemma obs_set_metrics f s : obs pid (set_metrics f s) = o_set_metrics f (obs pid s).
Proof. refl. Qed.
Lemma obs_set_deployed b s : obs pid (set_deployed b s) = o_set_deployed b (obs pid s).
Proof. refl. Qed.
Lemma obs_set_model_deployments f s :
  obs pid (set_model_deployments f s) = o_set_deployments f (obs pid s).
Proof. refl. Qed.
Lemma obs_set_clock n s : obs pid (set_clock n s) = o_set_clock n (obs pid s).
Proof. refl. Qed.

End observations.

(** The observation of the state a run starts from. *)
Lemma obs_start pid s row :
  pipelines s !! pid = Some row ->
  obs pid s
  = {| o_phases := phases s; o_metrics := metrics s; o_deployed := deployed s;
       o_row := Some row; o_deployments := model_deployments s;
       o_published := published s; o_clock := clock s |}.
Proof. intros H. unfold obs. rewrite H. refl. Qed.

#[local] Opaque obs.

(** Symbolic execution keeps every state abstract: a state variable [S]
    comes with a hypothesis [obs pid S = o] for a computed observation [o].
    [obs_compute] normalises an observation; [abstract_state] names the
    state a transformer gives and computes its observation; [read_obs]
    replaces the projections of an abstract state by what was observed. *)
Ltac obs_eval t :=
  eval cbv beta iota zeta delta
    [o_phase o_publish o_update o_set_phases o_set_metrics o_set_deployed
     o_set_deployments o_set_clock
     o_phases o_metrics o_deployed o_row o_deployments o_published o_clock
     option_map apply_update phases_update default from_option id
     u_status u_phases u_metrics u_started_at u_finished_at
     p_status p_phases p_metrics p_started_at p_finished_at
     app mk_entry mk_event fst snd] in t.

Ltac name_state lem S0 Hobs :=
  let S1 := fresh "st" in
  let H1 := fresh "Hobs" in
  pose proof lem as H1;
  rewrite Hobs in H1;
  match type of H1 with
  | obs ?p ?t = ?rhs =>
      let r := obs_eval rhs in
      change (obs p t = r) in H1;
      generalize dependent t; intros S1 H1
  end;
  try (clear Hobs; try clear S0).

Ltac abstract_state :=
  match goal with
  | Hobs : obs ?pid ?S0 = _ |- context [phase_effect ?pid ?n ?st ?lg ?S0] =>
      name_state (obs_phase_effect pid n st lg S0) S0 Hobs
  | Hobs : obs ?pid ?S0 = _ |- context [publish_effect ?pid ?n ?st ?lg ?S0] =>
      name_state (obs_publish_effect pid n st lg S0) S0 Hobs
  | Hobs : obs ?pid ?S0 = _ |- context [update_effect ?pid ?u ?S0] =>
      name_state (obs_update_effect pid u S0) S0 Hobs
  | Hobs : obs ?pid ?S0 = _ |- context [set_phases ?f ?S0] =>
      name_state (obs_set_phases pid f S0) S0 Hobs
  | Hobs : obs ?pid ?S0 = _ |- context [set_metrics ?f ?S0] =>
      name_state (obs_set_metrics pid f S0) S0 Hobs
  | Hobs : obs ?pid ?S0 = _ |- context [set_deployed ?b ?S0] =>
      name_state (obs_set_deployed pid b S0) S0 Hobs
  | Hobs : obs ?pid ?S0 = _ |- context [set_model_deployments ?f ?S0] =>
      name_state (obs_set_model_deployments pid f S0) S0 Hobs
  | Hobs : obs ?pid ?S0 = _ |- context [set_clock ?n ?S0] =>
      name_state (obs_set_clock pid n S0) S0 Hobs
  end.

Section reading.
Context (pid : string) (s : State) (o : Obs) (H : obs pid s = o).

Lemma read_phases : phases s = o_phases o.
Proof. rewrite <- H. refl. Qed.
Lemma read_metrics : metrics s = o_metrics o.
Proof. rewrite <- H. refl. Qed.
Lemma read_deployed : deployed s = o_deployed o.
Proof. rewrite <- H. refl. Qed.
Lemma read_row : pipelines s !! pid = o_row o.
Proof. rewrite <- H. refl. Qed.
Lemma read_deployments : model_deployments s = o_deployments o.
Proof. rewrite <- H. refl. Qed.
Lemma read_published : published s = o_published o.
Proof. rewrite <- H. refl. Qed.
Lemma read_clock : clock s = o_clock o.
Proof. rewrite <- H. refl. Qed.

End reading.

Ltac read_with lem :=
  let E := fresh "E" in
  pose proof lem as E;
  cbv beta iota delta
    [o_phases o_metrics o_deployed o_row o_deployments o_published o_clock] in E;
  progress (rewrite E); clear E.

Ltac read_obs :=
  match goal with
  | Hobs : obs ?pid ?S = ?o |- context [phases ?S] =>
      read_with (read_phases pid S o Hobs)
  | Hobs : obs ?pid ?S = ?o |- context [metrics ?S] =>
      read_with (read_metrics pid S o Hobs)
  | Hobs : obs ?pid ?S = ?o |- context [deployed ?S] =>
      read_with (read_deployed pid S o Hobs)
  | Hobs : obs ?pid ?S = ?o |- context [pipelines ?S !! ?pid] =>
      read_with (read_row pid S o Hobs)
  | Hobs : obs ?pid ?S = ?o |- context [model_deployments ?S] =>
      read_with (read_deployments pid S o Hobs)
  | Hobs : obs ?pid ?S = ?o |- context [published ?S] =>
      read_with (read_published pid S o Hobs)
  | Hobs : obs ?pid ?S = ?o |- context [clock ?S] =>
      read_with (read_clock pid S o Hobs)
  end.

Ltac use_hyps :=
  repeat match goal with
  | H : ?l = _ |- _ =>
      lazymatch l with
      | obs _ _ => fail
      | _ => rewrite H
      end
  | H : forall _, _ = _ |- _ => rewrite H
  end.

Lemma last_snoc_event l x : last (snoc_event l x) = Some x.
Proof. apply last_snoc. Qed.

#[local] Opaque snoc_event.

Lemma metrics_accuracy_read m :
  metrics_accuracy (match m with Some m => MNum <$> m | None => ∅ end)
  = extracted_accuracy m.
Proof.
  unfold metrics_accuracy, extracted_accuracy. destruct m as [m|].
  - rewrite lookup_fmap. destruct (m !! "accuracy"); refl.
  - rewrite lookup_empty. refl.
Qed.

Section healthy.
Context (w : World) (pid : string) (Hinfra : infra_ok w).


Lemma _publish_phase_ok name st lg s :
  _publish_phase w pid name st lg s = (Ok tt, publish_effect pid name st lg s).
Proof.
  destruct Hinfra as [Hr _].
  unfold _publish_phase, redis_command, now, mbind, M_bind.
  state_simpl. rewrite !Hr. refl.
Qed.

Lemma _update_pipeline_db_ok u s :
  _update_pipeline_db w pid u s = (Ok tt, update_effect pid u s).
Proof.
  destruct Hinfra as [_ Hd].
  unfold _update_pipeline_db. rewrite Hd, update_effect_unfold.
  destruct (pipelines s !! pid); refl.
Qed.

Lemma _phase_ok name st lg s :
  _phase w pid name st lg s = (Ok tt, phase_effect pid name st lg s).
Proof.
  unfold _phase, now, modify, gets, mbind, M_bind.
  rewrite _publish_phase_ok, _update_pipeline_db_ok. refl.
Qed.

Ltac run1 :=
  first
    [ rewrite _phase_ok
    | rewrite _publish_phase_ok
    | rewrite _update_pipeline_db_ok
    | rewrite metrics_accuracy_read
    | progress cbv beta iota delta
        [mbind M_bind mret M_ret gets modify now raise lift external
         try_except check_shutdown Py.is_Exception Py.str fst snd]
    | read_obs
    | abstract_state
    | progress use_hyps ].
Ltac run := repeat run1.

Ltac unfold_task :=
  unfold run_pipeline, pipeline_body, download_phase, validate_phase,
    execute_phase, register_phase, deploy_phase, deploy_attempt,
    save_deployment, mark_success, on_error, on_shutdown.

Ltac row_simpl :=
  cbn [p_status p_phases p_metrics p_started_at p_finished_at
       summary event_summary map app ph_name ph_status ph_logs
       ev_phase ev_status fst snd].

(** The gate of the deploy phase, as a proposition. *)
Lemma deploy_condition_true m :
  gate_open w m -> deploy_condition w (extracted_accuracy m) = true.
Proof.
  intros [Ha Hq]. unfold deploy_condition. rewrite Ha.
  apply Qle_bool_iff in Hq. rewrite Hq. refl.
Qed.

Lemma deploy_condition_false m :
  gate_closed w m -> deploy_condition w (extracted_accuracy m) = false.
Proof.
  intros [Ha|Hq]; unfold deploy_condition.
  - rewrite Ha. refl.
  - apply andb_false_intro2. apply not_true_is_false. intros Hle.
    apply Qle_bool_iff in Hle. now apply Qlt_not_le in Hq.
Qed.

(** A run that reaches the deploy phase on a healthy infrastructure. *)
Lemma run_with_deploy s row nb cfg logs m rid :
  pipelines s !! pid = Some row ->
  reaches_deploy w nb cfg logs m rid ->
  gate_open w m ->
  exists row' ms s',
    run_pipeline w pid s = (Ok (RunSuccess ms), s')
    /\ pipelines s' !! pid = Some row'
    /\ p_status row' = "success"
    /\ is_Some (p_finished_at row')
    /\ p_metrics row' = ms
    /\ ms !! "deployed" = Some (MBool (deployment_succeeds w))
    /\ summary (p_phases row')
       = happy_prefix
         ++ [ ("deploy", "running");
              ("deploy", if deployment_succeeds w then "success" else "failed") ]
    /\ (exists ev, last (published s') = Some (logs_channel pid, ev)
                   /\ ev_phase ev = "complete" /\ ev_status ev = "success")
    /\ (deployment_succeeds w = true ->
        exists new,
          model_deployments s' = promote new (model_deployments s)
          /\ d_model_name new = model_name cfg
          /\ d_pipeline_id new = Some pid /\ d_is_active new = true)
    /\ (deployment_succeeds w = false ->
        model_deployments s' = model_deployments s).
Proof.
  intros Hrow (Hdl & Hv & Hc & He & Hg & Hs0 & Hs1 & Hs2) Hopen.
  pose proof (deploy_condition_true m Hopen) as Hcond.
  pose proof (obs_start pid s row Hrow) as Hobs.
  unfold deployment_succeeds.
  unfold_task. run.
  destruct (model_server_load w) as [msg|] eqn:Hload;
    [|destruct (deployment_commit w) as [msg|] eqn:Hcommit]; run;
    (eexists _, _, _; split; [refl|]); repeat read_obs; row_simpl;
    (split; [refl|]); (split; [refl|]); (split; [eexists; refl|]);
    (split; [refl|]); (split; [apply lookup_insert_eq|]); (split; [refl|]);
    (split; [rewrite last_snoc_event; eexists; split; [refl|split; refl]|]);
    (split; intros Hb; try discriminate Hb; try refl).
  eexists. split; [refl|]. repeat split.
Qed.

(** A run that comes to the deploy decision with the gate closed. *)
Lemma run_without_deploy s row nb cfg logs m rid :
  pipelines s !! pid = Some row ->
  reaches_deploy w nb cfg logs m rid ->
  gate_closed w m ->
  exists row' ms s',
    run_pipeline w pid s = (Ok (RunSuccess ms), s')
    /\ pipelines s' !! pid = Some row'
    /\ p_status row' = "success"
    /\ is_Some (p_finished_at row')
    /\ p_metrics row' = ms
    /\ ms !! "deployed" = Some (MBool false)
    /\ summary (phases s') = happy_prefix
    /\ summary (p_phases row') = happy_prefix
    /\ (exists ev, last (published s') = Some (logs_channel pid, ev)
                   /\ ev_phase ev = "complete" /\ ev_status ev = "success")
    /\ model_deployments s' = model_deployments s.
Proof.
  intros Hrow (Hdl & Hv & Hc & He & Hg & Hs0 & Hs1 & Hs2) Hclosed.
  pose proof (deploy_condition_false m Hclosed) as Hcond.
  pose proof (obs_start pid s row Hrow) as Hobs.
  unfold_task. run.
  eexists _, _, _; split; [refl|]. repeat read_obs. row_simpl.
  split; [refl|]. split; [refl|]. split; [eexists; refl|].
  split; [refl|]. split; [apply lookup_insert_eq|].
  split; [refl|]. split; [refl|].
  split; [rewrite last_snoc_event; eexists; split; [refl|split; refl]|].
  refl.
Qed.

(** The parser raises [ValueError] only. *)
Lemma validate_raises nb e :
  validate_required_tags nb = inl e -> exists msg, e = Py.ValueError msg.
Proof.
  unfold validate_required_tags. destruct (missing_tags nb); [discriminate|].
  intros [= <-]. eexists; refl.
Qed.

Lemma extract_raises nb e :
  extract_config nb = inl e -> exists msg, e = Py.ValueError msg.
Proof.
  unfold extract_config. destruct (get_cells_by_tag nb "mlops:config");
    [|discriminate].
  intros [= <-]. eexists; refl.
Qed.

Lemma gate_open_or_closed m : gate_open w m \/ gate_closed w m.
Proof.
  unfold gate_open, gate_closed.
  destruct (auto_deploy_on_success (settings w)); [|right; left; refl].
  destruct (Qlt_le_dec (extracted_accuracy m) (min_accuracy_threshold (settings w)))
    as [Hlt|Hle].
  - right. right. exact Hlt.
  - left. split; [refl | exact Hle].
Qed.

Ltac finish_failed :=
  (eexists _, _, _; split; [refl|]); repeat read_obs; row_simpl;
  (split; [refl|]); (split; [eexists; refl|]).

(** On a healthy infrastructure a run never lets an exception out, and its
    result, the stored status and the stored phases follow the course of the
    run. *)
Lemma run_classified s row :
  pipelines s !! pid = Some row ->
  exists r row' s',
    run_pipeline w pid s = (Ok r, s')
    /\ pipelines s' !! pid = Some row'
    /\ is_Some (p_finished_at row')
    /\ match classify w with
       | Failed ph msg =>
           r = RunError msg /\ p_status row' = "failed"
           /\ summary (p_phases row')
              = trace PHASE_ORDER ph false ++ [("error", "failed")]
           /\ (exists e, last (p_phases row') = Some e /\ ph_logs e = msg)
       | Interrupted ph =>
           r = RunShutdown /\ p_status row' = "failed"
           /\ summary (p_phases row') = trace PHASE_ORDER ph true
       | Completed =>
           (exists ms, r = RunSuccess ms) /\ p_status row' = "success"
           /\ exists tail,
                summary (p_phases row') = happy_prefix ++ tail
                /\ Forall (fun x => x.1 = "deploy") tail
       end.
Proof.
  intros Hrow.
  destruct (download_notebook w) as [msg|nb] eqn:Hdl.
  { pose proof (obs_start pid s row Hrow) as Hobs.
    unfold classify. rewrite Hdl. unfold_task. run. finish_failed.
    repeat split. eexists; split; refl. }
  destruct (shutting_down w 0) eqn:Hs0.
  { pose proof (obs_start pid s row Hrow) as Hobs.
    unfold classify. rewrite Hdl, Hs0. unfold_task. run. finish_failed.
    repeat split. }
  destruct (validate_required_tags nb) as [e|[]] eqn:Hv.
  { destruct (validate_raises nb e Hv) as [msg ->].
    pose proof (obs_start pid s row Hrow) as Hobs.
    unfold classify. rewrite Hdl, Hs0, Hv. unfold_task. run. finish_failed.
    repeat split. eexists; split; refl. }
  destruct (extract_config nb) as [e|cfg] eqn:Hc.
  { destruct (extract_raises nb e Hc) as [msg ->].
    pose proof (obs_start pid s row Hrow) as Hobs.
    unfold classify. rewrite Hdl, Hs0, Hv, Hc. unfold_task. run. finish_failed.
    repeat split. eexists; split; refl. }
  destruct (shutting_down w 1) eqn:Hs1.
  { pose proof (obs_start pid s row Hrow) as Hobs.
    unfold classify. rewrite Hdl, Hs0, Hv, Hc, Hs1. unfold_task. run.
    finish_failed. repeat split. }
  destruct (execute_notebook w) as [msg|logs] eqn:He.
  { pose proof (obs_start pid s row Hrow) as Hobs.
    unfold classify. rewrite Hdl, Hs0, Hv, Hc, Hs1, He. unfold_task. run.
    finish_failed. repeat split. eexists; split; refl. }
  destruct (shutting_down w 2) eqn:Hs2.
  { pose proof (obs_start pid s row Hrow) as Hobs.
    unfold classify. rewrite Hdl, Hs0, Hv, Hc, Hs1, He, Hs2. unfold_task. run.
    finish_failed. repeat split. }
  destruct (mlflow_register w) as [msg|[m rid]] eqn:Hg.
  { pose proof (obs_start pid s row Hrow) as Hobs.
    unfold classify. rewrite Hdl, Hs0, Hv, Hc, Hs1, He, Hs2, Hg. unfold_task. run.
    finish_failed. repeat split. eexists; split; refl. }
  assert (Hreach : reaches_deploy w nb cfg logs m rid) by (repeat split; assumption).
  unfold classify. rewrite Hdl, Hs0, Hv, Hc, Hs1, He, Hs2, Hg.
  destruct (gate_open_or_closed m) as [Hopen|Hclosed].
  - destruct (run_with_deploy s row nb cfg logs m rid Hrow Hreach Hopen)
      as (row' & ms & s' & Hrun & Hrow' & Hst & Hfin & _ & _ & Hsum & _).
    exists (RunSuccess ms), row', s'. repeat split; try assumption.
    + eexists; refl.
    + eexists. split; [exact Hsum|]. repeat constructor.
  - destruct (run_without_deploy s row nb cfg logs m rid Hrow Hreach Hclosed)
      as (row' & ms & s' & Hrun & Hrow' & Hst & Hfin & _ & _ & _ & Hsum & _).
    exists (RunSuccess ms), row', s'. repeat split; try assumption.
    + eexists; refl.
    + exists []. split; [rewrite app_nil_r; exact Hsum | constructor].
Qed.

End healthy.

(** *** Runs in any world *)

Section any_world.
Context (w : World) (pid : string) (allowed : string -> Prop).

Lemma quiet_ret {A} (a : A) : quiet allowed (mret a : M A).
Proof. intros s. split; [refl|]. exists []. split; [symmetry; apply app_nil_r|constructor]. Qed.

Lemma quiet_raise {A} e : quiet allowed (raise e : M A).
Proof. intros s. split; [refl|]. exists []. split; [symmetry; apply app_nil_r|constructor]. Qed.

Lemma quiet_gets {A} (f : State -> A) : quiet allowed (gets f).
Proof. intros s. split; [refl|]. exists []. split; [symmetry; apply app_nil_r|constructor]. Qed.

Lemma quiet_now : quiet allowed now.
Proof. intros s. split; [refl|]. exists []. split; [symmetry; apply app_nil_r|constructor]. Qed.

(** A change of the state that touches neither the phases nor the table. *)
Lemma quiet_modify f :
  (forall s, phases (f s) = phases s) ->
  (forall s, model_deployments (f s) = model_deployments s) ->
  quiet allowed (modify f).
Proof.
  intros Hp Hd s. unfold modify. cbn [fst snd]. split; [apply Hd|].
  exists []. rewrite Hp. split; [symmetry; apply app_nil_r|constructor].
Qed.

Lemma quiet_bind {A B} (m : M A) (f : A -> M B) :
  quiet allowed m -> (forall a, quiet allowed (f a)) -> quiet allowed (m ≫= f).
Proof.
  intros Hm Hf s. unfold mbind, M_bind.
  destruct (Hm s) as (Hd & l & Hl & Hall).
  destruct (m s) as [[a|e] s1]; cbn [fst snd] in *.
  - destruct (Hf a s1) as (Hd' & l' & Hl' & Hall').
    split; [congruence|]. exists (l ++ l').
    rewrite Hl', Hl, app_assoc. split; [refl|]. now apply Forall_app.
  - split; [assumption|]. now exists l.
Qed.

(** The same, when the continuation is known to be quiet only for the
    values the first computation can return. *)
Lemma quiet_bind_post {A B} (Q : A -> Prop) (m : M A) (f : A -> M B) :
  (forall s a s', m s = (Ok a, s') -> Q a) ->
  quiet allowed m -> (forall a, Q a -> quiet allowed (f a)) ->
  quiet allowed (m ≫= f).
Proof.
  intros HQ Hm Hf s. unfold mbind, M_bind.
  destruct (Hm s) as (Hd & l & Hl & Hall).
  destruct (m s) as [[a|e] s1] eqn:Hms; cbn [fst snd] in *.
  - destruct (Hf a (HQ _ _ _ Hms) s1) as (Hd' & l' & Hl' & Hall').
    split; [congruence|]. exists (l ++ l').
    rewrite Hl', Hl, app_assoc. split; [refl|]. now apply Forall_app.
  - split; [assumption|]. now exists l.
Qed.

Lemma quiet_try {A} (body : M A) (handler : Py.exn -> option (M A)) :
  quiet allowed body ->
  (forall e h, handler e = Some h -> quiet allowed h) ->
  quiet allowed (try_except body handler).
Proof.
  intros Hb Hh s. unfold try_except.
  destruct (Hb s) as (Hd & l & Hl & Hall).
  destruct (body s) as [[a|e] s1]; cbn [fst snd] in *.
  - split; [assumption|]. now exists l.
  - destruct (handler e) as [h|] eqn:He.
    + destruct (Hh e h He s1) as (Hd' & l' & Hl' & Hall').
      split; [congruence|]. exists (l ++ l').
      rewrite Hl', Hl, app_assoc. split; [refl|]. now apply Forall_app.
    + split; [assumption|]. now exists l.
Qed.

Lemma quiet_lift {A} (r : Py.exn + A) : quiet allowed (lift r).
Proof. destruct r; [apply quiet_raise | apply quiet_ret]. Qed.

Lemma quiet_external {A} (r : string + A) : quiet allowed (external r).
Proof. destruct r; [apply quiet_raise | apply quiet_ret]. Qed.

Lemma quiet_check_shutdown k : quiet allowed (check_shutdown w k).
Proof.
  unfold check_shutdown. destruct (shutting_down w k);
    [apply quiet_raise | apply quiet_ret].
Qed.

Lemma quiet_redis_command f :
  (forall s, phases (f s) = phases s) ->
  (forall s, model_deployments (f s) = model_deployments s) ->
  quiet allowed (redis_command w f).
Proof.
  intros Hp Hd s. unfold redis_command.
  destruct (redis_ok w (redis_calls s)); cbn [fst snd].
  - rewrite Hp, Hd. split; [refl|].
    exists []. split; [symmetry; apply app_nil_r|constructor].
  - split; [refl|]. exists []. split; [symmetry; apply app_nil_r|constructor].
Qed.

Lemma quiet_publish name st lg : quiet allowed (_publish_phase w pid name st lg).
Proof.
  unfold _publish_phase.
  apply quiet_bind; [apply quiet_now|intros ts].
  apply quiet_bind; [apply quiet_redis_command; intros; refl|intros _].
  apply quiet_bind; apply quiet_redis_command || intros _; intros; try refl.
  apply quiet_redis_command; intros; refl.
Qed.

Lemma quiet_update u : quiet allowed (_update_pipeline_db w pid u).
Proof.
  intros s. unfold _update_pipeline_db.
  destruct (db_ok w (db_calls s)); [destruct (pipelines s !! pid)|];
    cbn [fst snd]; (split; [refl|]);
    exists []; (split; [symmetry; apply app_nil_r|constructor]).
Qed.

(** [_phase] appends exactly its entry, also when it raises. *)
Lemma quiet_phase name st lg :
  allowed name -> quiet allowed (_phase w pid name st lg).
Proof.
  intros Hname s.
  pose (entry := {| ph_name := name; ph_status := st;
                    ph_timestamp := clock s; ph_logs := lg |}).
  pose (s1 := set_phases (fun l => l ++ [entry]) (set_clock (S (clock s)) s)).
  assert (Hrest : quiet allowed
            (_publish_phase w pid name st lg ≫= fun _ =>
             gets phases ≫= fun ps =>
             _update_pipeline_db w pid
               {| u_status := None; u_phases := Some ps; u_metrics := None;
                  u_started_at := None; u_finished_at := None |})).
  { apply quiet_bind; [apply quiet_publish|intros _].
    apply quiet_bind; [apply quiet_gets|intros ps]. apply quiet_update. }
  change (_phase w pid name st lg s)
    with ((_publish_phase w pid name st lg ≫= fun _ =>
           gets phases ≫= fun ps =>
           _update_pipeline_db w pid
             {| u_status := None; u_phases := Some ps; u_metrics := None;
                u_started_at := None; u_finished_at := None |}) s1).
  destruct (Hrest s1) as (Hd & l & Hl & Hall).
  split; [exact Hd|].
  exists (entry :: l). split.
  - rewrite Hl. subst s1. cbn [phases set_phases set_clock].
    rewrite <- app_assoc. refl.
  - constructor; [exact Hname | exact Hall].
Qed.

Hypothesis allowed_not_deploy : forall name, not_deploy name -> allowed name.

Ltac allowed_name := apply allowed_not_deploy; unfold not_deploy; discriminate.

Ltac quiet_step :=
  lazymatch goal with
  | |- quiet _ (mbind _ _) => apply quiet_bind; [|intros ?]
  | |- quiet _ (mret _) => apply quiet_ret
  | |- quiet _ (raise _) => apply quiet_raise
  | |- quiet _ (gets _) => apply quiet_gets
  | |- quiet _ now => apply quiet_now
  | |- quiet _ (lift _) => apply quiet_lift
  | |- quiet _ (external _) => apply quiet_external
  | |- quiet _ (check_shutdown _ _) => apply quiet_check_shutdown
  | |- quiet _ (_publish_phase _ _ _ _ _) => apply quiet_publish
  | |- quiet _ (_update_pipeline_db _ _ _) => apply quiet_update
  | |- quiet _ (_phase _ _ _ _ _) => apply quiet_phase; allowed_name
  | |- quiet _ (modify _) => apply quiet_modify; intros; refl
  end.

Lemma quiet_download : quiet allowed (download_phase w pid).
Proof. unfold download_phase. repeat quiet_step. Qed.

Lemma quiet_validate nb : quiet allowed (validate_phase w pid nb).
Proof. unfold validate_phase. repeat quiet_step. Qed.

Lemma quiet_execute : quiet allowed (execute_phase w pid).
Proof. unfold execute_phase. repeat quiet_step. Qed.

Lemma quiet_register : quiet allowed (register_phase w pid).
Proof. unfold register_phase. repeat quiet_step. Qed.

Lemma quiet_mark_success : quiet allowed (mark_success w pid).
Proof. unfold mark_success. repeat quiet_step. Qed.

Lemma quiet_on_shutdown : quiet allowed (on_shutdown w pid).
Proof. unfold on_shutdown. repeat quiet_step. Qed.

Lemma quiet_on_error exc : quiet allowed (on_error w pid exc).
Proof. unfold on_error. repeat quiet_step. Qed.

Lemma quiet_handlers exc h :
  match exc with
  | Py.SystemExit _ => Some (on_shutdown w pid)
  | _ => Some (on_error w pid exc)
  end = Some h ->
  quiet allowed h.
Proof.
  destruct exc; intros [= <-]; apply quiet_on_error || apply quiet_on_shutdown.
Qed.

(** With the gate closed the deploy phase only resets the flag. *)
Lemma quiet_deploy_skipped cfg accuracy :
  deploy_condition w accuracy = false ->
  quiet allowed (deploy_phase w pid cfg accuracy).
Proof.
  intros Hc. unfold deploy_phase. rewrite Hc. repeat quiet_step.
Qed.

(** What the register phase returns is the accuracy read from MLflow. *)
Lemma register_returns s r s' :
  register_phase w pid s = (Ok r, s') ->
  exists m rid, mlflow_register w = inr (m, rid) /\ r.1 = extracted_accuracy m.
Proof.
  unfold register_phase, mbind, M_bind.
  destruct (_phase w pid "register" "running" "" s) as [[[]|e] s1]; [|discriminate].
  destruct (mlflow_register w) as [msg|[m rid]]; cbn [external raise];
    [discriminate|].
  cbv beta iota delta [mret M_ret modify gets fst snd].
  destruct (_phase w pid "register" "success" "" _) as [[[]|e] s2];
    [|discriminate].
  intros [= <- _]. exists m, rid. split; [refl|].
  cbn [fst metrics set_metrics]. apply metrics_accuracy_read.
Qed.

End any_world.

Section gate_closed.
Context (w : World) (pid : string) (Hclosed : gate_closed_world w).

Lemma quiet_body_gate_closed : quiet not_deploy (pipeline_body w pid).
Proof.
  assert (Hnd : forall name, not_deploy name -> not_deploy name) by auto.
  unfold pipeline_body.
  apply quiet_bind; [apply quiet_now|intros t].
  apply quiet_bind; [apply quiet_update|intros _].
  apply quiet_bind; [now apply quiet_download|intros nb].
  apply quiet_bind; [apply quiet_check_shutdown|intros _].
  apply quiet_bind; [now apply quiet_validate|intros cfg].
  apply quiet_bind; [apply quiet_check_shutdown|intros _].
  apply quiet_bind; [now apply quiet_execute|intros _].
  apply quiet_bind; [apply quiet_check_shutdown|intros _].
  apply (quiet_bind_post not_deploy
           (fun r => deploy_condition w r.1 = false)).
  - intros s r s' Hr. destruct (register_returns w pid s r s' Hr)
      as (m & rid & Hreg & ->).
    apply deploy_condition_false. exact (Hclosed m rid Hreg).
  - now apply quiet_register.
  - intros r Hr.
    apply quiet_bind; [now apply quiet_deploy_skipped|intros _].
    now apply quiet_mark_success.
Qed.

(** In a world whose gate is closed, whatever else happens, a run appends
    no entry named deploy and leaves the deployments table as it was. *)
Lemma run_gate_closed s :
  Forall (fun e => ph_name e <> "deploy") (phases (run_pipeline w pid s).2)
  /\ model_deployments (run_pipeline w pid s).2 = model_deployments s.
Proof.
  assert (Hq : quiet not_deploy
            (try_except (pipeline_body w pid)
               (fun exc =>
                  match exc with
                  | Py.SystemExit _ => Some (on_shutdown w pid)
                  | _ => Some (on_error w pid exc)
                  end))).
  { apply quiet_try; [apply quiet_body_gate_closed|].
    intros e h. apply quiet_handlers. auto. }
  unfold run_pipeline, mbind, M_bind, modify.
  destruct (Hq (set_metrics (fun _ => ∅) (set_phases (fun _ => []) s)))
    as (Hd & l & Hl & Hall).
  split; [|exact Hd].
  rewrite Hl. cbn [phases set_metrics set_phases app]. exact Hall.
Qed.

End gate_closed.


(** *** Promotion is one step *)

Section promotion.
Context (w : World) (pid : string).

Lemma any_name_allowed name : not_deploy name -> any_name name.
Proof. intros _. exact I. Qed.

Lemma step_of_quiet {A} (m : M A) : quiet any_name m -> promotion_step pid m.
Proof. intros Hq s. left. apply Hq. Qed.

Lemma step_bind_l {A B} (m : M A) (f : A -> M B) :
  quiet any_name m -> (forall a, promotion_step pid (f a)) ->
  promotion_step pid (m ≫= f).
Proof.
  intros Hm Hf s. unfold mbind, M_bind.
  destruct (Hm s) as (Hd & _).
  destruct (m s) as [[a|e] s1]; cbn [fst snd] in *.
  - rewrite <- Hd. apply Hf.
  - left. exact Hd.
Qed.

Lemma step_bind_r {A B} (m : M A) (f : A -> M B) :
  promotion_step pid m -> (forall a, quiet any_name (f a)) ->
  promotion_step pid (m ≫= f).
Proof.
  intros Hm Hf s. unfold mbind, M_bind.
  pose proof (Hm s) as Hs.
  destruct (m s) as [[a|e] s1]; cbn [fst snd] in *.
  - destruct (Hf a s1) as (Hd & _). rewrite Hd. exact Hs.
  - exact Hs.
Qed.

Lemma step_try {A} (body : M A) (handler : Py.exn -> option (M A)) :
  promotion_step pid body ->
  (forall e h, handler e = Some h -> quiet any_name h) ->
  promotion_step pid (try_except body handler).
Proof.
  intros Hb Hh s. unfold try_except.
  pose proof (Hb s) as Hs.
  destruct (body s) as [[a|e] s1]; cbn [fst snd] in *; [exact Hs|].
  destruct (handler e) as [h|] eqn:He; [|exact Hs].
  destruct (Hh e h He s1) as (Hd & _). rewrite Hd. exact Hs.
Qed.

(** The session of the deploy phase commits the promoted table or nothing. *)
Lemma step_save_deployment cfg accuracy url :
  promotion_step pid (save_deployment w pid cfg accuracy url).
Proof.
  intros s. unfold save_deployment, mbind, M_bind, now.
  destruct (deployment_commit w) as [msg|]; cbn [raise modify fst snd].
  - left. refl.
  - right. eexists. split; [|split]. 3: refl. all: refl.
Qed.

Lemma step_deploy_attempt cfg accuracy :
  promotion_step pid (deploy_attempt w pid cfg accuracy).
Proof.
  unfold deploy_attempt.
  apply step_bind_l.
  { destruct (model_server_load w); [apply quiet_raise | apply quiet_ret]. }
  intros _. refine (step_bind_r _ _ (step_save_deployment _ _ _) _).
  intros _. apply quiet_bind; [apply quiet_modify; intros; refl|intros _].
  apply quiet_phase. exact I.
Qed.

Lemma step_deploy_phase cfg accuracy :
  promotion_step pid (deploy_phase w pid cfg accuracy).
Proof.
  unfold deploy_phase.
  apply step_bind_l; [apply quiet_modify; intros; refl|intros _].
  destruct (deploy_condition w accuracy); [|apply step_of_quiet, quiet_ret].
  apply step_bind_l; [apply quiet_phase; exact I|intros _].
  apply step_try; [apply step_deploy_attempt|].
  intros e h. destruct (Py.is_Exception e); [|discriminate].
  intros [= <-]. apply quiet_phase. exact I.
Qed.

Lemma step_body : promotion_step pid (pipeline_body w pid).
Proof.
  unfold pipeline_body.
  apply step_bind_l; [apply quiet_now|intros t].
  apply step_bind_l; [apply quiet_update|intros _].
  apply step_bind_l; [apply quiet_download, any_name_allowed|intros nb].
  apply step_bind_l; [apply quiet_check_shutdown|intros _].
  apply step_bind_l; [apply quiet_validate, any_name_allowed|intros cfg].
  apply step_bind_l; [apply quiet_check_shutdown|intros _].
  apply step_bind_l; [apply quiet_execute, any_name_allowed|intros _].
  apply step_bind_l; [apply quiet_check_shutdown|intros _].
  apply step_bind_l; [apply quiet_register, any_name_allowed|intros r].
  refine (step_bind_r _ _ (step_deploy_phase cfg r.1) _). intros _.
  apply quiet_mark_success.
Qed.

(** In any world the table a run leaves is the table it found, or that
    table promoted once, by this run: never something in between. *)
Lemma run_promotes_atomically s :
  promoted_or_same pid (model_deployments s)
    (model_deployments (run_pipeline w pid s).2).
Proof.
  assert (Hs : promotion_step pid
            (try_except (pipeline_body w pid)
               (fun exc =>
                  match exc with
                  | Py.SystemExit _ => Some (on_shutdown w pid)
                  | _ => Some (on_error w pid exc)
                  end))).
  { apply step_try; [apply step_body|].
    intros e h. apply quiet_handlers, any_name_allowed. }
  unfold run_pipeline, mbind, M_bind, modify.
  exact (Hs (set_metrics (fun _ => ∅) (set_phases (fun _ => []) s))).
Qed.

End promotion.

(** What a promotion does to the table. *)
Section promote_table.
Context (new : ModelDeployment) (table : list ModelDeployment).

Lemma deactivate_not_active name d :
  ~ (d_model_name (deactivate name d) = name
     /\ d_is_active (deactivate name d) = true).
Proof.
  unfold deactivate. destruct (bool_decide (d_model_name d = name)) eqn:Hn;
    destruct (d_is_active d) eqn:Ha; cbn; intros [H1 H2]; try congruence.
  all: apply bool_decide_eq_false in Hn; contradiction.
Qed.

Lemma promote_active_unique :
  d_is_active new = true ->
  active_for (d_model_name new) (promote new table) = [new].
Proof.
  intros Hact. unfold active_for, promote. rewrite filter_app.
  assert (Hold : filter (fun d => d_model_name d = d_model_name new
                                   /\ d_is_active d = true)
                   (map (deactivate (d_model_name new)) table) = []).
  { induction table as [|d l IH]; [refl|]. cbn [map]. rewrite filter_cons.
    destruct (decide _) as [H|_]; [|exact IH].
    exfalso. exact (deactivate_not_active _ _ H). }
  rewrite Hold. cbn [app]. rewrite filter_cons.
  destruct (decide _) as [_|H]; [refl|]. exfalso. apply H. now split.
Qed.

Lemma promote_prior i d :
  table !! i = Some d ->
  promote new table !! i = Some (deactivate (d_model_name new) d).
Proof.
  intros Hi. unfold promote. rewrite lookup_app_l.
  - rewrite list_lookup_fmap, Hi. refl.
  - rewrite length_map. now apply lookup_lt_Some in Hi.
Qed.

Lemma deactivate_same_model d :
  d_model_name d = d_model_name new ->
  d_is_active (deactivate (d_model_name new) d) = false.
Proof.
  intros Hn. unfold deactivate. rewrite bool_decide_eq_true_2 by exact Hn.
  destruct (d_is_active d) eqn:Ha; cbn; [refl | exact Ha].
Qed.

Lemma deactivate_other_model d :
  d_model_name d <> d_model_name new ->
  deactivate (d_model_name new) d = d.
Proof.
  intros Hn. unfold deactivate. rewrite bool_decide_eq_false_2 by exact Hn. refl.
Qed.

End promote_table.

(** *** The broadcaster *)

Section broadcaster.
Context (w : World) (pid : string).

(** When one of the three Redis commands of a transition fails, [_phase]
    raises before it reaches the store: the entry is in the local list only. *)
Lemma phase_raises_on_redis_failure name st lg s :
  (exists i, (i < 3)%nat /\ redis_ok w (redis_calls s + i) = false) ->
  exists s',
    _phase w pid name st lg s = (Raise (Py.ExternalError redis_error), s')
    /\ pipelines s' = pipelines s
    /\ db_calls s' = db_calls s
    /\ phases s' = phases s ++ [mk_entry name st lg (clock s)].
Proof.
  intros (i & Hi & Hfail).
  unfold _phase, _publish_phase, redis_command, now, modify, mbind, M_bind.
  state_simpl.
  destruct (redis_ok w (redis_calls s)) eqn:H0.
  2: { eexists. split; [refl|]. repeat split. }
  state_simpl. destruct (redis_ok w (S (redis_calls s))) eqn:H1.
  2: { eexists. split; [refl|]. repeat split. }
  state_simpl. destruct (redis_ok w (S (S (redis_calls s)))) eqn:H2.
  2: { eexists. split; [refl|]. repeat split. }
  exfalso.
  destruct i as [|[|[|i]]]; [| | |lia];
    rewrite ?Nat.add_0_r, ?Nat.add_1_r in Hfail; try congruence.
  replace (redis_calls s + 2)%nat with (S (S (redis_calls s))) in Hfail by lia.
  congruence.
Qed.

(** With Redis down during the whole run the exception of the first
    transition is raised again by the handler and leaves the task; the
    stored run stays as the first update left it. *)
Lemma run_escapes_when_redis_down s row :
  (forall n, redis_ok w n = false) ->
  db_ok w (db_calls s) = true ->
  pipelines s !! pid = Some row ->
  exists s',
    run_pipeline w pid s = (Raise (Py.ExternalError redis_error), s')
    /\ pipelines s' !! pid
       = Some {| p_status := "running"; p_phases := p_phases row;
                 p_metrics := p_metrics row;
                 p_started_at := Some (clock s);
                 p_finished_at := p_finished_at row |}.
Proof.
  intros Hdown Hdb Hrow.
  unfold run_pipeline, pipeline_body, download_phase, on_error.
  unfold try_except, mbind, M_bind, modify, now.
  unfold _update_pipeline_db at 1. state_simpl. rewrite Hdb, Hrow.
  match goal with
  | |- context [_phase w pid "download" "running" "" ?S] =>
      destruct (phase_raises_on_redis_failure "download" "running" "" S)
        as (s1 & E1 & Hp1 & _);
        [exists 0%nat; split; [lia | apply Hdown]|]; rewrite E1
  end.
  cbv beta iota delta [Py.str].
  destruct (phase_raises_on_redis_failure "error" "failed" redis_error s1)
    as (s2 & E2 & Hp2 & _); [exists 0%nat; split; [lia | apply Hdown]|].
  rewrite E2. eexists. split; [refl|].
  rewrite Hp2, Hp1. state_simpl. rewrite lookup_insert_eq. refl.
Qed.

(** When the first Redis command of a run is lost and the next ones go
    through, as do the transactions on the row of the run, the run goes on
    in the handler of the task, which records the failure: the task returns
    the error of Redis whatever its phases would have done. *)
Lemma run_goes_on_in_handler s row :
  redis_ok w (redis_calls s) = false ->
  (forall i, (1 <= i <= 3)%nat -> redis_ok w (redis_calls s + i) = true) ->
  (forall i, (i < 3)%nat -> db_ok w (db_calls s + i) = true) ->
  pipelines s !! pid = Some row ->
  exists row' s',
    run_pipeline w pid s = (Ok (RunError redis_error), s')
    /\ pipelines s' !! pid = Some row'
    /\ p_status row' = "failed"
    /\ is_Some (p_finished_at row')
    /\ summary (p_phases row') = [("download", "running"); ("error", "failed")]
    /\ exists e, last (p_phases row') = Some e /\ ph_logs e = redis_error.
Proof.
  intros Hlost Hredis Hdb Hrow.
  pose proof (Hredis 1%nat ltac:(lia)) as H1.
  pose proof (Hredis 2%nat ltac:(lia)) as H2.
  pose proof (Hredis 3%nat ltac:(lia)) as H3.
  pose proof (Hdb 0%nat ltac:(lia)) as D0.
  pose proof (Hdb 1%nat ltac:(lia)) as D1.
  pose proof (Hdb 2%nat ltac:(lia)) as D2.
  rewrite Nat.add_0_r in D0. rewrite Nat.add_1_r in H1, D1.
  replace (redis_calls s + 2)%nat with (S (S (redis_calls s))) in H2 by lia.
  replace (redis_calls s + 3)%nat with (S (S (S (redis_calls s)))) in H3 by lia.
  replace (db_calls s + 2)%nat with (S (S (db_calls s))) in D2 by lia.
  unfold run_pipeline, pipeline_body, download_phase, on_error, _phase,
    _publish_phase, redis_command, _update_pipeline_db.
  unfold try_except, mbind, M_bind, modify, now, gets.
  state_simpl. rewrite D0, Hrow. state_simpl. rewrite Hlost.
  cbv beta iota delta [Py.str]. state_simpl.
  rewrite H1. state_simpl. rewrite H2. state_simpl. rewrite H3. state_simpl.
  rewrite D1. rewrite lookup_insert_eq. state_simpl.
  rewrite D2. rewrite lookup_insert_eq.
  cbv beta iota delta [mret M_ret].
  eexists _, _. split; [refl|]. state_simpl. rewrite lookup_insert_eq.
  split; [refl|]. cbn [apply_update p_status p_phases p_finished_at u_status
                        u_phases u_finished_at default from_option id].
  split; [refl|]. split; [eexists; refl|]. split; [refl|].
  eexists. split; refl.
Qed.

End broadcaster.

(** *** The session of the deploy phase, statement by statement *)

Lemma elem_of_select_active name table i :
  i ∈ select_active name table
  <-> exists d, table !! i = Some d /\ d_model_name d = name /\ d_is_active d = true.
Proof.
  unfold select_active. rewrite list_elem_of_fmap. split.
  - intros ([j d] & -> & Hin). apply list_elem_of_filter in Hin as [[Hn Ha] Hin].
    apply elem_of_lookup_imap in Hin as (k & d' & [= -> ->] & Hk).
    exists d'. repeat split; assumption.
  - intros (d & Hi & Hn & Ha). exists (i, d). split; [refl|].
    apply list_elem_of_filter. split; [split; assumption|].
    apply elem_of_lookup_imap. exists i, d. split; [refl|exact Hi].
Qed.

Lemma select_active_lt name table i :
  i ∈ select_active name table -> i < length table.
Proof.
  intros H. apply elem_of_select_active in H as (d & Hi & _).
  now apply lookup_lt_Some in Hi.
Qed.

(** With no commit in between, switching off the rows read is switching
    off the active rows of the model. *)
Lemma switch_off_rows_read name table :
  imap (fun i d => if bool_decide (i ∈ select_active name table)
                   then switch_off d else d) table
  = map (deactivate name) table.
Proof.
  apply list_eq. intros i. rewrite list_lookup_imap, list_lookup_fmap.
  destruct (table !! i) as [d|] eqn:Hi; [|refl]. cbn. f_equal.
  unfold deactivate.
  destruct (decide (d_model_name d = name /\ d_is_active d = true)) as [[Hn Ha]|Hno].
  - rewrite bool_decide_eq_true_2
      by (apply elem_of_select_active; exists d; repeat split; assumption).
    rewrite (bool_decide_eq_true_2 _ Hn), Ha. refl.
  - rewrite bool_decide_eq_false_2.
    2: { intros H. apply elem_of_select_active in H as (d' & Hi' & Hn & Ha).
         apply Hno. split; congruence. }
    destruct (decide (d_model_name d = name)) as [Hn|Hn].
    + rewrite (bool_decide_eq_true_2 _ Hn).
      destruct (d_is_active d) eqn:Ha; [exfalso; now apply Hno|refl].
    + rewrite (bool_decide_eq_false_2 _ Hn). refl.
Qed.

Lemma session_alone_promote new table :
  session_alone new table = promote new table.
Proof.
  unfold session_alone, commit_promotion, promote.
  now rewrite switch_off_rows_read.
Qed.

Lemma active_for_app name l k :
  active_for name (l ++ k) = active_for name l ++ active_for name k.
Proof. unfold active_for. apply filter_app. Qed.

Lemma active_for_none name l :
  Forall (fun d => d_model_name d = name -> d_is_active d = false) l ->
  active_for name l = [].
Proof.
  induction 1 as [|d l Hd _ IH]; [refl|].
  unfold active_for in *. rewrite filter_cons, IH.
  destruct (decide _) as [[Hn Ha]|_]; [|refl].
  rewrite (Hd Hn) in Ha. discriminate Ha.
Qed.

Lemma sessions_overlapping_active a b table :
  d_is_active a = true -> d_is_active b = true ->
  d_model_name b = d_model_name a ->
  active_for (d_model_name a) (sessions_overlapping a b table) = [a; b].
Proof.
  intros Ha Hb Hn. unfold sessions_overlapping. rewrite Hn.
  set (name := d_model_name a) in *.
  unfold commit_promotion at 2. rewrite switch_off_rows_read.
  unfold commit_promotion. rewrite imap_app, !active_for_app.
  rewrite active_for_none.
  2: { apply Forall_lookup. intros i d Hi Hd.
       rewrite list_lookup_imap, list_lookup_fmap in Hi.
       destruct (table !! i) as [d0|]; [|discriminate Hi].
       cbn in Hi. 
       assert (Hoff : d_model_name (deactivate name d0) = name ->
                      d_is_active (deactivate name d0) = false).
       { unfold deactivate. destruct (decide (d_model_name d0 = name)) as [E|E].
         - rewrite (bool_decide_eq_true_2 _ E).
           destruct (d_is_active d0) eqn:Hact; cbn; intros _; [refl|exact Hact].
         - rewrite (bool_decide_eq_false_2 _ E). cbn. intros E'. contradiction. }
       destruct (bool_decide _); injection Hi as <-; [refl|]. now apply Hoff. }
  cbn [imap]. rewrite length_map, Nat.add_0_r.
  rewrite bool_decide_eq_false_2
    by (intros H; apply select_active_lt in H; lia).
  unfold active_for. rewrite !filter_cons, !filter_nil.
  rewrite decide_True by (split; [refl|exact Ha]).
  rewrite decide_True by (split; [exact Hn|exact Hb]). refl.
Qed.

(** *** The claims *)

Lemma infra_ok_w_ok : infra_ok w_ok.
Proof. split; intros n; refl. Qed.

Lemma s0_has_p1 : pipelines s0 !! "p1" = Some queued_row.
Proof. vm_compute. refl. Qed.

Lemma w_ok_reaches_deploy :
  reaches_deploy w_ok nb_full
    {| model_name := "iris-classifier"; version := "1" |} "[]"
    (Some {[ "accuracy" := 95 # 100 ]}) "run-1".
Proof. repeat split; vm_compute; refl. Qed.

Lemma w_ok_gate_open : gate_open w_ok (Some {[ "accuracy" := 95 # 100 ]}).
Proof. split; [refl|]. vm_compute. discriminate. Qed.

(** The scenario of the test plan: accuracy 0.95 against the threshold 0.70
    with promotion enabled. *)
Example run_w_ok_result :
  (run_pipeline w_ok "p1" s0).1
  = Ok (RunSuccess {[ "accuracy" := MNum (95 # 100); "deployed" := MBool true ]}).
Proof. vm_compute. refl. Qed.

Example run_w_ok_stored :
  (fun p => (p_status p, summary (p_phases p)))
    <$> (pipelines (run_pipeline w_ok "p1" s0).2 !! "p1")
  = Some ("success",
          happy_prefix ++ [("deploy", "running"); ("deploy", "success")]).
Proof. vm_compute. refl. Qed.

Example run_w_ok_deployments :
  map (fun d => (d_model_name d, d_is_active d, d_pipeline_id d))
    (model_deployments (run_pipeline w_ok "p1" s0).2)
  = [ ("iris-classifier", false, Some "p0");
      ("iris-classifier", true, Some "p1") ].
Proof. vm_compute. refl. Qed.

Example run_w_ok_events :
  event_summary (published (run_pipeline w_ok "p1" s0).2)
  = happy_prefix
    ++ [("deploy", "running"); ("deploy", "success"); ("complete", "success")].
Proof. vm_compute. refl. Qed.

Example classify_samples :
  classify w_ok = Completed
  /\ classify w_not_found = Failed "download" "404 Not Found"
  /\ classify w_shutdown = Interrupted "download".
Proof. repeat split; vm_compute; refl. Qed.




(** C2, as amended.  In any world the deployments table after a run is
    the table before it, or that table promoted once by this run: the
    deactivation of the former active rows and the insertion of the new row
    are committed together or not at all.  A promotion leaves exactly one
    active row for the model, the new one, and every earlier row of that
    model inactive.  A deploy that succeeds on a healthy infrastructure does
    promote: the new row is for the configured model and belongs to this
    run.  This is the session of the deploy phase when no other session
    commits between its SELECT and its commit, as when runs are executed
    one at a time.  When the sessions of two deploy phases of one model
    overlap, both commit, and the two new rows are both active. *)
Theorem promotion_is_atomic_and_leaves_one_active
    (w : World) (pid : string) (s : State) :
  promoted_or_same pid (model_deployments s)
    (model_deployments (run_pipeline w pid s).2)
  /\ (forall new,
        d_is_active new = true ->
        active_for (d_model_name new) (promote new (model_deployments s)) = [new]
        /\ forall i d,
             model_deployments s !! i = Some d ->
             d_model_name d = d_model_name new ->
             exists d', promote new (model_deployments s) !! i = Some d'
                        /\ d_model_name d' = d_model_name d
                        /\ d_is_active d' = false)
  /\ (forall row nb cfg logs m rid,
        infra_ok w ->
        pipelines s !! pid = Some row ->
        reaches_deploy w nb cfg logs m rid ->
        gate_open w m ->
        deployment_succeeds w = true ->
        exists new,
          model_deployments (run_pipeline w pid s).2
          = promote new (model_deployments s)
          /\ d_model_name new = model_name cfg
          /\ d_pipeline_id new = Some pid
          /\ d_is_active new = true
          /\ active_for (model_name cfg) (model_deployments (run_pipeline w pid s).2)
             = [new])
  /\ (forall new table, promote new table = session_alone new table)
  /\ (forall a b table,
        d_is_active a = true -> d_is_active b = true ->
        d_model_name b = d_model_name a ->
        active_for (d_model_name a) (sessions_overlapping a b table) = [a; b]).
Proof.
  split; [apply run_promotes_atomically|]. split; [|split; [|split]].
  - intros new Hact. split; [now apply promote_active_unique|].
    intros i d Hi Hname. eexists. split; [exact (promote_prior new _ i d Hi)|].
    split; [|now apply deactivate_same_model].
    unfold deactivate. destruct (_ && _); refl.
  - intros row nb cfg logs m rid Hinfra Hrow Hreach Hopen Hok.
    destruct (run_with_deploy w pid Hinfra s row nb cfg logs m rid Hrow Hreach Hopen)
      as (row' & ms & s' & Hrun & _ & _ & _ & _ & _ & _ & _ & Hprom & _).
    destruct (Hprom Hok) as (new & Htable & Hname & Hpid & Hact).
    rewrite Hrun. cbn [snd]. exists new. repeat split; try assumption.
    rewrite Htable, <- Hname. now apply promote_active_unique.
  - intros new table. symmetry. apply session_alone_promote.
  - apply sessions_overlapping_active.
Qed.

Lemma promotion_is_atomic_and_leaves_one_active_witness :
  exists new,
    model_deployments (run_pipeline w_ok "p1" s0).2 = promote new [old_deployment]
    /\ d_pipeline_id new = Some "p1"
    /\ active_for "iris-classifier" (model_deployments (run_pipeline w_ok "p1" s0).2)
       = [new].
Proof.
  destruct (promotion_is_atomic_and_leaves_one_active w_ok "p1" s0)
    as (_ & _ & H & _).
  destruct (H queued_row nb_full _ _ _ _ infra_ok_w_ok s0_has_p1
              w_ok_reaches_deploy w_ok_gate_open eq_refl)
    as (new & Ht & _ & Hp & _ & Ha).
  exists new. repeat split; assumption.
Defined.

(** C2, counterexample.  Two runs of the sample notebook, p1 and p2, start
    from the table in which an earlier run has left one active row of the
    model.  Each of them alone commits its promotion.  When their sessions
    overlap, each reads that one active row before the other commits: both
    deployments succeed, and the model has two active rows. *)
Lemma overlapping_promotions_leave_two_active :
  model_deployments (run_pipeline w_ok "p1" s0).2
  = session_alone (deployment_of "p1") (model_deployments s0)
  /\ model_deployments (run_pipeline w_ok "p2" s0).2
     = session_alone (deployment_of "p2") (model_deployments s0)
  /\ active_for "iris-classifier"
       (sessions_overlapping (deployment_of "p1") (deployment_of "p2")
          (model_deployments s0))
     = [deployment_of "p1"; deployment_of "p2"]
  /\ ~ exactly_one_active "iris-classifier"
        (sessions_overlapping (deployment_of "p1") (deployment_of "p2")
           (model_deployments s0)).
Proof.
  assert (H2 : active_for "iris-classifier"
                 (sessions_overlapping (deployment_of "p1") (deployment_of "p2")
                    (model_deployments s0))
               = [deployment_of "p1"; deployment_of "p2"])
    by (vm_compute; refl).
  split; [vm_compute; refl|]. split; [vm_compute; refl|]. split; [exact H2|].
  intros [d Hd]. rewrite H2 in Hd. discriminate Hd.
Qed.


Lemma w_low_accuracy_closed : gate_closed_world w_low_accuracy.
Proof. intros m rid [= <- <-]. right. vm_compute. refl. Qed.





(** C7, as amended.  On a healthy infrastructure, a notebook that is
    downloaded and has no cell tagged [mlops:training] ends the run, when no
    shutdown is seen after the download, with the error of the validation:
    the stored status is failed, and the stored phases are download running,
    download success, validate running, and one failed entry, named error,
    with the message that lists the missing tags; the validate entry stays
    running, and no execute, register or deploy entry exists. *)
Theorem missing_training_fails_with_error_entry
    (w : World) (pid : string) (s : State) (row : Pipeline) (nb : notebook) :
  infra_ok w ->
  pipelines s !! pid = Some row ->
  download_notebook w = inr nb ->
  shutting_down w 0 = false ->
  ~ has_tag nb "mlops:training" ->
  exists row' s',
    run_pipeline w pid s
    = (Ok (RunError (missing_message (absent_tags nb))), s')
    /\ pipelines s' !! pid = Some row'
    /\ p_status row' = "failed"
    /\ is_Some (p_finished_at row')
    /\ summary (p_phases row')
       = [ ("download", "running"); ("download", "success");
           ("validate", "running"); ("error", "failed") ]
    /\ map ph_name (failed_entries row') = ["error"]
    /\ exists e, last (p_phases row') = Some e
                 /\ ph_logs e = missing_message (absent_tags nb).
Proof.
  intros Hinfra Hrow Hdl Hs0 Hmiss.
  assert (Hv : validate_required_tags nb
               = inl (Py.ValueError (missing_message (absent_tags nb)))).
  { unfold validate_required_tags.
    rewrite ParserFacts.missing_tags_absent.
    destruct (absent_tags nb) as [|t l] eqn:Ha; [|refl].
    exfalso.
    assert (Hin : "mlops:training" ∈ absent_tags nb).
    { unfold absent_tags. apply list_elem_of_filter. split; [exact Hmiss|].
      unfold REQUIRED_TAGS. set_solver. }
    rewrite Ha in Hin. inversion Hin. }
  assert (Hclass : classify w
                   = Failed "validate" (missing_message (absent_tags nb))).
  { unfold classify. rewrite Hdl, Hs0, Hv. refl. }
  destruct (run_classified w pid Hinfra s row Hrow)
    as (r & row' & s' & Hrun & Hrow' & Hfin & Hc).
  rewrite Hclass in Hc. destruct Hc as (-> & Hst & Hsum & Hlast).
  exists row', s'. repeat split; try assumption.
  unfold failed_entries.
  assert (Hgen : forall ps,
            summary ps = [ ("download", "running"); ("download", "success");
                           ("validate", "running"); ("error", "failed") ] ->
            map ph_name (filter (fun e => ph_status e = "failed") ps) = ["error"]).
  { intros [|[n1 s1 t1 l1] [|[n2 s2 t2 l2] [|[n3 s3 t3 l3] [|[n4 s4 t4 l4] [|e5 ps]]]]];
      try discriminate.
    cbn [summary map ph_name ph_status]. intros H. simplify_eq. vm_compute. refl. }
  apply Hgen. exact Hsum.
Qed.

Lemma missing_training_fails_with_error_entry_witness :
  exists row' s',
    (run_pipeline w_no_training "p1" s0).2 = s'
    /\ pipelines s' !! "p1" = Some row'
    /\ p_status row' = "failed"
    /\ map ph_name (failed_entries row') = ["error"].
Proof.
  destruct (missing_training_fails_with_error_entry w_no_training "p1" s0
              queued_row nb_no_training)
    as (row' & s' & Hrun & Hrow' & Hst & _ & _ & Hfailed & _).
  - split; intros n; refl.
  - exact s0_has_p1.
  - refl.
  - refl.
  - apply (bool_decide_eq_false_1 (has_tag nb_no_training "mlops:training")).
    vm_compute. refl.
  - exists row', s'. rewrite Hrun. repeat split; assumption.
Defined.

(** C7, counterexample.  For the sample notebook without a training
    section the one failed entry of the stored run is not named validate. *)
Lemma missing_training_failed_entry_is_not_validate :
  ~ validate_entry_failed w_no_training "p1" s0.
Proof.
  intros (row' & Hrow' & _ & Hnames).
  vm_compute in Hrow'. injection Hrow' as <-.
  vm_compute in Hnames. discriminate Hnames.
Qed.




End EngineFacts.

(** ** The model server *)

Module ServerFacts.
Import ModelServer Samples.

Ltac refl := exact eq_refl.

Example ends_with_samples :
  ends_with ".joblib" "/app/models/model/model.joblib" = true
  /\ ends_with ".joblib" "/app/models/model/MLmodel" = false
  /\ ends_with ".joblib" "job" = false.
Proof. repeat split; vm_compute; refl. Qed.

(** The artifact is a directory with a descriptor and a model file: the
    model file is loaded although it is listed second. *)
Example load_model_from_directory :
  let env :=
    {| download_artifacts := fun _ => inr "/app/models/model";
       is_dir := fun p => String.eqb p "/app/models/model";
       iterdir := fun _ => [ "/app/models/model/MLmodel";
                             "/app/models/model/model.joblib" ];
       joblib_load := fun p =>
         if String.eqb p "/app/models/model/model.joblib"
         then inr constant_model else inl "invalid file" |} in
  let out := load_model env "iris-classifier"
               {| req_mlflow_run_id := "run-2"; req_version := "2" |}
               server_with_iris in
  out.1 = inr {| message := "Model 'iris-classifier' v2 loaded successfully." |}
  /\ (fun e => (version e, request_count e, loaded_at e))
       <$> (_models out.2 !! "iris-classifier") = Some ("2", 0, 4).
Proof. split; vm_compute; refl. Qed.

Example list_models_sample :
  list_models server_with_iris
  = [ {| info_model_name := "iris-classifier"; info_version := "1";
         info_mlflow_run_id := "run-1"; info_loaded_at := 3;
         info_request_count := 7 |} ].
Proof. vm_compute. refl. Qed.

(** *** The registry stays well formed *)

Lemma registry_wf_empty : registry_wf ∅.
Proof. intros k e H. rewrite lookup_empty in H. discriminate H. Qed.

Lemma registry_wf_insert (m : gmap string _ModelEntry) k e :
  registry_wf m -> model_name e = k -> registry_wf (<[k := e]> m).
Proof.
  intros Hwf He k' e'. destruct (decide (k = k')) as [<-|Hne].
  - rewrite lookup_insert_eq. intros [= <-]. exact He.
  - rewrite lookup_insert_ne by exact Hne. apply Hwf.
Qed.

Lemma registry_wf_delete (m : gmap string _ModelEntry) k :
  registry_wf m -> registry_wf (delete k m).
Proof.
  intros Hwf k' e'. destruct (decide (k = k')) as [<-|Hne].
  - rewrite lookup_delete_eq. discriminate.
  - rewrite lookup_delete_ne by exact Hne. apply Hwf.
Qed.

Lemma load_model_wf env name body st :
  registry_wf (_models st) -> registry_wf (_models (load_model env name body st).2).
Proof.
  intros Hwf. unfold load_model. destruct (locate_and_load env body); [exact Hwf|].
  cbn [snd _models]. apply registry_wf_insert; [exact Hwf|refl].
Qed.

Lemma predict_wf name data st :
  registry_wf (_models st) -> registry_wf (_models (predict name data st).2).
Proof.
  intros Hwf. unfold predict.
  destruct (_models st !! name) as [e|] eqn:He; [|exact Hwf].
  destruct (model_predict (model e) data) as [msg|p]; [exact Hwf|].
  assert (Hwf' : registry_wf (<[name := count_request e]> (_models st))).
  { apply registry_wf_insert; [exact Hwf|]. exact (Hwf name e He). }
  destruct (to_list p); exact Hwf'.
Qed.

Lemma delete_model_wf name st :
  registry_wf (_models st) -> registry_wf (_models (delete_model name st).2).
Proof.
  intros Hwf. unfold delete_model. destruct (_models st !! name); [|exact Hwf].
  cbn [snd _models set_models]. now apply registry_wf_delete.
Qed.

(** Every state the server reaches has its entries under their own names. *)
Lemma reachable_wf env st : reachable env st -> registry_wf (_models st).
Proof.
  induction 1 as [c|st name body _ IH|st name data _ IH|st name _ IH].
  - apply registry_wf_empty.
  - now apply load_model_wf.
  - now apply predict_wf.
  - now apply delete_model_wf.
Qed.

(** *** The claims *)

(** C9.  For a name that is not in the registry, [predict] raises the
    HTTP exception 404 and returns the state it was given.  For a loaded
    model, a call that returns a response has counted one more request on
    that entry and changed nothing else in the registry, and the response
    carries the predictions of the model, the name the entry is stored
    under (which, in every reachable state, is the name stored in the
    entry) and the version stored in the entry; and the call does return a
    response whenever the model predicts and its answer can be listed. *)
Theorem predict_not_found_or_counted
    (env : Env) (st : ServerState) (name : string) (data : list (list Q)) :
  (_models st !! name = None ->
     predict name data st
     = (inl (Py.HTTPException 404 ("Model '" +:+ name +:+ "' is not loaded.")),
        st))
  /\ (forall e resp st',
        _models st !! name = Some e ->
        predict name data st = (inr resp, st') ->
        _models st' = <[name := count_request e]> (_models st)
        /\ (exists e', _models st' !! name = Some e'
                       /\ request_count e' = S (request_count e)
                       /\ model_name e' = model_name e
                       /\ version e' = version e)
        /\ (forall k, k <> name -> _models st' !! k = _models st !! k)
        /\ resp_model_name resp = name
        /\ resp_version resp = version e
        /\ (exists p, model_predict (model e) data = inr p
                      /\ to_list p = inr (resp_prediction resp))
        /\ (reachable env st -> resp_model_name resp = model_name e))
  /\ (forall e p l,
        _models st !! name = Some e ->
        model_predict (model e) data = inr p ->
        to_list p = inr l ->
        exists st',
          predict name data st
          = (inr {| resp_prediction := l; resp_model_name := name;
                    resp_version := version e |}, st')).
Proof.
  split; [|split].
  - intros Hnone. unfold predict. rewrite Hnone. refl.
  - intros e resp st' He. unfold predict. rewrite He.
    destruct (model_predict (model e) data) as [msg|p] eqn:Hp; [discriminate|].
    destruct (to_list p) as [msg|l] eqn:Hl; [discriminate|].
    intros [= <- <-]. cbn [_models set_models resp_model_name resp_version
                           resp_prediction].
    split; [refl|]. split.
    { exists (count_request e). rewrite lookup_insert_eq. repeat split. }
    split; [intros k Hk; now rewrite lookup_insert_ne by congruence|].
    split; [refl|]. split; [refl|]. split; [now exists p|].
    intros Hreach. symmetry. exact (reachable_wf env st Hreach name e He).
  - intros e p l He Hp Hl. unfold predict. rewrite He, Hp, Hl. eexists. refl.
Qed.

Lemma predict_not_found_or_counted_witness :
  predict "ghost" [[1%Q]] server_with_iris
  = (inl (Py.HTTPException 404 "Model 'ghost' is not loaded."), server_with_iris)
  /\ exists st',
       predict "iris-classifier" [[1%Q]; [2%Q]] server_with_iris
       = (inr {| resp_prediction := [0%Q; 0%Q];
                 resp_model_name := "iris-classifier";
                 resp_version := "1" |}, st')
       /\ (request_count <$> (_models st' !! "iris-classifier")) = Some 8.
Proof.
  destruct (predict_not_found_or_counted env_mlflow_down server_with_iris "ghost"
              [[1%Q]]) as (Hnone & _ & _).
  split; [apply Hnone; vm_compute; refl|].
  destruct (predict_not_found_or_counted env_mlflow_down server_with_iris
              "iris-classifier" [[1%Q]; [2%Q]]) as (_ & Hcount & Hsome).
  destruct (Hsome iris_entry (NdArray [0%Q; 0%Q]) [0%Q; 0%Q])
    as (st' & Hrun); [vm_compute; refl | refl | refl |].
  exists st'. split; [exact Hrun|].
  destruct (Hcount iris_entry _ st' ltac:(vm_compute; refl) Hrun)
    as (_ & (e' & He' & Hc & _) & _).
  rewrite He'. cbn. now rewrite Hc.
Defined.

(** C10.  [load_model] either fails, and then it raises the HTTP exception
    500 and returns the very state it was given, so that [predict], listing
    and unloading see the registry as it was, or it succeeds, and then the
    registry is the former one with the single key [name] set to the entry
    of the new model.  It fails exactly when the download, the search for a
    model file or the deserialisation raises. *)
Theorem load_model_failure_keeps_registry
    (env : Env) (name : string) (body : LoadModelRequest) (st : ServerState) :
  match load_model env name body st with
  | (inl exc, st') =>
      st' = st
      /\ (exists cause,
            locate_and_load env body = inl cause
            /\ exc = Py.HTTPException 500
                       ("Failed to load model: " +:+ Py.str cause))
      /\ (forall k data, predict k data st' = predict k data st)
      /\ list_models st' = list_models st
      /\ _models st' !! name = _models st !! name
  | (inr resp, st') =>
      exists m,
        locate_and_load env body = inr m
        /\ _models st'
           = <[name := {| model := m; model_name := name;
                          version := req_version body;
                          mlflow_run_id := req_mlflow_run_id body;
                          loaded_at := clock st; request_count := 0 |}]>
               (_models st)
        /\ (forall k, k <> name -> _models st' !! k = _models st !! k)
  end
  /\ (forall msg,
        download_artifacts env (req_mlflow_run_id body) = inl msg ->
        load_model env name body st
        = (inl (Py.HTTPException 500 ("Failed to load model: " +:+ msg)), st))
  /\ (forall path,
        download_artifacts env (req_mlflow_run_id body) = inr path ->
        is_dir env path = true ->
        iterdir env path = [] ->
        load_model env name body st
        = (inl (Py.HTTPException 500
                  ("Failed to load model: " +:+ "No model files in " +:+ path)),
           st))
  /\ (forall path msg,
        download_artifacts env (req_mlflow_run_id body) = inr path ->
        is_dir env path = false ->
        joblib_load env path = inl msg ->
        load_model env name body st
        = (inl (Py.HTTPException 500 ("Failed to load model: " +:+ msg)), st)).
Proof.
  split; [|split; [|split]].
  - unfold load_model. destruct (locate_and_load env body) as [cause|m] eqn:Hl.
    + split; [refl|]. split; [exists cause; split; refl|]. repeat split.
    + exists m. split; [refl|]. cbn [_models]. split; [refl|].
      intros k Hk. now rewrite lookup_insert_ne by congruence.
  - intros msg Hd. unfold load_model, locate_and_load. rewrite Hd. refl.
  - intros path Hd Hdir Hempty. unfold load_model, locate_and_load, glob_joblib.
    rewrite Hd, Hdir, Hempty. refl.
  - intros path msg Hd Hdir Hload. unfold load_model, locate_and_load.
    rewrite Hd, Hdir, Hload. refl.
Qed.

Lemma load_model_failure_keeps_registry_witness :
  load_model env_mlflow_down "iris-classifier"
    {| req_mlflow_run_id := "run-fail"; req_version := "2" |} server_with_iris
  = (inl (Py.HTTPException 500 "Failed to load model: MLflow down"),
     server_with_iris).
Proof.
  destruct (load_model_failure_keeps_registry env_mlflow_down "iris-classifier"
              {| req_mlflow_run_id := "run-fail"; req_version := "2" |}
              server_with_iris) as (_ & Hdown & _).
  apply (Hdown "MLflow down"). refl.
Defined.

End ServerFacts.
(** ** Texts *)

Module TextFacts.
Import NotebookParser GitHub.

Ltac refl := exact eq_refl.

Lemma length_append a b :
  String.length (a +:+ b) = String.length a + String.length b.
Proof.
  induction a as [|c a IH]; [refl|].
  change (String c a +:+ b) with (String c (a +:+ b)). cbn. now rewrite IH.
Qed.

Lemma substring_all s : substring 0 (String.length s) s = s.
Proof. induction s as [|c s IH]; [refl|]. cbn. now rewrite IH. Qed.

Lemma substring_skip a m s :
  substring (String.length a) m (a +:+ s) = substring 0 m s.
Proof.
  induction a as [|c a IH]; [refl|].
  change (String c a +:+ s) with (String c (a +:+ s)). cbn. exact IH.
Qed.

Lemma substring_split s n :
  n <= String.length s ->
  s = substring 0 n s +:+ substring n (String.length s - n) s.
Proof.
  revert n. induction s as [|c s IH]; intros n Hn.
  - destruct n; [refl | cbn in Hn; lia].
  - destruct n as [|n].
    + cbn [substring String.length Nat.sub]. now rewrite substring_all.
    + cbn [substring String.length Nat.sub].
      change (String c ?a +:+ ?b) with (String c (a +:+ b)).
      f_equal. apply IH. cbn in Hn. lia.
Qed.

(** [name.endswith(suffix)] *)
Lemma ends_with_spec suffix name :
  ModelServer.ends_with suffix name = true <-> exists stem, name = stem +:+ suffix.
Proof.
  unfold ModelServer.ends_with. split.
  - intros H. apply andb_prop in H as [Hlen Heq].
    apply Nat.leb_le in Hlen. apply String.eqb_eq in Heq.
    exists (substring 0 (String.length name - String.length suffix) name).
    pose proof (substring_split name (String.length name - String.length suffix))
      as E.
    replace (String.length name - (String.length name - String.length suffix))
      with (String.length suffix) in E by lia.
    rewrite Heq in E. apply E. lia.
  - intros [stem ->]. rewrite length_append.
    replace (String.length stem + String.length suffix - String.length suffix)
      with (String.length stem) by lia.
    rewrite substring_skip, substring_all, String.eqb_refl, andb_true_r.
    apply Nat.leb_le. lia.
Qed.

(** [s.startswith(prefix)] *)
Lemma startswith_spec prefix s :
  startswith prefix s = true <-> exists rest, s = prefix +:+ rest.
Proof.
  unfold startswith. revert s. induction prefix as [|a p IH]; intros s.
  - split; [intros _; exists s; refl | intros _; destruct s; refl].
  - destruct s as [|b s]; cbn.
    + split; [discriminate | intros [rest H]; discriminate H].
    + destruct (ascii_dec a b) as [->|Hab].
      * rewrite IH. split; intros [rest H]; exists rest.
        -- now rewrite H.
        -- change (String b p +:+ rest) with (String b (p +:+ rest)) in H.
           now injection H.
      * split; [discriminate|]. intros [rest H].
        change (String a p +:+ rest) with (String a (p +:+ rest)) in H.
        injection H as H _. congruence.
Qed.

End TextFacts.
(** ** The pipeline task in any world: what it leaves alone *)

Module EngineFramesFacts.
Import NotebookParser Engine EngineSpec EngineFrames Samples.

Ltac refl := exact eq_refl.

(** *** Relations kept by every step of a computation *)

Section kept.
Context (R : relation State) (w : World) (pid : string) `{!Kept R w pid}.

#[local] Instance kept_is_preorder : PreOrder R := @kept_preorder R w pid _.

Lemma keeps_ret {A} (a : A) : keeps R (mret a : M A).
Proof. intros s. reflexivity. Qed.

Lemma keeps_raise {A} e : keeps R (raise e : M A).
Proof. intros s. reflexivity. Qed.

Lemma keeps_gets {A} (f : State -> A) : keeps R (gets f).
Proof. intros s. reflexivity. Qed.

Lemma keeps_lift {A} (r : Py.exn + A) : keeps R (lift r).
Proof. destruct r; [apply keeps_raise | apply keeps_ret]. Qed.

Lemma keeps_external {A} (r : string + A) : keeps R (external r).
Proof. destruct r; [apply keeps_raise | apply keeps_ret]. Qed.

Lemma keeps_check_shutdown k : keeps R (check_shutdown w k).
Proof.
  unfold check_shutdown. destruct (shutting_down w k);
    [apply keeps_raise | apply keeps_ret].
Qed.

Lemma keeps_bind {A B} (m : M A) (f : A -> M B) :
  keeps R m -> (forall a, keeps R (f a)) -> keeps R (m ≫= f).
Proof.
  intros Hm Hf s. unfold mbind, M_bind.
  pose proof (Hm s) as H1. destruct (m s) as [[a|e] s1]; cbn [fst snd] in *.
  - etransitivity; [exact H1 | apply Hf].
  - exact H1.
Qed.

Lemma keeps_try {A} (body : M A) (handler : Py.exn -> option (M A)) :
  keeps R body -> (forall e h, handler e = Some h -> keeps R h) ->
  keeps R (try_except body handler).
Proof.
  intros Hb Hh s. unfold try_except.
  pose proof (Hb s) as H1. destruct (body s) as [[a|e] s1]; cbn [fst snd] in *.
  - exact H1.
  - destruct (handler e) as [h|] eqn:He; [|exact H1].
    etransitivity; [exact H1 | exact (Hh e h He s1)].
Qed.


Lemma keeps_now : keeps R now.
Proof. intros s. apply kept_clock. Qed.

Ltac keeps_step :=
  lazymatch goal with
  | |- keeps _ (mbind _ _) => apply keeps_bind; [|intros ?]
  | |- keeps _ (mret _) => apply keeps_ret
  | |- keeps _ (raise _) => apply keeps_raise
  | |- keeps _ (gets _) => apply keeps_gets
  | |- keeps _ now => apply keeps_now
  | |- keeps _ (lift _) => apply keeps_lift
  | |- keeps _ (external _) => apply keeps_external
  | |- keeps _ (check_shutdown _ _) => apply keeps_check_shutdown
  | |- keeps _ (_publish_phase _ _ _ _ _) => apply kept_publish
  | |- keeps _ (_update_pipeline_db _ _ _) => apply kept_update
  | |- keeps _ (modify (set_phases _)) => intros ?; apply kept_phases
  | |- keeps _ (modify (set_metrics _)) => intros ?; apply kept_metrics
  | |- keeps _ (modify (set_deployed _)) => intros ?; apply kept_deployed
  | |- keeps _ (modify (set_model_deployments _)) => intros ?; apply kept_deployments
  | |- keeps _ (match ?x with Some _ => _ | None => _ end) => destruct x
  | |- keeps _ (if ?b then _ else _) => destruct b
  end.

Lemma keeps_phase name st lg : keeps R (_phase w pid name st lg).
Proof. unfold _phase. repeat keeps_step. Qed.

Ltac keeps_steps := repeat first [apply keeps_phase | keeps_step].

Lemma keeps_download : keeps R (download_phase w pid).
Proof. unfold download_phase. keeps_steps. Qed.

Lemma keeps_validate nb : keeps R (validate_phase w pid nb).
Proof. unfold validate_phase. keeps_steps. Qed.

Lemma keeps_execute : keeps R (execute_phase w pid).
Proof. unfold execute_phase. keeps_steps. Qed.

Lemma keeps_register : keeps R (register_phase w pid).
Proof. unfold register_phase. keeps_steps. Qed.

Lemma keeps_deploy cfg accuracy : keeps R (deploy_phase w pid cfg accuracy).
Proof.
  unfold deploy_phase.
  repeat first
    [ apply keeps_phase
    | apply keeps_try;
        [unfold deploy_attempt, save_deployment
        |intros e h; destruct (Py.is_Exception e); intros [= <-]]
    | keeps_step ].
Qed.

Lemma keeps_mark_success : keeps R (mark_success w pid).
Proof. unfold mark_success. keeps_steps. Qed.

Lemma keeps_on_shutdown : keeps R (on_shutdown w pid).
Proof. unfold on_shutdown. keeps_steps. Qed.

Lemma keeps_on_error exc : keeps R (on_error w pid exc).
Proof. unfold on_error. keeps_steps. Qed.

Lemma keeps_body : keeps R (pipeline_body w pid).
Proof.
  unfold pipeline_body.
  repeat first
    [ apply keeps_download | apply keeps_validate | apply keeps_execute
    | apply keeps_register | apply keeps_deploy | apply keeps_mark_success
    | keeps_step ].
Qed.

Lemma keeps_run_pipeline : keeps R (run_pipeline w pid).
Proof.
  unfold run_pipeline.
  apply keeps_bind; [intros ?; apply kept_phases|intros _].
  apply keeps_bind; [intros ?; apply kept_metrics|intros _].
  apply keeps_try; [apply keeps_body|].
  intros e h Hh.
  assert (Hcases : h = on_shutdown w pid \/ h = on_error w pid e)
    by (destruct e; injection Hh as <-; auto).
  destruct Hcases as [-> | ->]; [apply keeps_on_shutdown | apply keeps_on_error].
Qed.

End kept.


(** *** The table of runs *)

#[local] Instance only_row_preorder pid : PreOrder (only_row pid).
Proof.
  split.
  - intros s. split; [intros; refl | reflexivity].
  - intros s1 s2 s3 [H1 H1'] [H2 H2']. split.
    + intros k Hk. rewrite H2, H1 by exact Hk. refl.
    + rewrite H2', H1'. reflexivity.
Qed.

Lemma only_row_same pid s s' : pipelines s' = pipelines s -> only_row pid s s'.
Proof.
  intros H. unfold only_row. rewrite H. split; [intros; refl | reflexivity].
Qed.

Lemma only_row_publish w pid name st lg :
  keeps (only_row pid) (_publish_phase w pid name st lg).
Proof.
  intros s. apply only_row_same.
  unfold _publish_phase, redis_command, now, mbind, M_bind. cbn [fst snd].
  repeat (match goal with |- context [redis_ok w ?n] => destruct (redis_ok w n) end;
          cbn [fst snd]); refl.
Qed.

Lemma only_row_update w pid u : keeps (only_row pid) (_update_pipeline_db w pid u).
Proof.
  intros s. unfold _update_pipeline_db.
  destruct (db_ok w (db_calls s)); [|apply only_row_same; refl].
  destruct (pipelines s !! pid) as [p|] eqn:Hp; [|apply only_row_same; refl].
  cbn [fst snd]. split; cbn [pipelines set_pipelines set_db_calls].
  - intros k Hk. apply lookup_insert_ne. congruence.
  - rewrite lookup_insert_eq, Hp. split; intros _; eexists; refl.
Qed.

#[local] Instance only_row_kept w pid : Kept (only_row pid) w pid.
Proof.
  split; try (intros; apply only_row_same; refl).
  - apply only_row_preorder.
  - apply only_row_publish.
  - apply only_row_update.
Qed.

Lemma run_only_row w pid : keeps (only_row pid) (run_pipeline w pid).
Proof. apply keeps_run_pipeline, only_row_kept. Qed.

(** X1.  In any world, whatever Redis, the database and the collaborators
    answer and whether the task returns or raises, [run_pipeline] changes no
    row of the table of runs but its own, and creates or deletes no row: a
    run whose row is missing leaves the whole table as it found it. *)
Theorem run_pipeline_writes_only_its_row (w : World) (pid : string) (s : State) :
  (forall k, k <> pid ->
     pipelines (run_pipeline w pid s).2 !! k = pipelines s !! k)
  /\ (is_Some (pipelines (run_pipeline w pid s).2 !! pid)
      <-> is_Some (pipelines s !! pid))
  /\ (pipelines s !! pid = None ->
      pipelines (run_pipeline w pid s).2 = pipelines s).
Proof.
  destruct (run_only_row w pid s) as [Hother Hrow].
  split; [exact Hother|]. split; [exact Hrow|].
  intros Hnone. apply map_eq. intros k. destruct (decide (k = pid)) as [->|Hk].
  - rewrite Hnone. apply eq_None_not_Some. rewrite Hrow, Hnone.
    intros [x Hx]. discriminate Hx.
  - now apply Hother.
Qed.

(** *** Redis *)

#[local] Instance only_own_events_preorder pid : PreOrder (only_own_events pid).
Proof.
  split.
  - intros s. exists [], []. rewrite !app_nil_r.
    repeat split; auto; constructor.
  - intros s1 s2 s3 (e1 & l1 & Hp1 & Ho1 & Hl1 & Hs1 & Hx1 & Hk1)
                    (e2 & l2 & Hp2 & Ho2 & Hl2 & Hs2 & Hx2 & Hk2).
    exists (e1 ++ e2), (l1 ++ l2).
    split; [rewrite Hp2, Hp1, app_assoc; refl|].
    split; [now apply Forall_app|].
    split; [rewrite Hl2, Hl1, app_assoc; refl|].
    split; [rewrite map_app; now apply sublist_app|].
    split.
    + destruct Hx2 as [Hx2|Hx2]; [rewrite Hx2; exact Hx1 | now right].
    + intros k Hk. destruct (Hk1 k Hk) as [Ha Hb], (Hk2 k Hk) as [Hc Hd].
      split; congruence.
Qed.

Lemma only_own_events_same pid s s' :
  published s' = published s -> redis_lists s' = redis_lists s ->
  redis_expiry s' = redis_expiry s -> only_own_events pid s s'.
Proof.
  intros Hp Hl Hx. exists [], []. rewrite Hp, Hl, Hx, !app_nil_r.
  repeat split; auto; constructor.
Qed.

Lemma only_own_events_publish w pid name st lg :
  keeps (only_own_events pid) (_publish_phase w pid name st lg).
Proof.
  intros s.
  pose (ev := {| ev_pipeline_id := pid; ev_phase := name; ev_status := st;
                 ev_logs := lg; ev_timestamp := clock s |}).
  assert (Hown : Forall (own_event pid) [(logs_channel pid, ev)]).
  { repeat constructor. }
  unfold _publish_phase, redis_command, now, mbind, M_bind. cbn [fst snd].
  destruct (redis_ok w _); cbn [fst snd];
    [|apply only_own_events_same; refl].
  destruct (redis_ok w _); cbn [fst snd].
  2: { exists [(logs_channel pid, ev)], []. rewrite app_nil_r.
       repeat split; auto. apply sublist_nil_l. }
  destruct (redis_ok w _); cbn [fst snd];
    exists [(logs_channel pid, ev)], [ev];
    cbn [published redis_lists redis_expiry set_published set_redis_lists
         set_redis_expiry set_redis_calls set_clock map snd];
    rewrite ?lookup_insert_eq; cbn [default];
    (split; [refl|]); (split; [exact Hown|]); (split; [refl|]);
    (split; [reflexivity|]); (split; [auto|]);
    intros k Hk; rewrite ?lookup_insert_ne by congruence; split; refl.
Qed.

Lemma only_own_events_update w pid u :
  keeps (only_own_events pid) (_update_pipeline_db w pid u).
Proof.
  intros s. apply only_own_events_same; unfold _update_pipeline_db;
    destruct (db_ok w (db_calls s)); try destruct (pipelines s !! pid); refl.
Qed.

#[local] Instance only_own_events_kept w pid : Kept (only_own_events pid) w pid.
Proof.
  split; try (intros; apply only_own_events_same; refl).
  - apply only_own_events_preorder.
  - apply only_own_events_publish.
  - apply only_own_events_update.
Qed.

Lemma run_only_own_events w pid : keeps (only_own_events pid) (run_pipeline w pid).
Proof. apply keeps_run_pipeline, only_own_events_kept. Qed.

(** X2.  In any world, everything a run publishes is an event of that run
    on the channel of that run; the list Redis keeps for late joiners grows
    only by payloads that were published, in the order of their publication;
    its expiry is left as it was or set to one day; and no list or expiry of
    another key is touched. *)
Theorem run_pipeline_redis_footprint (w : World) (pid : string) (s : State) :
  exists evs l,
    published (run_pipeline w pid s).2 = published s ++ evs
    /\ Forall (fun x => x.1 = "pipeline:" +:+ pid +:+ ":logs"
                        /\ ev_pipeline_id x.2 = pid) evs
    /\ default [] (redis_lists (run_pipeline w pid s).2 !! phases_key pid)
       = default [] (redis_lists s !! phases_key pid) ++ l
    /\ sublist l (map snd evs)
    /\ (redis_expiry (run_pipeline w pid s).2 !! phases_key pid
        = redis_expiry s !! phases_key pid
        \/ redis_expiry (run_pipeline w pid s).2 !! phases_key pid = Some 86400%N)
    /\ (forall k, k <> "pipeline:" +:+ pid +:+ ":phases" ->
          redis_lists (run_pipeline w pid s).2 !! k = redis_lists s !! k
          /\ redis_expiry (run_pipeline w pid s).2 !! k = redis_expiry s !! k).
Proof. exact (run_only_own_events w pid s). Qed.

(** *** The list of the run in Redis, when Redis answers *)

#[local] Instance mirrored_preorder pid : PreOrder (mirrored pid).
Proof.
  split.
  - intros s. exists []. cbn [map]. rewrite !app_nil_r.
    repeat split; auto. intros H. now contradiction H.
  - intros s1 s2 s3 (e1 & Hp1 & Hl1 & Hn1 & Hx1) (e2 & Hp2 & Hl2 & Hn2 & Hx2).
    exists (e1 ++ e2).
    split; [rewrite Hp2, Hp1, map_app, app_assoc; refl|].
    split; [rewrite Hl2, Hl1, app_assoc; refl|].
    split.
    + intros H. apply app_eq_nil in H as [-> ->]. rewrite Hn2, Hn1; auto.
    + intros H. destruct e2 as [|x e2].
      * rewrite Hn2 by refl. apply Hx1. now rewrite app_nil_r in H.
      * now apply Hx2.
Qed.

Lemma mirrored_same pid s s' :
  published s' = published s -> redis_lists s' = redis_lists s ->
  redis_expiry s' = redis_expiry s -> mirrored pid s s'.
Proof.
  intros Hp Hl Hx. exists []. cbn [map]. rewrite Hp, Hl, Hx, !app_nil_r.
  repeat split; auto. intros H. now contradiction H.
Qed.

Lemma mirrored_publish w pid name st lg :
  infra_ok w -> keeps (mirrored pid) (_publish_phase w pid name st lg).
Proof.
  intros [Hr _] s.
  unfold _publish_phase, redis_command, now, mbind, M_bind. cbn [fst snd].
  rewrite !Hr. cbn [fst snd].
  eexists [_].
  cbn [published redis_lists redis_expiry set_published set_redis_lists
       set_redis_expiry set_redis_calls set_clock map].
  rewrite !lookup_insert_eq. cbn [default].
  split; [refl|]. split; [refl|]. split; [discriminate|]. intros _. refl.
Qed.

Lemma mirrored_kept w pid : infra_ok w -> Kept (mirrored pid) w pid.
Proof.
  intros Hinfra. split; try (intros; apply mirrored_same; refl).
  - apply mirrored_preorder.
  - intros. now apply mirrored_publish.
  - intros u s. apply mirrored_same; unfold _update_pipeline_db;
      destruct (db_ok w (db_calls s)); try destruct (pipelines s !! pid); refl.
Qed.

Lemma run_mirrored w pid : infra_ok w -> keeps (mirrored pid) (run_pipeline w pid).
Proof. intros H. apply keeps_run_pipeline, mirrored_kept, H. Qed.

(** *** What is stored when the task returns *)

Section returned.
Context (w : World) (pid : string).

Lemma has_row_only_row s s' : has_row pid s -> only_row pid s s' -> has_row pid s'.
Proof. intros H [_ Hrow]. now apply Hrow. Qed.

Lemma ends_of_keeps {A} (m : M A) :
  keeps (only_row pid) m -> ends (has_row pid) (fun _ s => has_row pid s) m.
Proof.
  intros Hk s Hs. pose proof (has_row_only_row s _ Hs (Hk s)) as H.
  destruct (m s) as [[a|e] s']; exact H.
Qed.

Lemma ends_bind {A B} (G : B -> State -> Prop) (m : M A) (f : A -> M B) :
  ends (has_row pid) (fun _ s => has_row pid s) m ->
  (forall a, ends (has_row pid) G (f a)) ->
  ends (has_row pid) G (m ≫= f).
Proof.
  intros Hm Hf s Hs. unfold mbind, M_bind. specialize (Hm s Hs).
  destruct (m s) as [[a|e] s1]; [exact (Hf a s1 Hm) | exact Hm].
Qed.

Lemma ends_try {A} (G : A -> State -> Prop) (body : M A)
    (handler : Py.exn -> option (M A)) :
  ends (has_row pid) G body ->
  (forall e h, handler e = Some h -> ends (has_row pid) G h) ->
  ends (has_row pid) G (try_except body handler).
Proof.
  intros Hb Hh s Hs. unfold try_except. specialize (Hb s Hs).
  destruct (body s) as [[a|e] s1]; [exact Hb|].
  destruct (handler e) as [h|] eqn:He; [exact (Hh e h He s1 Hb) | exact Hb].
Qed.

(** A publication touches Redis and the clock only. *)
Lemma publish_locals name st lg s :
  pipelines (_publish_phase w pid name st lg s).2 = pipelines s
  /\ phases (_publish_phase w pid name st lg s).2 = phases s
  /\ metrics (_publish_phase w pid name st lg s).2 = metrics s
  /\ deployed (_publish_phase w pid name st lg s).2 = deployed s.
Proof.
  unfold _publish_phase, redis_command, now, mbind, M_bind. cbn [fst snd].
  repeat (match goal with |- context [redis_ok w ?n] => destruct (redis_ok w n) end;
          cbn [fst snd]); repeat split.
Qed.

(** An update of the row touches the table of runs only. *)
Lemma update_locals u s :
  phases (_update_pipeline_db w pid u s).2 = phases s
  /\ metrics (_update_pipeline_db w pid u s).2 = metrics s
  /\ deployed (_update_pipeline_db w pid u s).2 = deployed s.
Proof.
  unfold _update_pipeline_db.
  destruct (db_ok w (db_calls s)); [destruct (pipelines s !! pid)|]; repeat split.
Qed.

(** An update that returns has written the row, when there is one. *)
Lemma update_returns u s s' row :
  pipelines s !! pid = Some row ->
  _update_pipeline_db w pid u s = (Ok tt, s') ->
  pipelines s' !! pid = Some (apply_update u row)
  /\ phases s' = phases s /\ metrics s' = metrics s /\ deployed s' = deployed s.
Proof.
  intros Hrow. unfold _update_pipeline_db. rewrite Hrow.
  destruct (db_ok w (db_calls s)); [|discriminate].
  intros [= <-]. cbn [pipelines set_pipelines set_db_calls].
  rewrite lookup_insert_eq. repeat split.
Qed.

(** [_phase] appends its entry to the list of the task, whether it returns
    or raises, and leaves the other local variables alone. *)
Lemma phase_locals name st lg s :
  phases (_phase w pid name st lg s).2
  = phases s ++ [mk_entry name st lg (clock s)]
  /\ metrics (_phase w pid name st lg s).2 = metrics s
  /\ deployed (_phase w pid name st lg s).2 = deployed s.
Proof.
  unfold _phase, now, modify, gets, mbind, M_bind. cbn [fst snd].
  match goal with
  | |- context [_publish_phase w pid name st lg ?s1] =>
      destruct (publish_locals name st lg s1) as (_ & Hp & Hm & Hd);
      destruct (_publish_phase w pid name st lg s1) as [[[]|e] s2]
  end; cbn [fst snd] in *.
  - match goal with
    | |- context [_update_pipeline_db w pid ?u s2] =>
        destruct (update_locals u s2) as (Hp' & Hm' & Hd')
    end.
    rewrite Hp', Hm', Hd', Hp, Hm, Hd. repeat split.
  - rewrite Hp, Hm, Hd. repeat split.
Qed.

Lemma ends_mark_success :
  ends (has_row pid) (stored_as_returned pid) (mark_success w pid).
Proof.
  intros s [row Hrow].
  unfold mark_success, gets, modify, now, mbind, M_bind, mret, M_ret.
  cbn [fst snd].
  match goal with
  | |- context [_update_pipeline_db w pid ?u ?s1] =>
      pose proof (update_returns u s1) as Hu;
      pose proof (only_row_update w pid u s1) as Hk;
      destruct (_update_pipeline_db w pid u s1) as [[[]|e] s2]
  end; cbn [fst snd] in *.
  2: { eapply has_row_only_row; [|exact Hk]. now exists row. }
  destruct (Hu s2 row Hrow eq_refl) as (Hrow2 & Hp2 & Hm2 & Hd2). clear Hu Hk.
  match goal with
  | |- context [_publish_phase w pid ?n ?st ?lg s2] =>
      destruct (publish_locals n st lg s2) as (Hpi & Hp3 & Hm3 & Hd3);
      destruct (_publish_phase w pid n st lg s2) as [[[]|e] s3]
  end; cbn [fst snd] in *.
  2: { unfold has_row. rewrite Hpi, Hrow2. eexists; refl. }
  eexists. rewrite Hpi. split; [exact Hrow2|].
  cbn [apply_update p_phases p_status p_metrics p_finished_at u_phases u_status
       u_metrics u_finished_at default from_option].
  rewrite Hp3, Hp2, Hm3, Hm2, Hd3, Hd2.
  cbn [phases metrics deployed set_metrics set_clock].
  split; [refl|]. split; [eexists; refl|].
  split; [refl|]. split; [refl|]. apply lookup_insert_eq.
Qed.

Lemma ends_on_shutdown :
  ends (has_row pid) (stored_as_returned pid) (on_shutdown w pid).
Proof.
  intros s [row Hrow].
  unfold on_shutdown, gets, modify, now, mbind, M_bind, mret, M_ret.
  cbn [fst snd].
  match goal with
  | |- context [_update_pipeline_db w pid ?u ?s1] =>
      pose proof (update_returns u s1) as Hu;
      pose proof (only_row_update w pid u s1) as Hk;
      destruct (_update_pipeline_db w pid u s1) as [[[]|e] s2]
  end; cbn [fst snd] in *.
  2: { eapply has_row_only_row; [|exact Hk]. now exists row. }
  destruct (Hu s2 row Hrow eq_refl) as (Hrow2 & Hp2 & Hm2 & Hd2). clear Hu Hk.
  match goal with
  | |- context [_publish_phase w pid ?n ?st ?lg s2] =>
      destruct (publish_locals n st lg s2) as (Hpi & Hp3 & Hm3 & Hd3);
      destruct (_publish_phase w pid n st lg s2) as [[[]|e] s3]
  end; cbn [fst snd] in *.
  2: { unfold has_row. rewrite Hpi, Hrow2. eexists; refl. }
  eexists. rewrite Hpi. split; [exact Hrow2|].
  cbn [apply_update p_phases p_status p_metrics p_finished_at u_phases u_status
       u_metrics u_finished_at default from_option].
  rewrite Hp3, Hp2. cbn [phases set_clock].
  split; [refl|]. split; [eexists; refl|]. refl.
Qed.

Lemma ends_on_error exc :
  ends (has_row pid)
    (fun r s => r = RunError (Py.str exc) /\ stored_as_returned pid r s)
    (on_error w pid exc).
Proof.
  intros s Hs.
  unfold on_error, gets, modify, now, mbind, M_bind, mret, M_ret.
  destruct (phase_locals "error" "failed" (Py.str exc) s) as (Hp1 & Hm1 & Hd1).
  pose proof (has_row_only_row s _ Hs
                (keeps_phase (only_row pid) w pid "error" "failed" (Py.str exc) s))
    as Hs1.
  destruct (_phase w pid "error" "failed" (Py.str exc) s) as [[[]|e] s1];
    cbn [fst snd] in *; [|exact Hs1].
  destruct Hs1 as [row Hrow].
  match goal with
  | |- context [_update_pipeline_db w pid ?u ?s2] =>
      pose proof (update_returns u s2) as Hu;
      pose proof (only_row_update w pid u s2) as Hk;
      destruct (_update_pipeline_db w pid u s2) as [[[]|e] s3]
  end; cbn [fst snd] in *.
  2: { eapply has_row_only_row; [|exact Hk]. now exists row. }
  destruct (Hu s3 row Hrow eq_refl) as (Hrow3 & Hp3 & Hm3 & Hd3). clear Hu Hk.
  split; [refl|]. eexists. split; [exact Hrow3|].
  cbn [apply_update p_phases p_status p_metrics p_finished_at u_phases u_status
       u_metrics u_finished_at default from_option].
  rewrite Hp3, Hm3. cbn [phases metrics set_clock].
  split; [refl|]. split; [eexists; refl|].
  split; [refl|]. split; [refl|].
  unfold id. rewrite Hp1, last_snoc. eexists. split; [refl|]. repeat split.
Qed.

Lemma ends_body :
  ends (has_row pid) (stored_as_returned pid) (pipeline_body w pid).
Proof.
  unfold pipeline_body.
  repeat (apply ends_bind;
          [apply ends_of_keeps;
           first [ apply (keeps_now _ w pid) | apply kept_update
                 | apply keeps_download | apply keeps_validate
                 | apply keeps_execute | apply keeps_register
                 | apply keeps_deploy | apply (keeps_check_shutdown _ w pid) ];
           apply only_row_kept
          |intros ?]).
  apply ends_mark_success.
Qed.

(** Whenever the task returns, in whatever world, the stored row says what
    the task returns. *)
Lemma run_returns_stored s r s' :
  has_row pid s ->
  run_pipeline w pid s = (Ok r, s') ->
  stored_as_returned pid r s'.
Proof.
  intros Hs Hrun.
  assert (He : ends (has_row pid) (stored_as_returned pid)
            (try_except (pipeline_body w pid)
               (fun exc =>
                  match exc with
                  | Py.SystemExit _ => Some (on_shutdown w pid)
                  | _ => Some (on_error w pid exc)
                  end))).
  { apply ends_try; [apply ends_body|].
    intros e h Hh.
    assert (Hcases : h = on_shutdown w pid \/ h = on_error w pid e)
      by (destruct e; injection Hh as <-; auto).
    destruct Hcases as [-> | ->]; [apply ends_on_shutdown|].
    intros s1 Hs1. pose proof (ends_on_error e s1 Hs1) as H.
    destruct (on_error w pid e s1) as [[a|e'] s2]; [apply H | exact H]. }
  unfold run_pipeline, mbind, M_bind, modify in Hrun. cbn [fst snd] in Hrun.
  match type of Hrun with
  | try_except _ _ ?s1 = _ => specialize (He s1 Hs)
  end.
  rewrite Hrun in He. exact He.
Qed.

End returned.

(** X3.  In any world, whatever fails on the way: when the row of the run
    exists and [run_pipeline] returns (rather than raises), the stored run
    agrees with the value returned.  The stored phases are the whole list of
    the task and the run has a [finished_at]; a returned success is stored
    as status success with the returned metrics, which hold the boolean
    deployed; a returned shutdown or error is stored as status failed, and
    for an error the last stored entry is the failed entry named error that
    carries the returned message. *)
Theorem returned_result_is_stored
    (w : World) (pid : string) (s s' : State) (r : RunResult) :
  is_Some (pipelines s !! pid) ->
  run_pipeline w pid s = (Ok r, s') ->
  exists row,
    pipelines s' !! pid = Some row
    /\ p_phases row = phases s'
    /\ is_Some (p_finished_at row)
    /\ match r with
       | RunSuccess ms =>
           p_status row = "success" /\ p_metrics row = ms
           /\ exists b, ms !! "deployed" = Some (MBool b)
       | RunShutdown => p_status row = "failed"
       | RunError msg =>
           p_status row = "failed"
           /\ exists e, last (p_phases row) = Some e
                        /\ ph_name e = "error" /\ ph_status e = "failed"
                        /\ ph_logs e = msg
       end.
Proof.
  intros Hs Hrun.
  destruct (run_returns_stored w pid s r s' Hs Hrun)
    as (row & Hrow & Hp & Hf & Hr).
  exists row. repeat (split; [assumption|]).
  destruct r as [ms| |msg].
  - destruct Hr as (Hst & Hm & Hd). repeat (split; [assumption|]). eauto.
  - exact Hr.
  - destruct Hr as (Hst & _ & He). split; assumption.
Qed.

(** One publication is lost in a run that would otherwise succeed: the task
    returns the error of Redis and the store says failed. *)
Lemma returned_result_is_stored_witness :
  exists s' row,
    run_pipeline w_one_publish_lost "p1" s0
    = (Ok (RunError "redis.exceptions.ConnectionError"), s')
    /\ pipelines s' !! "p1" = Some row
    /\ p_status row = "failed"
    /\ p_phases row = phases s'.
Proof.
  exists (run_pipeline w_one_publish_lost "p1" s0).2.
  destruct (returned_result_is_stored w_one_publish_lost "p1" s0
              (run_pipeline w_one_publish_lost "p1" s0).2
              (RunError "redis.exceptions.ConnectionError"))
    as (row & Hrow & Hp & _ & Hst & _).
  - vm_compute. eexists. refl.
  - vm_compute. refl.
  - exists row. split; [vm_compute; refl|]. repeat split; assumption.
Defined.

End EngineFramesFacts.
(** ** The pipeline task on a healthy infrastructure: events and result *)

Module EngineRunsFacts.
Import NotebookParser Engine EngineSpec EngineFrames Samples EngineFacts
  EngineFramesFacts.

Lemma obs_any pid s :
  obs pid s
  = {| o_phases := phases s; o_metrics := metrics s; o_deployed := deployed s;
       o_row := pipelines s !! pid; o_deployments := model_deployments s;
       o_published := published s; o_clock := clock s |}.
Proof. refl. Qed.

Lemma snoc_event_start l x : snoc_event l x = l ++ snoc_event [] x.
Proof. refl. Qed.

Lemma snoc_event_chain l a x : snoc_event (l ++ a) x = l ++ snoc_event a x.
Proof. unfold snoc_event. symmetry. apply app_assoc. Qed.

Lemma snoc_event_unfold l x : snoc_event l x = l ++ [x].
Proof. refl. Qed.

#[local] Opaque publish_effect update_effect phase_effect obs snoc_event.

Lemma infra_ok_w_shutdown : infra_ok w_shutdown.
Proof. split; intros n; refl. Qed.

Section healthy.
Context (w : World) (pid : string) (Hinfra : infra_ok w).

Ltac run1 :=
  first
    [ rewrite (_phase_ok w pid Hinfra)
    | rewrite (_publish_phase_ok w pid Hinfra)
    | rewrite (_update_pipeline_db_ok w pid Hinfra)
    | rewrite metrics_accuracy_read
    | progress cbv beta iota delta
        [mbind M_bind mret M_ret gets modify now raise lift external
         try_except check_shutdown Py.is_Exception Py.str fst snd]
    | read_obs
    | abstract_state
    | progress use_hyps ].
Ltac run := repeat run1.

Ltac unfold_task :=
  unfold run_pipeline, pipeline_body, download_phase, validate_phase,
    execute_phase, register_phase, deploy_phase, deploy_attempt,
    save_deployment, mark_success, on_error, on_shutdown.

Ltac row_simpl :=
  cbn [p_status p_phases p_metrics p_started_at p_finished_at
       summary event_summary map app ph_name ph_status ph_logs
       ev_phase ev_status fst snd].

(** The events of a run, once the final state is observed. *)
Ltac events s :=
  repeat read_obs;
  rewrite (snoc_event_start (published s)), ?snoc_event_chain;
  eexists; split; [refl|];
  rewrite ?snoc_event_unfold;
  cbn [event_summary summary map app ph_name ph_status ev_phase ev_status fst snd];
  refl.

Ltac finish s :=
  (eexists _, _; split; [refl|]); split; [events s|].

(** What the closing event of a run is. *)
Lemma run_events_classified s :
  exists r s',
    run_pipeline w pid s = (Ok r, s')
    /\ (exists evs,
          published s' = published s ++ evs
          /\ event_summary evs
             = summary (phases s')
               ++ match r with
                  | RunSuccess _ => [("complete", "success")]
                  | RunShutdown => [("shutdown", "failed")]
                  | RunError _ => []
                  end)
    /\ match classify w with
       | Failed ph msg =>
           r = RunError msg
           /\ summary (phases s') = trace PHASE_ORDER ph false ++ [("error", "failed")]
       | Interrupted ph =>
           r = RunShutdown /\ summary (phases s') = trace PHASE_ORDER ph true
       | Completed =>
           (exists ms, r = RunSuccess ms)
           /\ exists tail, summary (phases s') = happy_prefix ++ tail
                           /\ Forall (fun x => x.1 = "deploy") tail
       end.
Proof.
  pose proof (obs_any pid s) as Hobs.
  generalize dependent (pipelines s !! pid). intros orow Hobs.
  destruct (download_notebook w) as [msg|nb] eqn:Hdl.
  { unfold classify. rewrite Hdl. unfold_task. run. finish s.
    repeat read_obs. row_simpl. split; refl. }
  destruct (shutting_down w 0) eqn:Hs0.
  { unfold classify. rewrite Hdl, Hs0. unfold_task. run. finish s.
    repeat read_obs. row_simpl. split; refl. }
  destruct (validate_required_tags nb) as [e|[]] eqn:Hv.
  { destruct (validate_raises nb e Hv) as [msg ->].
    unfold classify. rewrite Hdl, Hs0, Hv. unfold_task. run. finish s.
    repeat read_obs. row_simpl. split; refl. }
  destruct (extract_config nb) as [e|cfg] eqn:Hc.
  { destruct (extract_raises nb e Hc) as [msg ->].
    unfold classify. rewrite Hdl, Hs0, Hv, Hc. unfold_task. run. finish s.
    repeat read_obs. row_simpl. split; refl. }
  destruct (shutting_down w 1) eqn:Hs1.
  { unfold classify. rewrite Hdl, Hs0, Hv, Hc, Hs1. unfold_task. run. finish s.
    repeat read_obs. row_simpl. split; refl. }
  destruct (execute_notebook w) as [msg|logs] eqn:He.
  { unfold classify. rewrite Hdl, Hs0, Hv, Hc, Hs1, He. unfold_task. run.
    finish s. repeat read_obs. row_simpl. split; refl. }
  destruct (shutting_down w 2) eqn:Hs2.
  { unfold classify. rewrite Hdl, Hs0, Hv, Hc, Hs1, He, Hs2. unfold_task. run.
    finish s. repeat read_obs. row_simpl. split; refl. }
  destruct (mlflow_register w) as [msg|[m rid]] eqn:Hg.
  { unfold classify. rewrite Hdl, Hs0, Hv, Hc, Hs1, He, Hs2, Hg. unfold_task.
    run. finish s. repeat read_obs. row_simpl. split; refl. }
  unfold classify. rewrite Hdl, Hs0, Hv, Hc, Hs1, He, Hs2, Hg.
  destruct (deploy_condition w (extracted_accuracy m)) eqn:Hcond.
  - unfold_task. run.
    destruct (model_server_load w) as [msg|] eqn:Hload;
      [|destruct (deployment_commit w) as [msg|] eqn:Hcommit]; run;
      finish s; repeat read_obs; row_simpl;
      (split; [eexists; refl|]); eexists; (split; [refl|]);
      repeat constructor.
  - unfold_task. run. finish s. repeat read_obs. row_simpl.
    split; [eexists; refl|]. exists []. split; [refl|constructor].
Qed.

End healthy.

(** The entries of a run are named after the phases, or error. *)
Lemma trace_names order ph closed :
  Forall (fun x => x.1 ∈ order) (trace order ph closed).
Proof.
  induction order as [|p rest IH]; [constructor|]. cbn [trace].
  destruct (String.eqb p ph).
  - constructor; [cbn; left|]. destruct closed; repeat constructor.
  - constructor; [cbn; left|]. constructor; [cbn; left|].
    eapply Forall_impl; [exact IH|]. intros x Hx. now right.
Qed.

Lemma trace_nonempty ph closed : trace PHASE_ORDER ph closed <> [].
Proof. unfold PHASE_ORDER. cbn [trace]. destruct (String.eqb _ _); discriminate. Qed.

Lemma phase_names_not_closing (l : list (string * string)) :
  Forall (fun x => x.1 ∈ PHASE_ORDER ++ ["deploy"; "error"]) l ->
  Forall (fun x => x.1 <> "complete" /\ x.1 <> "shutdown") l.
Proof.
  intros H. eapply Forall_impl; [exact H|]. intros [a b] Hx.
  cbn [fst] in *. unfold PHASE_ORDER in Hx. cbn [app] in Hx.
  split; intros ->;
    repeat (apply elem_of_cons in Hx as [Hx|Hx]; [discriminate Hx|]);
    inversion Hx.
Qed.

(** The events of a run on a healthy infrastructure, as the handlers of
    the API that replay or forward them need them. *)
Lemma run_events_trace (w : World) (pid : string) (s : State) :
  infra_ok w ->
  exists r s' evs,
    run_pipeline w pid s = (Ok r, s')
    /\ published s' = published s ++ evs
    /\ event_summary evs
       = summary (phases s')
         ++ match r with
            | RunSuccess _ => [("complete", "success")]
            | RunShutdown => [("shutdown", "failed")]
            | RunError _ => []
            end
    /\ Forall (fun x => x.1 <> "complete" /\ x.1 <> "shutdown") (summary (phases s'))
    /\ phases s' <> []
    /\ ((exists ms, r = RunSuccess ms) <-> classify w = Completed).
Proof.
  intros Hinfra.
  destruct (run_events_classified w pid Hinfra s)
    as (r & s' & Hrun & (evs & Hpub & Hev) & Hclass).
  exists r, s', evs. split; [exact Hrun|]. split; [exact Hpub|].
  split; [exact Hev|].
  assert (Hin : forall ph b, Forall (fun x => x.1 ∈ PHASE_ORDER ++ ["deploy"; "error"])
                               (trace PHASE_ORDER ph b)).
  { intros ph b. eapply Forall_impl; [apply trace_names|].
    intros x Hx. apply elem_of_app. now left. }
  assert (Hne : forall l : list PhaseEntry, summary l <> [] -> l <> []).
  { intros l H ->. now apply H. }
  destruct (classify w) as [ph msg|ph|].
  - destruct Hclass as (-> & Hsum). rewrite Hsum. split; [|split].
    + apply phase_names_not_closing, Forall_app. split; [apply Hin|].
      apply Forall_singleton. cbn [fst]. unfold PHASE_ORDER. set_solver.
    + apply Hne. rewrite Hsum. intros H. apply app_eq_nil in H as [_ H].
      discriminate H.
    + split; [intros [ms H]; discriminate H | discriminate].
  - destruct Hclass as (-> & Hsum). rewrite Hsum. split; [|split].
    + apply phase_names_not_closing, Hin.
    + apply Hne. rewrite Hsum. apply trace_nonempty.
    + split; [intros [ms H]; discriminate H | discriminate].
  - destruct Hclass as ((ms & ->) & tail & Hsum & Htail). rewrite Hsum.
    split; [|split].
    + apply phase_names_not_closing, Forall_app. split; [apply Hin|].
      eapply Forall_impl; [exact Htail|]. intros x ->.
      unfold PHASE_ORDER. set_solver.
    + apply Hne. rewrite Hsum. intros H. apply app_eq_nil in H as [H _].
      revert H. apply trace_nonempty.
    + split; [reflexivity | intros _; now exists ms].
Qed.



End EngineRunsFacts.
(** ** The pipelines router *)

Module PipelinesRouterFacts.
Import NotebookParser Engine EngineSpec EngineFrames Samples MoreSamples PipelinesRouter.

Ltac refl := exact eq_refl.

(** *** Stored logs *)

(** X5.  On a healthy infrastructure the list Redis keeps for the run grows,
    during the run, by exactly the payloads the run publishes, in order, and
    its expiry becomes one day; so [get_pipeline_logs] after the run answers
    with the logs held before the run followed by every event a live
    subscriber was sent.  When the row of the run is missing the task runs
    and publishes all the same, and [get_pipeline_logs] answers 404. *)
Theorem get_pipeline_logs_replays_the_run (w : World) (pid : string) (s : State) :
  infra_ok w ->
  exists r s' evs,
    run_pipeline w pid s = (Ok r, s')
    /\ evs <> []
    /\ published s' = published s ++ map (fun ev => (logs_channel pid, ev)) evs
    /\ redis_lists s' !! phases_key pid
       = Some (default [] (redis_lists s !! phases_key pid) ++ evs)
    /\ redis_expiry s' !! phases_key pid = Some 86400%N
    /\ (is_Some (pipelines s !! pid) ->
        get_pipeline_logs true pid s'
        = inr {| logs_pipeline_id := pid;
                 logs := default [] (redis_lists s !! phases_key pid) ++ evs |})
    /\ (pipelines s !! pid = None ->
        get_pipeline_logs true pid s'
        = inl (Py.HTTPException 404 ("Pipeline " +:+ pid +:+ " not found."))).
Proof.
  intros Hinfra.
  destruct (EngineRunsFacts.run_events_trace w pid s Hinfra)
    as (r & s' & evs' & Hrun & Hpub' & Hev & _ & Hne & _).
  pose proof (EngineFramesFacts.run_mirrored w pid Hinfra s) as Hm.
  pose proof (EngineFramesFacts.run_only_row w pid s) as [_ Hrow].
  rewrite Hrun in Hm, Hrow. cbn [snd] in Hm, Hrow.
  destruct Hm as (evs & Hpub & Hlist & _ & Hexp).
  assert (Hevs : evs <> []).
  { intros ->. cbn [map] in Hpub. rewrite app_nil_r in Hpub.
    rewrite Hpub in Hpub'. symmetry in Hpub'.
    rewrite <- (app_nil_r (published s)) in Hpub' at 2.
    apply app_inv_head in Hpub'. subst evs'. cbn in Hev.
    destruct (phases s') as [|e l]; [now apply Hne|].
    cbn in Hev. discriminate Hev. }
  assert (Hsome : redis_lists s' !! phases_key pid
                  = Some (default [] (redis_lists s !! phases_key pid) ++ evs)).
  { destruct (redis_lists s' !! phases_key pid) as [l|] eqn:Hl.
    - change (default [] (Some l)) with l in Hlist. now rewrite Hlist.
    - change (default [] (@None (list Event))) with (@nil Event) in Hlist.
      symmetry in Hlist. apply app_eq_nil in Hlist as [_ Hlist]. contradiction. }
  exists r, s', evs. split; [exact Hrun|]. split; [exact Hevs|].
  split; [exact Hpub|]. split; [exact Hsome|]. split; [now apply Hexp|].
  unfold get_pipeline_logs. split.
  - intros Hs. apply Hrow in Hs as [row' Hrow']. rewrite Hrow', Hsome. refl.
  - intros Hnone. destruct (pipelines s' !! pid) as [row'|] eqn:Hrow'; [|refl].
    exfalso. assert (Hs : is_Some (pipelines s !! pid)) by (apply Hrow; eauto).
    rewrite Hnone in Hs. destruct Hs as [x Hx]. discriminate Hx.
Qed.

Lemma get_pipeline_logs_replays_the_run_witness :
  exists r s' evs,
    run_pipeline w_not_found "p1" s0 = (Ok r, s')
    /\ evs <> []
    /\ get_pipeline_logs true "p1" s'
       = inr {| logs_pipeline_id := "p1"; logs := evs |}.
Proof.
  destruct (get_pipeline_logs_replays_the_run w_not_found "p1" s0)
    as (r & s' & evs & Hrun & Hne & _ & _ & _ & Hlogs & _);
    [split; intros n; refl|].
  exists r, s', evs. split; [exact Hrun|]. split; [exact Hne|].
  apply Hlogs. vm_compute. eauto.
Defined.

(** *** The WebSocket endpoint *)

Lemma ws_loop_spec connected k polls :
  (ws_loop connected k polls).1 `prefix_of` messages polls
  /\ ((ws_loop connected k polls).2 = WsComplete
      <-> exists d, last (ws_loop connected k polls).1 = Some d
                    /\ is_complete d = true)
  /\ (forall i d, (ws_loop connected k polls).1 !! i = Some d ->
                  is_complete d = true ->
                  S i = length (ws_loop connected k polls).1).
Proof.
  revert k. induction polls as [|p rest IH]; intros k.
  - cbn. split; [reflexivity|]. split.
    + split; [discriminate | intros (d & H & _); discriminate H].
    + intros i d H. discriminate H.
  - destruct p as [|[ev|text]|]; cbn [ws_loop messages omap].
    + apply IH.
    + destruct (connected k).
      2: { cbn. split; [apply prefix_nil|]. split.
           - split; [discriminate | intros (d & H & _); discriminate H].
           - intros i d H. discriminate H. }
      destruct (String.eqb (ev_phase ev) "complete") eqn:Hc.
      * cbn [fst snd]. split; [apply prefix_cons, prefix_nil|]. split.
        -- split; [|auto]. intros _. exists (Payload ev). split; [refl|exact Hc].
        -- intros [|i] d H Hd; [refl|discriminate H].
      * destruct (IH (S k)) as (Hpre & Hiff & Hlast).
        destruct (ws_loop connected (S k) rest) as [sent e]. cbn [fst snd] in *.
        split; [now apply prefix_cons|]. split.
        -- rewrite Hiff. destruct sent as [|d0 sent].
           ++ split; intros (d & H & Hd); [discriminate H|].
              injection H as <-. cbn in Hd. congruence.
           ++ reflexivity.
        -- intros [|i] d H Hd.
           ++ injection H as <-. cbn in Hd. congruence.
           ++ cbn [length]. f_equal. exact (Hlast i d H Hd).
    + destruct (connected k); cbn [fst snd].
      * split; [apply prefix_cons, prefix_nil|]. split.
        -- split; [discriminate|]. intros (d & H & Hd). injection H as <-.
           discriminate Hd.
        -- intros [|i] d H Hd; [|discriminate H]. injection H as <-.
           discriminate Hd.
      * split; [apply prefix_nil|]. split.
        -- split; [discriminate | intros (d & H & _); discriminate H].
        -- intros i d H. discriminate H.
    + cbn. split; [apply prefix_nil|]. split.
      * split; [discriminate | intros (d & H & _); discriminate H].
      * intros i d H. discriminate H.
Qed.

(** X6.  Whatever arrives and whenever the client leaves, the WebSocket
    handler sends the messages of the channel in the order it gets them,
    skipping none and adding none; it leaves its loop by [break] exactly when
    the last message it sent is a payload of the phase complete; and no
    message is sent after such a payload. *)
Theorem ws_pipeline_logs_forwards_until_complete
    (connected : nat -> bool) (polls : list poll) :
  (ws_pipeline_logs connected polls).1 `prefix_of` messages polls
  /\ ((ws_pipeline_logs connected polls).2 = WsComplete
      <-> exists d, last (ws_pipeline_logs connected polls).1 = Some d
                    /\ is_complete d = true)
  /\ (forall i d, (ws_pipeline_logs connected polls).1 !! i = Some d ->
                  is_complete d = true ->
                  S i = length (ws_pipeline_logs connected polls).1).
Proof. apply ws_loop_spec. Qed.

Section attentive_client.
Context (connected : nat -> bool) (Hconn : forall k, connected k = true).

Lemma ws_loop_listening polls k :
  Forall (fun p => p <> RedisGone) polls ->
  Forall running_payload (messages polls) ->
  ws_loop connected k polls = (messages polls, WsListening).
Proof.
  revert k. induction polls as [|p rest IH]; intros k Hred Hrun; [refl|].
  apply Forall_cons in Hred as [Hp Hred].
  destruct p as [|d|]; cbn [ws_loop messages omap] in *.
  - now apply IH.
  - apply Forall_cons in Hrun as [(ev & -> & Hev) Hrun].
    rewrite Hconn. apply String.eqb_neq in Hev. rewrite Hev.
    rewrite (IH (S k) Hred Hrun). refl.
  - now contradiction Hp.
Qed.

Lemma ws_loop_complete polls k pre ev :
  Forall (fun p => p <> RedisGone) polls ->
  messages polls = pre ++ [Payload ev] ->
  Forall running_payload pre ->
  ev_phase ev = "complete" ->
  ws_loop connected k polls = (pre ++ [Payload ev], WsComplete).
Proof.
  intros Hred Hmsg Hpre Hev. revert k pre Hmsg Hpre.
  induction polls as [|p rest IH]; intros k pre Hmsg Hpre.
  - destruct pre; discriminate Hmsg.
  - apply Forall_cons in Hred as [Hp Hred].
    destruct p as [|d|]; cbn [ws_loop messages omap] in *.
    + now apply IH.
    + rewrite Hconn. destruct pre as [|d0 pre].
      * injection Hmsg as -> _. rewrite Hev. refl.
      * injection Hmsg as -> Hmsg.
        apply Forall_cons in Hpre as [(ev0 & -> & Hev0) Hpre].
        apply String.eqb_neq in Hev0. rewrite Hev0.
        rewrite (IH Hred (S k) pre Hmsg Hpre). refl.
    + now contradiction Hp.
Qed.

End attentive_client.

Lemma messages_of_messages l : messages (map Message l) = l.
Proof.
  unfold messages. induction l as [|d l IH]; [refl|].
  cbn. f_equal. exact IH.
Qed.

Lemma deliveries_own pid evs :
  Forall (own_event pid) evs ->
  deliveries pid evs = map (fun x => Payload x.2) evs.
Proof.
  intros H. unfold deliveries. f_equal.
  induction H as [|x l [Hx _] _ IH]; [refl|].
  rewrite filter_cons, IH. destruct (decide _) as [_|Hn]; [refl|].
  now contradiction Hn.
Qed.

Lemma running_payloads evs :
  Forall (fun x => x.1 <> "complete") (event_summary evs) ->
  Forall running_payload (map (fun x => Payload x.2) evs).
Proof.
  induction evs as [|x l IH]; cbn [event_summary map]; intros H; [constructor|].
  apply Forall_cons in H as [Hx H]. constructor; [|now apply IH].
  exists x.2. split; [refl | exact Hx].
Qed.

(** X7.  A client that stays connected, while Redis answers, to the channel
    of a run on a healthy infrastructure is sent every event of the run, in
    order; and the handler leaves its loop (and closes the subscription)
    exactly when the task returns success.  After a run that failed or was
    interrupted the handler goes on listening: the events error and shutdown
    do not end the stream. *)
Theorem ws_closes_exactly_after_a_success
    (w : World) (pid : string) (s : State)
    (connected : nat -> bool) (polls : list poll) :
  infra_ok w ->
  (forall k, connected k = true) ->
  Forall (fun p => p <> RedisGone) polls ->
  exists r s' evs,
    run_pipeline w pid s = (Ok r, s')
    /\ published s' = published s ++ evs
    /\ (messages polls = deliveries pid evs ->
        ws_pipeline_logs connected polls
        = (map (fun x => Payload x.2) evs,
           match r with
           | RunSuccess _ => WsComplete
           | _ => WsListening
           end)).
Proof.
  intros Hinfra Hconn Hred.
  destruct (EngineRunsFacts.run_events_trace w pid s Hinfra)
    as (r & s' & evs & Hrun & Hpub & Hev & Hnames & _).
  destruct (EngineFramesFacts.run_only_own_events w pid s)
    as (evs' & _ & Hpub' & Hown & _).
  rewrite Hrun in Hpub'. cbn [snd] in Hpub'. rewrite Hpub in Hpub'.
  apply app_inv_head in Hpub'. subst evs'.
  exists r, s', evs. split; [exact Hrun|]. split; [exact Hpub|].
  rewrite (deliveries_own pid evs Hown). intros Hmsg.
  assert (Hphases : Forall (fun x : string * string => x.1 <> "complete")
                      (summary (phases s'))).
  { eapply Forall_impl; [exact Hnames|]. now intros x [H _]. }
  unfold ws_pipeline_logs.
  destruct r as [ms| |msg].
  - apply map_eq_app in Hev as (pre & fin & -> & Hpre & Hfin).
    destruct fin as [|x [|y fin]]; try discriminate Hfin.
    injection Hfin as Hx _. rewrite map_app in Hmsg |- *. cbn [map] in Hmsg |- *.
    apply (ws_loop_complete connected Hconn polls 0 _ x.2 Hred Hmsg);
      [|exact Hx].
    apply running_payloads. unfold event_summary. rewrite Hpre. exact Hphases.
  - rewrite <- Hmsg. apply (ws_loop_listening connected Hconn polls 0 Hred).
    rewrite Hmsg. apply running_payloads. rewrite Hev.
    apply Forall_app. split; [exact Hphases|]. repeat constructor. discriminate.
  - rewrite <- Hmsg. apply (ws_loop_listening connected Hconn polls 0 Hred).
    rewrite Hmsg. apply running_payloads. rewrite Hev, app_nil_r. exact Hphases.
Qed.

Lemma ws_closes_exactly_after_a_success_witness :
  (ws_pipeline_logs (fun _ => true)
     (map Message (deliveries "p1" (published (run_pipeline w_ok "p1" s0).2)))).2
  = WsComplete
  /\ (ws_pipeline_logs (fun _ => true)
        (map Message
           (deliveries "p1" (published (run_pipeline w_not_found "p1" s0).2)))).2
     = WsListening.
Proof.
  assert (Hred : forall l, Forall (fun p => p <> RedisGone) (map Message l)).
  { intros l. apply Forall_forall. intros p Hp. apply list_elem_of_In in Hp.
    apply in_map_iff in Hp as (d & <- & _). discriminate. }
  split.
  - destruct (ws_closes_exactly_after_a_success w_ok "p1" s0 (fun _ => true)
                (map Message (deliveries "p1" (published (run_pipeline w_ok "p1" s0).2))))
      as (r & s' & evs & Hrun & Hpub & Hws);
      [split; intros n; refl | auto | apply Hred |].
    assert (Hr : exists ms, r = RunSuccess ms).
    { assert (H : exists ms, (run_pipeline w_ok "p1" s0).1 = Ok (RunSuccess ms))
        by (eexists; vm_compute; refl).
      destruct H as [ms H]. rewrite Hrun in H. exists ms. cbn in H. congruence. }
    destruct Hr as [ms ->]. rewrite Hws; [refl|].
    rewrite Hrun. cbn [snd]. rewrite Hpub. cbn [published s0 app].
    apply messages_of_messages.
  - destruct (ws_closes_exactly_after_a_success w_not_found "p1" s0 (fun _ => true)
                (map Message
                   (deliveries "p1" (published (run_pipeline w_not_found "p1" s0).2))))
      as (r & s' & evs & Hrun & Hpub & Hws);
      [split; intros n; refl | auto | apply Hred |].
    assert (Hr : exists msg, r = RunError msg).
    { assert (H : exists msg, (run_pipeline w_not_found "p1" s0).1 = Ok (RunError msg))
        by (eexists; vm_compute; refl).
      destruct H as [msg H]. rewrite Hrun in H. exists msg. cbn in H. congruence. }
    destruct Hr as [msg ->]. rewrite Hws; [refl|].
    rewrite Hrun. cbn [snd]. rewrite Hpub. cbn [published s0 app].
    apply messages_of_messages.
Defined.

(** *** Pages *)

Section pages.
Context (db_ok : nat -> bool) (Hdb : forall k, db_ok k = true).

Lemma list_pipelines_valid p size rows :
  (1 <= p)%Z -> (1 <= size <= 100)%Z -> ((p - 1) * size <= INT64_MAX)%Z ->
  list_pipelines db_ok p size rows
  = Some (inr {| items := take (Z.to_nat size)
                            (drop (Z.to_nat (p - 1) * Z.to_nat size) rows);
                 total := length rows; page := p; size := size |}).
Proof.
  intros Hp [Hs1 Hs2] Hfit. unfold list_pipelines, valid_query.
  rewrite (proj2 (Z.leb_le 1 p) Hp), (proj2 (Z.leb_le 1 size) Hs1),
    (proj2 (Z.leb_le size 100) Hs2). cbn [andb].
  rewrite !Hdb. cbn [negb].
  rewrite (proj2 (Z.ltb_ge _ _) Hfit).
  rewrite Z2Nat.inj_mul by lia. refl.
Qed.

Lemma page_items_valid size rows p :
  (1 <= size <= 100)%Z -> (Z.of_nat p * size <= INT64_MAX)%Z ->
  page_items db_ok size rows (S p)
  = take (Z.to_nat size) (drop (p * Z.to_nat size) rows).
Proof.
  intros Hs Hfit. unfold page_items.
  rewrite list_pipelines_valid by (try lia; now rewrite Nat2Z.inj_succ, Z.sub_1_r, Z.pred_succ).
  cbn [items]. do 3 f_equal. lia.
Qed.

Lemma pages_concat size rows n :
  (1 <= size <= 100)%Z -> ((Z.of_nat n - 1) * size <= INT64_MAX)%Z ->
  concat (map (page_items db_ok size rows) (seq 1 n))
  = take (n * Z.to_nat size) rows.
Proof.
  intros Hs. induction n as [|n IH]; intros Hfit; [refl|].
  rewrite seq_S, map_app, concat_app, IH by nia. cbn [map concat Nat.add].
  rewrite app_nil_r, page_items_valid by (try exact Hs; nia).
  rewrite take_take_drop. f_equal. lia.
Qed.

End pages.

(** X8.  For a page size within the declared bounds, while the database
    answers, every page from 1 on whose offset, [(page - 1) * size], fits
    in a signed 64-bit integer is answered, with the count of all runs as
    total and at most [size] items; the pages 1 to [n], one after the other,
    are the first [n * size] rows the ordered selection gives, so that no
    run is skipped or repeated from one page to the next, and all the runs
    are listed once [n * size] reaches the total; this is for requests
    between which the table does not change and to which the database gives
    the runs in the same order.  A page whose offset does not fit passes the
    validation and is answered 500.  A page below 1, or a size outside 1 to
    100, is refused. *)
Theorem list_pipelines_pages_partition
    (db_ok : nat -> bool) (size : Z) (rows : list Pipeline) (n : nat) :
  (1 <= size <= 100)%Z ->
  (forall k, db_ok k = true) ->
  (forall p, (1 <= p)%Z -> ((p - 1) * size <= INT64_MAX)%Z ->
     exists resp,
       list_pipelines db_ok p size rows = Some (inr resp)
       /\ total resp = length rows
       /\ (Z.of_nat (length (items resp)) <= size)%Z)
  /\ (((Z.of_nat n - 1) * size <= INT64_MAX)%Z ->
      concat (map (page_items db_ok size rows) (seq 1 n))
      = take (n * Z.to_nat size) rows
      /\ (length rows <= n * Z.to_nat size ->
          concat (map (page_items db_ok size rows) (seq 1 n)) = rows))
  /\ (forall p, (1 <= p)%Z -> (INT64_MAX < (p - 1) * size)%Z ->
        exists e,
          list_pipelines db_ok p size rows = Some (inl e)
          /\ App.response_of e = (500, "Internal server error."))
  /\ (forall p s', ((p < 1)%Z \/ (s' < 1)%Z \/ (100 < s')%Z) ->
                   list_pipelines db_ok p s' rows = None).
Proof.
  intros Hs Hdb.
  split; [|split; [|split]].
  - intros p Hp Hfit. eexists.
    split; [apply list_pipelines_valid; assumption|].
    cbn [total items]. split; [refl|].
    rewrite length_take. lia.
  - intros Hfit.
    pose proof (pages_concat db_ok Hdb size rows n Hs Hfit) as Hcat.
    split; [exact Hcat|].
    intros Hlen. rewrite Hcat. now apply take_ge.
  - intros p Hp Hover. unfold list_pipelines, valid_query.
    destruct Hs as [Hs1 Hs2].
    rewrite (proj2 (Z.leb_le 1 p) Hp), (proj2 (Z.leb_le 1 size) Hs1),
      (proj2 (Z.leb_le size 100) Hs2). cbn [andb].
    rewrite Hdb. cbn [negb]. rewrite (proj2 (Z.ltb_lt _ _) Hover).
    eexists. split; refl.
  - intros p s' H. unfold list_pipelines, valid_query.
    destruct (Z.leb_spec 1 p), (Z.leb_spec 1 s'), (Z.leb_spec s' 100);
      cbn [andb]; try refl; lia.
Qed.

Lemma list_pipelines_pages_partition_witness :
  concat (map (page_items (fun _ => true) 2 [queued_row; failed_row; queued_row])
            (seq 1 2))
  = [queued_row; failed_row; queued_row]
  /\ exists e,
       list_pipelines (fun _ => true) 4611686018427387905 2
         [queued_row; failed_row; queued_row]
       = Some (inl e)
       /\ App.response_of e = (500, "Internal server error.").
Proof.
  destruct (list_pipelines_pages_partition (fun _ => true) 2
              [queued_row; failed_row; queued_row] 2)
    as (_ & Hcat & Hover & _); [lia | intros k; refl |].
  split.
  - apply Hcat; [vm_compute; discriminate | cbn; lia].
  - apply Hover; [lia | vm_compute; refl].
Defined.

End PipelinesRouterFacts.
(** ** The GitHub helpers *)

Module GitHubFacts.
Import NotebookParser GitHub.

Ltac refl := exact eq_refl.

Lemma chars_app a b : chars (a +:+ b) = chars a ++ chars b.
Proof.
  unfold chars. induction a as [|c a IH]; [refl|].
  change (String c a +:+ b) with (String c (a +:+ b)).
  cbn [list_ascii_of_string app]. f_equal. exact IH.
Qed.

Lemma chars_inj a b : chars a = chars b -> a = b.
Proof.
  intros H. rewrite <- (string_of_list_ascii_of_string a),
    <- (string_of_list_ascii_of_string b). unfold chars in H. now rewrite H.
Qed.

(** **** The greedy run *)

Lemma span_inv p s v rest :
  span p s = (v, rest) ->
  s = v ++ rest /\ Forall (fun a => p a = true) v
  /\ match rest with [] => True | a :: _ => p a = false end.
Proof.
  revert v rest. induction s as [|a s IH]; intros v rest; cbn.
  - intros [= <- <-]. repeat split. constructor.
  - destruct (p a) eqn:Ha.
    + destruct (span p s) as [v' rest'] eqn:Hs. intros [= <- <-].
      destruct (IH v' rest' eq_refl) as (-> & Hv & Hr).
      repeat split; [now constructor | exact Hr].
    + intros [= <- <-]. repeat split; [constructor | exact Ha].
Qed.

Lemma span_app p v rest :
  Forall (fun a => p a = true) v ->
  match rest with [] => True | a :: _ => p a = false end ->
  span p (v ++ rest) = (v, rest).
Proof.
  intros Hv Hr. induction Hv as [|a v Ha _ IH]; cbn.
  - destruct rest as [|a rest]; [refl|]. cbn. now rewrite Hr.
  - now rewrite Ha, IH.
Qed.

Lemma owner_char_iff a : owner_char a = true <-> a <> slash.
Proof.
  unfold owner_char. destruct (Ascii.eqb_spec a slash); cbn; split; congruence.
Qed.

Lemma repo_char_iff a : repo_char a = true <-> a <> slash /\ a <> dot.
Proof.
  unfold repo_char.
  destruct (Ascii.eqb_spec a slash), (Ascii.eqb_spec a dot); cbn;
    split; try tauto; try congruence; intros [? ?]; congruence.
Qed.

Lemma match_repo_iff s owner repo :
  match_repo s = Some (owner, repo) <-> repo_at s [] owner repo.
Proof.
  unfold match_repo, repo_at. split.
  - destruct (strip_prefix (chars "github.com") s) as [[|c r1]|] eqn:Hp;
      try discriminate.
    apply ParserFacts.strip_prefix_Some in Hp. subst s.
    destruct (Ascii.eqb c slash || Ascii.eqb c colon) eqn:Hc; [|discriminate].
    destruct (span owner_char r1) as [[|o1 o] [|sl r2]] eqn:Ho; try discriminate.
    destruct (span repo_char r2) as [[|p1 p] rest] eqn:Hr; [discriminate|].
    intros [= <- <-].
    apply span_inv in Ho as (-> & Hov & Hsl).
    apply span_inv in Hr as (-> & Hrv & Hrest).
    assert (sl = slash) as ->.
    { unfold owner_char in Hsl. destruct (Ascii.eqb_spec sl slash);
        [assumption | discriminate Hsl]. }
    exists c, rest. split; [refl|]. split.
    { apply orb_prop in Hc as [Hc|Hc]; apply Ascii.eqb_eq in Hc; auto. }
    split; [discriminate|]. split.
    { eapply Forall_impl; [exact Hov|]. intros a. apply owner_char_iff. }
    split; [discriminate|]. split.
    { eapply Forall_impl; [exact Hrv|]. intros a. apply repo_char_iff. }
    destruct rest as [|a rest]; [exact I|].
    unfold repo_char in Hrest.
    destruct (Ascii.eqb_spec a slash), (Ascii.eqb_spec a dot); auto.
    discriminate Hrest.
  - intros (c & rest & -> & Hc & Ho & Hov & Hr & Hrv & Hrest). cbn [app].
    rewrite (proj2 (ParserFacts.strip_prefix_Some _ _ _) eq_refl).
    assert (Ascii.eqb c slash || Ascii.eqb c colon = true) as ->.
    { destruct Hc as [-> | ->]; refl. }
    rewrite (span_app owner_char owner (slash :: repo ++ rest)).
    2: { eapply Forall_impl; [exact Hov|]. intros a. apply owner_char_iff. }
    2: { refl. }
    destruct owner as [|o1 o]; [contradiction|].
    rewrite (span_app repo_char repo rest).
    2: { eapply Forall_impl; [exact Hrv|]. intros a. apply repo_char_iff. }
    2: { destruct rest as [|a rest]; [exact I|]. unfold repo_char.
         destruct Hrest as [-> | ->]; refl. }
    destruct repo as [|p1 p]; [contradiction|]. refl.
Qed.

Lemma repo_at_cons a s pre owner repo :
  repo_at s pre owner repo -> repo_at (a :: s) (a :: pre) owner repo.
Proof.
  intros (c & rest & -> & H). exists c, rest. split; [refl | exact H].
Qed.

Lemma repo_at_uncons a s b pre owner repo :
  repo_at (a :: s) (b :: pre) owner repo -> repo_at s pre owner repo.
Proof.
  intros (c & rest & E & H). injection E as _ ->. exists c, rest.
  split; [refl | exact H].
Qed.

Lemma repo_at_nil pre owner repo : ~ repo_at [] pre owner repo.
Proof.
  intros (c & rest & E & _). destruct pre; discriminate E.
Qed.

(** Two matches at the same position are the same match. *)
Lemma repo_at_functional s pre o1 r1 o2 r2 :
  repo_at s pre o1 r1 -> repo_at s pre o2 r2 -> o1 = o2 /\ r1 = r2.
Proof.
  revert s. induction pre as [|a pre IH]; intros s H1 H2.
  - apply match_repo_iff in H1, H2. rewrite H1 in H2. now injection H2.
  - destruct s as [|b s]; [now apply repo_at_nil in H1|].
    apply repo_at_uncons in H1, H2. eauto.
Qed.

Lemma search_repo_None s :
  search_repo s = None <-> forall pre owner repo, ~ repo_at s pre owner repo.
Proof.
  induction s as [|a s IH]; cbn [search_repo].
  - split; [intros _ pre o r; apply repo_at_nil | intros _].
    destruct (match_repo []) as [[o r]|] eqn:Hm; [|refl].
    apply match_repo_iff in Hm. now apply repo_at_nil in Hm.
  - destruct (match_repo (a :: s)) as [[o r]|] eqn:Hm.
    + split; [discriminate|]. intros H. exfalso.
      apply match_repo_iff in Hm. exact (H _ _ _ Hm).
    + rewrite IH. split.
      * intros H [|b pre] o r Hat.
        -- apply match_repo_iff in Hat. congruence.
        -- apply repo_at_uncons in Hat. exact (H _ _ _ Hat).
      * intros H pre o r Hat. exact (H _ _ _ (repo_at_cons a _ _ _ _ Hat)).
Qed.

Lemma search_repo_Some s owner repo :
  search_repo s = Some (owner, repo) ->
  exists pre, repo_at s pre owner repo
              /\ forall pre' o' r', repo_at s pre' o' r' -> length pre <= length pre'.
Proof.
  induction s as [|a s IH]; cbn [search_repo].
  - destruct (match_repo []) as [[o r]|] eqn:Hm; [|discriminate].
    apply match_repo_iff in Hm. now apply repo_at_nil in Hm.
  - destruct (match_repo (a :: s)) as [[o r]|] eqn:Hm.
    + intros [= <- <-]. exists []. split; [now apply match_repo_iff|].
      intros; cbn; lia.
    + intros Hs. destruct (IH Hs) as (pre & Hat & Hmin).
      exists (a :: pre). split; [now apply repo_at_cons|].
      intros [|b pre'] o' r' Hat'.
      * apply match_repo_iff in Hat'. congruence.
      * apply repo_at_uncons in Hat'. apply Hmin in Hat'. cbn. lia.
Qed.

(** X9.  [parse_repo_url] returns the owner and the repo of the leftmost
    place of the URL where github.com is followed by a slash or a colon, a
    non-empty owner without slash, a slash, and a non-empty repo that runs
    up to the end, the next slash or the next dot; so neither is ever empty,
    the owner holds no slash and the repo neither slash nor dot.  It raises
    [ValueError], with the URL in the message, exactly when the URL has no
    such place. *)
Theorem parse_repo_url_leftmost_or_error (url : string) :
  match parse_repo_url url with
  | inr (owner, repo) =>
      owner <> "" /\ repo <> ""
      /\ exists pre,
           repo_at (chars url) pre (chars owner) (chars repo)
           /\ forall pre' o' r', repo_at (chars url) pre' o' r' ->
                                 length pre <= length pre'
  | inl e =>
      e = Py.ValueError ("Cannot parse GitHub URL: " +:+ url)
      /\ forall pre o r, ~ repo_at (chars url) pre o r
  end.
Proof.
  unfold parse_repo_url.
  destruct (search_repo (chars url)) as [[o r]|] eqn:Hs.
  - destruct (search_repo_Some _ _ _ Hs) as (pre & Hat & Hmin).
    unfold chars at 2 3. rewrite !list_ascii_of_string_of_list_ascii.
    destruct Hat as (c & rest & E & Hc & Ho & Hov & Hr & Hrv & Hrest).
    split; [destruct o; [contradiction|discriminate]|].
    split; [destruct r; [contradiction|discriminate]|].
    exists pre. split; [|exact Hmin]. exists c, rest. repeat split; assumption.
  - split; [refl|]. now apply search_repo_None.
Qed.

Lemma search_repo_here s r : match_repo s = Some r -> search_repo s = Some r.
Proof. intros H. destruct s; cbn [search_repo]; now rewrite H. Qed.

Lemma search_repo_skip a s :
  Ascii.eqb "g" a = false -> search_repo (a :: s) = search_repo s.
Proof.
  intros H. cbn [search_repo]. unfold match_repo at 1.
  change (chars "github.com") with ("g"%char :: chars "ithub.com").
  cbn [strip_prefix]. rewrite H. refl.
Qed.

(** X10.  The URL of a repository on github.com, with its owner and its
    repo, parses back to that owner and that repo, whatever follows the
    repo after a slash or a dot: the suffix [.git], a trailing slash or a
    path change nothing.  A dot ends the repo: of a name with a dot, only
    the part before the first dot is returned. *)
Theorem parse_repo_url_of_https_url (owner repo rest : string) :
  owner <> "" -> Forall (fun a => a <> slash) (chars owner) ->
  repo <> "" -> Forall (fun a => a <> slash /\ a <> dot) (chars repo) ->
  (rest = "" \/ exists a rest', rest = String a rest' /\ (a = slash \/ a = dot)) ->
  parse_repo_url ("https://github.com/" +:+ owner +:+ "/" +:+ repo +:+ rest)
  = inr (owner, repo).
Proof.
  intros Ho Hov Hr Hrv Hrest. unfold parse_repo_url.
  assert (Hs : search_repo
                 (chars ("https://github.com/" +:+ owner +:+ "/" +:+ repo +:+ rest))
               = Some (chars owner, chars repo)).
  { rewrite !chars_app.
    change (chars "https://github.com/")
      with (chars "https://" ++ chars "github.com" ++ [slash]).
    change (chars "/") with [slash]. rewrite <- !app_assoc.
    change (chars "https://")
      with ["h"; "t"; "t"; "p"; "s"; ":"; "/"; "/"]%char.
    cbn [app]. rewrite !search_repo_skip by refl.
    apply search_repo_here, match_repo_iff.
    exists slash, (chars rest). cbn [app]. split; [refl|].
    split; [now left|].
    split; [intros E; apply Ho, chars_inj; exact E|]. split; [exact Hov|].
    split; [intros E; apply Hr, chars_inj; exact E|]. split; [exact Hrv|].
    destruct Hrest as [-> | (a & rest' & -> & Ha)]; [exact I | exact Ha]. }
  rewrite Hs. unfold chars. now rewrite !string_of_list_ascii_of_string.
Qed.

Lemma parse_repo_url_of_https_url_witness :
  parse_repo_url "https://github.com/user/my.project.git" = inr ("user", "my")
  /\ parse_repo_url "https://github.com/user/repo.git" = inr ("user", "repo")
  /\ parse_repo_url "https://github.com/user/repo" = inr ("user", "repo").
Proof.
  assert (Hu : Forall (fun a => a <> slash) (chars "user")).
  { repeat constructor; discriminate. }
  split; [|split].
  - apply (parse_repo_url_of_https_url "user" "my" ".project.git");
      [discriminate | exact Hu | discriminate
      | repeat constructor; discriminate
      | right; eexists _, _; split; [refl | now right]].
  - apply (parse_repo_url_of_https_url "user" "repo" ".git");
      [discriminate | exact Hu | discriminate
      | repeat constructor; discriminate
      | right; eexists _, _; split; [refl | now right]].
  - apply (parse_repo_url_of_https_url "user" "repo" "");
      [discriminate | exact Hu | discriminate
      | repeat constructor; discriminate
      | now left].
Defined.

End GitHubFacts.
(** ** The webhook *)

Module WebhookFacts.
Import NotebookParser GitHub App WebhookRouter AppSamples.

Ltac refl := exact eq_refl.

(** **** The signature *)

Lemma is_ascii_app a b : is_ascii (a +:+ b) = is_ascii a && is_ascii b.
Proof. unfold is_ascii. rewrite GitHubFacts.chars_app. apply forallb_app. Qed.

Lemma verify_true_iff hexdigest payload signature secret :
  verify_webhook_signature hexdigest payload signature secret = inr true
  <-> signature = "sha256=" +:+ hexdigest secret payload
      /\ is_ascii signature = true.
Proof.
  unfold verify_webhook_signature, compare_digest.
  destruct (startswith "sha256=" signature) eqn:Hs; cbn [negb].
  - destruct (is_ascii ("sha256=" +:+ hexdigest secret payload)) eqn:Ha;
      destruct (is_ascii signature) eqn:Hb; cbn [andb].
    + split.
      * intros H.
        assert (Hx : String.eqb ("sha256=" +:+ hexdigest secret payload) signature
                     = true) by congruence.
        apply String.eqb_eq in Hx. now split.
      * intros [-> _]. now rewrite String.eqb_refl.
    + split; [discriminate | intros [_ H]; discriminate H].
    + split; [discriminate|]. intros [-> _]. congruence.
    + split; [discriminate | intros [_ H]; discriminate H].
  - split; [discriminate|]. intros [-> _]. exfalso.
    assert (H : startswith "sha256=" ("sha256=" +:+ hexdigest secret payload) = true)
      by (apply TextFacts.startswith_spec; eexists; refl).
    congruence.
Qed.

(** A signature that is not the expected one is never accepted. *)
Lemma verify_rejects hexdigest payload signature secret :
  signature <> "sha256=" +:+ hexdigest secret payload ->
  verify_webhook_signature hexdigest payload signature secret = inr false
  \/ exists msg,
       verify_webhook_signature hexdigest payload signature secret = inl msg.
Proof.
  intros Hne.
  destruct (verify_webhook_signature hexdigest payload signature secret)
    as [msg|[|]] eqn:Hv; [right; now exists msg | | now left].
  apply verify_true_iff in Hv as [Hv _]. contradiction.
Qed.

(** **** The files of a push *)

Lemma notebook_changed_spec payload :
  notebook_changed payload = true
  <-> exists f, In f (modified_files payload) /\ exists stem, f = stem +:+ ".ipynb".
Proof.
  unfold notebook_changed. rewrite existsb_exists.
  split; intros (f & Hin & Hf); exists f; (split; [exact Hin|]);
    now apply TextFacts.ends_with_spec.
Qed.

(** **** The handler, case by case *)

Lemma repository_of_first payload table repo rest :
  active_repos (default "" (html_url payload)) table = repo :: rest ->
  repository_of payload table = Some repo.
Proof. intros H. unfold repository_of. now rewrite H. Qed.

Lemma repository_of_second payload table :
  active_repos (default "" (html_url payload)) table = [] ->
  repository_of payload table
  = head (active_repos (default "" (html_url payload) +:+ ".git") table).
Proof. intros H. unfold repository_of. now rewrite H. Qed.

(** What the handler does once the request has passed its checks. *)
Lemma github_webhook_qualified env req st payload repo :
  qualifies env req st payload repo ->
  db_ok env 0 = true -> db_ok env 1 = true ->
  exists k, (k = 1 \/ k = 2)
    /\ github_webhook env req st
       = enqueue env k repo (default "" (after payload)) st.
Proof.
  intros (Hsig & Hascii & Hev & Hjson & Hrepo & Hbranch & Hnb) Hdb0 Hdb1.
  unfold github_webhook.
  rewrite (proj2 (verify_true_iff _ _ _ _) (conj Hsig Hascii)).
  rewrite Hev, Hjson, Hdb0, String.eqb_refl. cbn [negb].
  apply notebook_changed_spec in Hnb.
  unfold repository_of in Hrepo.
  destruct (active_repos (default "" (html_url payload)) (repositories st))
    as [|r1 rs] eqn:Hfirst; cbn [andb negb].
  - rewrite Hdb1. cbn [negb].
    destruct (active_repos (default "" (html_url payload) +:+ ".git")
                (repositories st)) as [|r2 rs2]; [discriminate Hrepo|].
    injection Hrepo as ->. rewrite Hbranch, String.eqb_refl, Hnb. cbn [negb].
    exists 2. split; [now right | refl].
  - injection Hrepo as ->. rewrite Hbranch, String.eqb_refl, Hnb. cbn [negb].
    exists 1. split; [now left | refl].
Qed.

(** Whatever the handler does beyond raising with the state untouched, it
    does for a request that qualifies, at the end. *)
Lemma github_webhook_inv env req st :
  (exists e, github_webhook env req st = (inl e, st)
             /\ forall payload repo, ~ qualifies env req st payload repo
                \/ db_ok env 0 = false \/ db_ok env 1 = false)
  \/ exists payload repo k,
       qualifies env req st payload repo
       /\ github_webhook env req st
          = enqueue env k repo (default "" (after payload)) st.
Proof.
  unfold github_webhook.
  destruct (verify_webhook_signature _ _ _ _) as [msg|[|]] eqn:Hv.
  { left. eexists. split; [refl|]. intros p r. left. intros (Hs & Ha & _).
    rewrite (proj2 (verify_true_iff _ _ _ _) (conj Hs Ha)) in Hv. discriminate Hv. }
  2: { left. eexists. split; [refl|]. intros p r. left. intros (Hs & Ha & _).
       rewrite (proj2 (verify_true_iff _ _ _ _) (conj Hs Ha)) in Hv.
       discriminate Hv. }
  apply verify_true_iff in Hv as [Hsig Hascii].
  destruct (String.eqb_spec (x_github_event req) "push") as [Hev|Hev]; cbn [negb].
  2: { left. eexists. split; [refl|]. intros p r. left. intros (_ & _ & H & _).
       contradiction. }
  destruct (json req) as [e|payload] eqn:Hjson.
  { left. eexists. split; [refl|]. intros p r. left.
    intros (_ & _ & _ & H & _). congruence. }
  destruct (db_ok env 0) eqn:Hdb0; cbn [negb].
  2: { left. eexists. split; [refl|]. intros p r. right. now left. }
  assert (Hq : forall repo,
            repository_of payload (repositories st) = Some repo ->
            r_branch repo = branch_of (default "" (ref payload)) ->
            notebook_changed payload = true ->
            qualifies env req st payload repo).
  { intros repo H1 H2 H3. repeat (split; [assumption|]).
    now apply notebook_changed_spec. }
  assert (Hnq : forall repo,
            repository_of payload (repositories st) = Some repo ->
            (r_branch repo <> branch_of (default "" (ref payload))
             \/ notebook_changed payload = false) ->
            forall p r, ~ qualifies env req st p r).
  { intros repo H1 H2 p r (_ & _ & _ & Hj & Hr & Hb & Hn).
    rewrite Hjson in Hj. injection Hj as <-. rewrite H1 in Hr.
    injection Hr as <-. apply notebook_changed_spec in Hn.
    destruct H2 as [H2|H2]; congruence. }
  destruct (active_repos (default "" (html_url payload)) (repositories st))
    as [|r1 rs] eqn:Hfirst; cbn [andb negb].
  - destruct (db_ok env 1) eqn:Hdb1; cbn [negb].
    2: { left. eexists. split; [refl|]. intros p r. right. now right. }
    pose proof (repository_of_second payload (repositories st) Hfirst) as Hrepo.
    destruct (active_repos (default "" (html_url payload) +:+ ".git")
                (repositories st)) as [|r2 rs2] eqn:Hsecond.
    { left. eexists. split; [refl|]. intros p r. left.
      intros (_ & _ & _ & Hj & Hr & _). rewrite Hjson in Hj. injection Hj as <-.
      rewrite Hrepo in Hr. discriminate Hr. }
    cbn [head] in Hrepo.
    destruct (String.eqb_spec (r_branch r2) (branch_of (default "" (ref payload))))
      as [Hb|Hb]; cbn [negb].
    2: { left. eexists. split; [refl|]. intros p r. left.
         apply (Hnq r2 Hrepo). now left. }
    destruct (notebook_changed payload) eqn:Hn; cbn [negb].
    2: { left. eexists. split; [refl|]. intros p r. left.
         apply (Hnq r2 Hrepo). now right. }
    right. exists payload, r2, 2. split; [now apply Hq | refl].
  - pose proof (repository_of_first payload (repositories st) r1 rs Hfirst)
      as Hrepo.
    destruct (String.eqb_spec (r_branch r1) (branch_of (default "" (ref payload))))
      as [Hb|Hb]; cbn [negb].
    2: { left. eexists. split; [refl|]. intros p r. left.
         apply (Hnq r1 Hrepo). now left. }
    destruct (notebook_changed payload) eqn:Hn; cbn [negb].
    2: { left. eexists. split; [refl|]. intros p r. left.
         apply (Hnq r1 Hrepo). now right. }
    right. exists payload, r1, 1. split; [now apply Hq | refl].
Qed.

(** **** Storing and handing over the run *)

Lemma enqueue_accepts env k repo commit_sha st ack st' :
  enqueue env k repo commit_sha st = (inr ack, st') ->
  ack = {| wa_status := "queued"; wa_pipeline_id := new_uuid env |}
  /\ ~ In (new_uuid env) (map pl_id (pipelines st))
  /\ st' = queued env repo commit_sha st.
Proof.
  unfold enqueue, run, get_pipeline_runner.
  destruct (db_ok env k); cbn [negb]; [|discriminate].
  destruct (bool_decide _) eqn:Hfresh; [discriminate|].
  destruct (db_ok env (S k)); cbn [negb]; [|discriminate].
  destruct (runner_backend env); [|discriminate].
  destruct (broker env); [discriminate|].
  intros [= <- <-]. split; [refl|]. split; [|refl].
  apply bool_decide_eq_false in Hfresh. intros H. apply Hfresh.
  now apply list_elem_of_In.
Qed.

Lemma enqueue_rejects env k repo commit_sha st e st' :
  enqueue env k repo commit_sha st = (inl e, st') ->
  exists class msg,
    e = Unhandled class msg
    /\ (st' = st
        \/ st' = add_pipeline (new_pipeline (new_uuid env) (r_id repo) commit_sha) st).
Proof.
  unfold enqueue, run, get_pipeline_runner, db_error, not_implemented.
  destruct (db_ok env k); cbn [negb].
  2: { intros [= <- <-]. eexists _, _. split; [refl | now left]. }
  destruct (bool_decide _).
  { intros [= <- <-]. eexists _, _. split; [refl | now left]. }
  destruct (db_ok env (S k)); cbn [negb].
  2: { intros [= <- <-]. eexists _, _. split; [refl | now right]. }
  destruct (runner_backend env).
  - destruct (broker env); [|discriminate].
    intros [= <- <-]. eexists _, _. split; [refl | now right].
  - intros [= <- <-]. eexists _, _. split; [refl | now right].
Qed.

Lemma enqueue_stores env k repo commit_sha st :
  db_ok env k = true -> db_ok env (S k) = true ->
  ~ In (new_uuid env) (map pl_id (pipelines st)) ->
  enqueue env k repo commit_sha st
  = match run (broker env) (get_pipeline_runner (runner_backend env))
            (new_uuid env) (r_id repo) commit_sha (queue st) with
    | inl e =>
        (inl e, add_pipeline (new_pipeline (new_uuid env) (r_id repo) commit_sha) st)
    | inr q =>
        (inr {| wa_status := "queued"; wa_pipeline_id := new_uuid env |},
         set_queue q
           (add_pipeline (new_pipeline (new_uuid env) (r_id repo) commit_sha) st))
    end.
Proof.
  intros Hk HSk Hfresh. unfold enqueue. rewrite Hk, HSk. cbn [negb].
  rewrite bool_decide_eq_false_2; [refl|].
  intros H. apply Hfresh. now apply list_elem_of_In.
Qed.

(** X11.  The handler accepts a request only if it is a push event whose
    signature header is the text sha256= followed by the HMAC of the body
    under the secret, for a registered active repository (the first one
    registered under the URL of the payload, or else under that URL followed
    by .git), to the branch that repository monitors, with a commit that
    adds or modifies a file whose name ends in .ipynb.  It then has stored
    exactly one new run, queued, for that repository and the pushed commit,
    under an identifier that was free, has sent exactly one task with that
    identifier, and has touched nothing else.  And such a request is
    accepted whenever the database answers, the identifier drawn is free and
    the Celery runner reaches its broker. *)
Theorem github_webhook_accepts_signed_notebook_pushes
    (env : WebEnv) (req : Request) (st : AppState) :
  (forall ack st',
     github_webhook env req st = (inr ack, st') ->
     exists payload repo,
       qualifies env req st payload repo
       /\ ack = {| wa_status := "queued"; wa_pipeline_id := new_uuid env |}
       /\ ~ In (new_uuid env) (map pl_id (pipelines st))
       /\ st' = {| repositories := repositories st;
                   pipelines :=
                     pipelines st
                     ++ [new_pipeline (new_uuid env) (r_id repo)
                           (default "" (after payload))];
                   queue :=
                     queue st
                     ++ [{| task_id := new_uuid env;
                            task_pipeline_id := new_uuid env;
                            task_repo_id := r_id repo;
                            task_commit_sha := default "" (after payload) |}] |})
  /\ (forall payload repo,
        qualifies env req st payload repo ->
        storable env st ->
        runner_backend env = celery ->
        broker env = None ->
        github_webhook env req st
        = (inr {| wa_status := "queued"; wa_pipeline_id := new_uuid env |},
           queued env repo (default "" (after payload)) st)).
Proof.
  split.
  - intros ack st' Hrun.
    destruct (github_webhook_inv env req st)
      as [(e & He & _) | (payload & repo & k & Hq & Hk)]; [congruence|].
    rewrite Hk in Hrun.
    destruct (enqueue_accepts _ _ _ _ _ _ _ Hrun) as (-> & Hfresh & ->).
    exists payload, repo. repeat split; try assumption; apply Hq.
  - intros payload repo Hq [Hdb Hfresh] Hcelery Hbroker.
    destruct (github_webhook_qualified env req st payload repo Hq (Hdb 0) (Hdb 1))
      as (k & _ & ->).
    rewrite enqueue_stores by auto. rewrite Hcelery, Hbroker. refl.
Qed.

Lemma signed_push_qualifies env :
  hexdigest env = toy_hexdigest ->
  qualifies env signed_push app0 sample_push sample_repo.
Proof.
  intros Hh. unfold qualifies. rewrite Hh.
  repeat (split; [vm_compute; refl|]).
  exists "notebooks/train.ipynb". split; [now left|].
  exists "notebooks/train". refl.
Qed.

Lemma github_webhook_accepts_signed_notebook_pushes_witness :
  exists st',
    github_webhook env_celery signed_push app0
    = (inr {| wa_status := "queued"; wa_pipeline_id := "6f1c" |}, st')
    /\ map pl_status (pipelines st') = ["queued"]
    /\ map task_id (queue st') = ["6f1c"].
Proof.
  destruct (github_webhook_accepts_signed_notebook_pushes env_celery signed_push app0)
    as [_ H].
  eexists. split; [|split].
  - apply (H sample_push sample_repo);
      [apply signed_push_qualifies; refl | split; [intros k; refl | intros []]
      | refl | refl].
  - refl.
  - refl.
Defined.

(** X12.  A request the handler refuses leaves no trace: whenever it raises
    an [HTTPException] (401, 404, or the 200 of an ignored event), and in
    particular whenever the signature header is not the expected one (the
    request is then answered 401, or 500 when the header has a character
    that is not ASCII), the database and the queue are as before.  The only
    state an exception can leave behind is the stored run of a request that
    passed every check, when the refresh or the hand-over to the runner
    fails after the commit. *)
Theorem github_webhook_refusals_leave_no_trace
    (env : WebEnv) (req : Request) (st st' : AppState) (e : exn) :
  github_webhook env req st = (inl e, st') ->
  (st' = st
   \/ exists payload repo class msg,
        qualifies env req st payload repo
        /\ e = Unhandled class msg
        /\ st' = add_pipeline
                   (new_pipeline (new_uuid env) (r_id repo)
                      (default "" (after payload))) st)
  /\ ((exists code detail, e = HTTPException code detail) -> st' = st)
  /\ (x_hub_signature_256 req
      <> "sha256=" +:+ hexdigest env (github_webhook_secret env) (body req) ->
      st' = st
      /\ (response_of e = (401, "Invalid webhook signature.")
          \/ response_of e = (500, "Internal server error."))).
Proof.
  intros Hrun.
  assert (Hmain :
    st' = st
    \/ exists payload repo class msg,
         qualifies env req st payload repo
         /\ e = Unhandled class msg
         /\ st' = add_pipeline
                    (new_pipeline (new_uuid env) (r_id repo)
                       (default "" (after payload))) st).
  { destruct (github_webhook_inv env req st)
      as [(e0 & He & _) | (payload & repo & k & Hq & Hk)].
    - left. congruence.
    - rewrite Hk in Hrun.
      destruct (enqueue_rejects _ _ _ _ _ _ _ Hrun) as (c & m & -> & [-> | ->]);
        [now left | right; now exists payload, repo, c, m]. }
  split; [exact Hmain|]. split.
  - intros (code & detail & ->).
    destruct Hmain as [H | (p & r & c & m & _ & H & _)]; [exact H | discriminate H].
  - intros Hsig. unfold github_webhook in Hrun.
    destruct (verify_rejects (hexdigest env) (body req) (x_hub_signature_256 req)
                (github_webhook_secret env) Hsig) as [Hv | (msg & Hv)];
      rewrite Hv in Hrun; injection Hrun as <- <-; split; auto.
Qed.

Lemma github_webhook_refusals_leave_no_trace_witness :
  github_webhook env_celery forged_push app0
  = (inl (HTTPException 401 "Invalid webhook signature."), app0).
Proof.
  assert (Hrun : exists e st', github_webhook env_celery forged_push app0 = (inl e, st')
                               /\ e = HTTPException 401 "Invalid webhook signature.")
    by (eexists _, _; split; vm_compute; refl).
  destruct Hrun as (e & st' & Hrun & He).
  destruct (github_webhook_refusals_leave_no_trace env_celery forged_push app0 st' e Hrun)
    as (_ & _ & H).
  destruct H as [-> _]; [vm_compute; discriminate|].
  rewrite Hrun, He. refl.
Defined.

(** X13.  When the runner cannot take the run (the Kubernetes backend, whose
    runner raises [NotImplementedError], or a Celery broker that cannot be
    reached), a request that passed every check is answered 500 although its
    run has been committed: the table of runs holds one more queued run,
    for which no task was sent. *)
Theorem github_webhook_strands_the_run_when_the_runner_fails
    (env : WebEnv) (req : Request) (st : AppState)
    (payload : Push) (repo : Repository) :
  qualifies env req st payload repo ->
  storable env st ->
  runner_backend env = kubernetes \/ (exists msg, broker env = Some msg) ->
  exists e,
    github_webhook env req st
    = (inl e,
       {| repositories := repositories st;
          pipelines :=
            pipelines st
            ++ [new_pipeline (new_uuid env) (r_id repo) (default "" (after payload))];
          queue := queue st |})
    /\ response_of e = (500, "Internal server error.")
    /\ (runner_backend env = kubernetes ->
        e = Unhandled "NotImplementedError" "Kubernetes runner not yet implemented.").
Proof.
  intros Hq [Hdb Hfresh] Hfail.
  destruct (github_webhook_qualified env req st payload repo Hq (Hdb 0) (Hdb 1))
    as (k & _ & ->).
  rewrite enqueue_stores by auto. unfold run, get_pipeline_runner.
  destruct (runner_backend env) eqn:Hb.
  - destruct Hfail as [Hfail | (msg & Hmsg)]; [discriminate Hfail|].
    rewrite Hmsg. eexists. split; [refl|]. split; [refl | discriminate].
  - eexists. split; [refl|]. split; [refl | intros _; refl].
Qed.

Lemma github_webhook_strands_the_run_when_the_runner_fails_witness :
  exists e st',
    github_webhook env_kubernetes signed_push app0 = (inl e, st')
    /\ response_of e = (500, "Internal server error.")
    /\ map pl_status (pipelines st') = ["queued"]
    /\ queue st' = [].
Proof.
  destruct (github_webhook_strands_the_run_when_the_runner_fails
              env_kubernetes signed_push app0 sample_push sample_repo)
    as (e & Hrun & Hresp & _);
    [apply signed_push_qualifies; refl | split; [intros k; refl | intros []]
    | now left |].
  eexists e, _. split; [exact Hrun|]. split; [exact Hresp|]. split; refl.
Defined.

(** **** The branch of a push *)

Lemma replace_go_skip old new pre s :
  replace_go old new (length pre) (pre ++ s) = replace_go old new 0 s.
Proof.
  induction pre as [|a pre IH]; [refl|]. cbn [length app replace_go]. exact IH.
Qed.

Lemma replace_go_head old new a s :
  replace_go (a :: old) new 0 ((a :: old) ++ s)
  = new ++ replace_go (a :: old) new 0 s.
Proof.
  cbn [app replace_go].
  rewrite (proj2 (ParserFacts.strip_prefix_Some (a :: old) (a :: old ++ s) s) eq_refl).
  f_equal. cbn [length Nat.sub]. rewrite Nat.sub_0_r. apply replace_go_skip.
Qed.

Lemma replace_go_absent old new s :
  (forall pre post, s <> pre ++ old ++ post) ->
  replace_go old new 0 s = s.
Proof.
  induction s as [|a s IH]; intros Habs; [refl|]. cbn [replace_go].
  destruct (strip_prefix old (a :: s)) as [r|] eqn:Hp.
  - apply ParserFacts.strip_prefix_Some in Hp. exfalso.
    exact (Habs [] r Hp).
  - f_equal. apply IH. intros pre post E. apply (Habs (a :: pre) post).
    cbn [app]. now rewrite E.
Qed.

Lemma occurs_in_chars old s :
  (exists pre post, chars s = pre ++ chars old ++ post) -> occurs_in old s.
Proof.
  intros (pre & post & E).
  exists (string_of_list_ascii pre), (string_of_list_ascii post).
  apply GitHubFacts.chars_inj. rewrite !GitHubFacts.chars_app. unfold chars in *.
  now rewrite !list_ascii_of_string_of_list_ascii.
Qed.

(** X14.  The branch the handler compares with the monitored one is the
    pushed ref with every occurrence of the text refs/heads/ removed: for
    the ref of a branch, refs/heads/ followed by a name in which that text
    does not occur, it is the name; and a ref in which it does not occur at
    all, that of a tag for instance, is compared as it is. *)
Theorem branch_of_removes_refs_heads :
  (forall name : string,
     ~ occurs_in "refs/heads/" name ->
     branch_of ("refs/heads/" +:+ name) = name)
  /\ (forall ref : string,
        ~ occurs_in "refs/heads/" ref -> branch_of ref = ref).
Proof.
  assert (Habs : forall s : string,
            ~ occurs_in "refs/heads/" s ->
            replace_go (chars "refs/heads/") (chars "") 0 (chars s) = chars s).
  { intros s Hs. apply replace_go_absent. intros pre post E. apply Hs.
    apply occurs_in_chars. now exists pre, post. }
  split.
  - intros name Hn. unfold branch_of, replace.
    rewrite GitHubFacts.chars_app.
    change (chars "refs/heads/") with ("r"%char :: chars "efs/heads/").
    rewrite replace_go_head.
    change ("r"%char :: chars "efs/heads/") with (chars "refs/heads/").
    rewrite (Habs name Hn). cbn [chars list_ascii_of_string app]. unfold chars.
    apply string_of_list_ascii_of_string.
  - intros ref Hr. unfold branch_of, replace. rewrite (Habs ref Hr).
    unfold chars. apply string_of_list_ascii_of_string.
Qed.

Lemma branch_of_removes_refs_heads_witness :
  branch_of "refs/heads/main" = "main" /\ branch_of "v1.0" = "v1.0".
Proof.
  assert (Hshort : forall s : string,
            String.length s < 11 -> ~ occurs_in "refs/heads/" s).
  { intros s Hs (pre & post & E). apply (f_equal String.length) in E.
    rewrite !TextFacts.length_append in E. cbn [String.length] in E. lia. }
  destruct branch_of_removes_refs_heads as [Hname Href]. split.
  - apply (Hname "main"), Hshort. cbn. lia.
  - apply (Href "v1.0"), Hshort. cbn. lia.
Defined.

End WebhookFacts.
(** ** The models router *)

Module ModelsRouterFacts.
Import Engine EngineSpec App ModelsRouter AppSamples.

Ltac refl := exact eq_refl.

(** **** Rows switched off and on *)

Lemma deactivate_name name d : d_model_name (deactivate name d) = d_model_name d.
Proof. unfold deactivate. destruct (_ && _); refl. Qed.

Lemma deactivate_other name d :
  d_model_name d <> name -> deactivate name d = d.
Proof.
  intros Hn. unfold deactivate. rewrite bool_decide_eq_false_2 by exact Hn. refl.
Qed.

Lemma deactivate_version name d : d_version (deactivate name d) = d_version d.
Proof. unfold deactivate. destruct (_ && _); refl. Qed.

Lemma deactivate_idem name d :
  deactivate name (deactivate name d) = deactivate name d.
Proof.
  unfold deactivate.
  destruct (bool_decide (d_model_name d = name)) eqn:Hb;
    destruct (d_is_active d) eqn:Ha;
    cbn [andb d_model_name d_is_active]; rewrite ?Hb, ?Ha; refl.
Qed.

(** No row of the model is active once its rows are switched off. *)
Lemma active_for_deactivated name table :
  active_for name (map (deactivate name) table) = [].
Proof.
  unfold active_for. induction table as [|d l IH]; [refl|].
  cbn [map]. rewrite filter_cons. destruct (decide _) as [H|_]; [|exact IH].
  exfalso. exact (EngineFacts.deactivate_not_active name d H).
Qed.

(** The active rows of the other models are as before. *)
Lemma active_for_other name other table :
  other <> name ->
  active_for other (map (deactivate name) table) = active_for other table.
Proof.
  intros Hne. unfold active_for. induction table as [|d l IH]; [refl|].
  cbn [map]. rewrite !filter_cons, IH.
  destruct (decide (d_model_name d = name)) as [Hd|Hd].
  - destruct (decide _) as [[H1 _]|_].
    { rewrite deactivate_name in H1. congruence. }
    destruct (decide _) as [[H1 _]|_]; [congruence | refl].
  - rewrite (deactivate_other name d Hd). refl.
Qed.

Lemma rolled_back_lookup name i table d :
  table !! i = Some d ->
  rolled_back name i table !! i = Some (set_active true (deactivate name d)).
Proof.
  intros Hi. unfold rolled_back.
  rewrite list_lookup_alter, list_lookup_fmap, Hi.
  destruct (decide (i = i)) as [_|H]; [refl | now contradiction H].
Qed.

Lemma rolled_back_lookup_ne name i j table :
  i <> j ->
  rolled_back name i table !! j = deactivate name <$> (table !! j).
Proof.
  intros Hne. unfold rolled_back.
  rewrite list_lookup_alter_ne by exact Hne. apply list_lookup_fmap.
Qed.

Lemma active_for_alter_other other i table :
  (forall d, table !! i = Some d -> d_model_name d <> other) ->
  active_for other (alter (set_active true) i table) = active_for other table.
Proof.
  unfold active_for. revert i. induction table as [|d l IH]; intros i Hi; [refl|].
  destruct i as [|i]; cbn [alter list_alter].
  - rewrite !filter_cons.
    destruct (decide _) as [[H _]|_]; [exfalso; exact (Hi d eq_refl H)|].
    destruct (decide _) as [[H _]|_]; [exfalso; exact (Hi d eq_refl H) | refl].
  - rewrite !filter_cons. change (list_alter (set_active true) i l)
      with (alter (set_active true) i l).
    rewrite (IH i) by (intros d' Hd'; exact (Hi d' Hd')). refl.
Qed.

Lemma active_for_alter_none name i table d :
  table !! i = Some d -> d_model_name d = name ->
  active_for name table = [] ->
  active_for name (alter (set_active true) i table) = [set_active true d].
Proof.
  unfold active_for. revert i. induction table as [|d0 l IH]; intros i Hi Hn Hnone;
    [discriminate Hi|].
  rewrite filter_cons in Hnone.
  destruct (decide (d_model_name d0 = name /\ d_is_active d0 = true)) as [H0|H0];
    [discriminate Hnone|].
  destruct i as [|i]; cbn [alter list_alter].
  - injection Hi as ->. rewrite filter_cons.
    destruct (decide _) as [_|H]; [|exfalso; apply H; now split].
    now rewrite Hnone.
  - rewrite filter_cons. destruct (decide _) as [H|_]; [contradiction|].
    exact (IH i Hi Hn Hnone).
Qed.

(** After a rollback to the [i]-th row, that row is the one active row of
    the model. *)
Lemma active_for_rolled_back name i table d :
  table !! i = Some d -> d_model_name d = name ->
  active_for name (rolled_back name i table) = [set_active true (deactivate name d)].
Proof.
  intros Hi Hn. unfold rolled_back.
  apply active_for_alter_none.
  - now rewrite list_lookup_fmap, Hi.
  - now rewrite deactivate_name.
  - apply active_for_deactivated.
Qed.

Lemma active_for_rolled_back_other name other i table d :
  table !! i = Some d -> d_model_name d = name -> other <> name ->
  active_for other (rolled_back name i table) = active_for other table.
Proof.
  intros Hi Hn Hne. unfold rolled_back.
  rewrite active_for_alter_other.
  - now apply active_for_other.
  - intros d'. rewrite list_lookup_fmap, Hi. intros [= <-].
    rewrite deactivate_name. congruence.
Qed.

(** **** The handlers, case by case *)

Lemma rollback_model_cases env name version table :
  (db_ok env 0 = false
   /\ rollback_model env name version table = (inl (db_error "select"), table))
  \/ (db_ok env 0 = true
      /\ list_find (fun d => d_model_name d = name /\ d_version d = version) table
         = None
      /\ rollback_model env name version table
         = (inl (HTTPException 404
                   ("No deployment found for " +:+ name +:+ " version "
                    +:+ version +:+ ".")), table))
  \/ (db_ok env 0 = true
      /\ exists i d msg,
           list_find (fun d => d_model_name d = name /\ d_version d = version) table
           = Some (i, d)
           /\ load env name (reload_request d version) = Some msg
           /\ rollback_model env name version table
              = (inl (HTTPException 502 ("Failed to reload model: " +:+ msg)),
                 table))
  \/ (exists i d m,
        list_find (fun d => d_model_name d = name /\ d_version d = version) table
        = Some (i, d)
        /\ load env name (reload_request d version) = None
        /\ rollback_model env name version table = (inl (db_error m), table))
  \/ (exists i d,
        list_find (fun d => d_model_name d = name /\ d_version d = version) table
        = Some (i, d)
        /\ load env name (reload_request d version) = None
        /\ rollback_model env name version table
           = (inr {| message := "Rolled back " +:+ name +:+ " to version "
                                 +:+ version +:+ "." |},
              rolled_back name i table)).
Proof.
  unfold rollback_model.
  destruct (db_ok env 0); cbn [negb]; [|left; now split].
  destruct (list_find _ table) as [[i d]|] eqn:Hfind;
    [|right; left; repeat split].
  destruct (load env name (reload_request d version)) as [msg|] eqn:Hload.
  { right; right; left. split; [refl|]. exists i, d, msg. repeat split.
    exact Hload. }
  destruct (db_ok env 1); cbn [negb].
  2: { do 3 right. left. exists i, d, "select". repeat split. exact Hload. }
  destruct (db_ok env 2); cbn [negb].
  2: { do 3 right. left. exists i, d, "commit". repeat split. exact Hload. }
  do 4 right. exists i, d. repeat split. exact Hload.
Qed.

Lemma rollback_model_table env name version table :
  (rollback_model env name version table).2 = table
  \/ exists i d,
       list_find (fun d => d_model_name d = name /\ d_version d = version) table
       = Some (i, d)
       /\ load env name (reload_request d version) = None
       /\ rollback_model env name version table
          = (inr {| message := "Rolled back " +:+ name +:+ " to version "
                                +:+ version +:+ "." |},
             rolled_back name i table).
Proof.
  unfold rollback_model.
  destruct (db_ok env 0); cbn [negb]; [|now left].
  destruct (list_find _ table) as [[i d]|] eqn:Hfind; [|now left].
  destruct (load env name (reload_request d version)) eqn:Hload; [now left|].
  destruct (db_ok env 1); cbn [negb]; [|now left].
  destruct (db_ok env 2); cbn [negb]; [|now left].
  right. exists i, d. split; [refl|]. split; [exact Hload | refl].
Qed.

Lemma delete_model_table env name table :
  (delete_model env name table).2 = table
  \/ (delete_model env name table).2 = map (deactivate name) table.
Proof.
  unfold delete_model.
  destruct (unload env name); destruct (db_ok env 0); cbn [negb]; try (now left);
    destruct (db_ok env 1); cbn [negb]; try (now left); now right.
Qed.

(** **** One active row per model *)

Lemma one_active_promote new table :
  d_is_active new = true ->
  one_active_per_model table -> one_active_per_model (promote new table).
Proof.
  intros Hact IH name. destruct (decide (name = d_model_name new)) as [->|Hne].
  - rewrite EngineFacts.promote_active_unique by exact Hact. cbn. lia.
  - unfold promote, active_for. rewrite filter_app.
    fold (active_for name (map (deactivate (d_model_name new)) table)).
    rewrite active_for_other by exact Hne.
    rewrite filter_cons. destruct (decide _) as [[H _]|_]; [congruence|].
    rewrite filter_nil, app_nil_r. apply IH.
Qed.

Lemma one_active_deactivated name table :
  one_active_per_model table ->
  one_active_per_model (map (deactivate name) table).
Proof.
  intros IH other. destruct (decide (other = name)) as [->|Hne].
  - rewrite active_for_deactivated. cbn. lia.
  - rewrite active_for_other by exact Hne. apply IH.
Qed.

Lemma one_active_rolled_back name i table d :
  table !! i = Some d -> d_model_name d = name ->
  one_active_per_model table -> one_active_per_model (rolled_back name i table).
Proof.
  intros Hi Hn IH other. destruct (decide (other = name)) as [->|Hne].
  - rewrite (active_for_rolled_back name i table d Hi Hn). cbn. lia.
  - rewrite (active_for_rolled_back_other name other i table d Hi Hn Hne).
    apply IH.
Qed.

(** X15.  Whatever sequence of promotions by the deploy phase of the task,
    rollbacks and deletions through the API has made the table of
    deployments out of the empty table, whatever failed on the way, at most
    one row of each model is active. *)
Theorem at_most_one_active_deployment_per_model (table : list ModelDeployment) :
  reachable_table table ->
  forall name, length (active_for name table) <= 1.
Proof.
  intros Hreach. change (one_active_per_model table).
  induction Hreach as [|new table Hact _ IH|env name version table _ IH
                       |env name table _ IH].
  - intros name. cbn. lia.
  - now apply one_active_promote.
  - destruct (rollback_model_table env name version table)
      as [-> | (i & d & Hfind & _ & ->)]; [exact IH|].
    apply list_find_Some in Hfind as (Hi & [Hn _] & _).
    exact (one_active_rolled_back name i table d Hi Hn IH).
  - destruct (delete_model_table env name table) as [-> | ->]; [exact IH|].
    now apply one_active_deactivated.
Qed.

Lemma set_active_deactivate name d :
  set_active true (deactivate name d) = set_active true d.
Proof. unfold deactivate. destruct (_ && _); refl. Qed.

Lemma list_models_of_model name table d :
  d ∈ list_models table -> d_model_name d = name -> d ∈ active_for name table.
Proof.
  unfold list_models, active_for. rewrite !list_elem_of_filter.
  intros [Ha Hin] Hn. now split.
Qed.

(** X16.  A rollback that answers has found a deployment of the model with
    the requested version (the first in the table), has had the model
    server load it, and has committed a table of the same length in which
    that row is the one active row of the model, so that the list of
    deployed models shows the model with the requested version only, and in
    which the active rows of the other models are as before.  A rollback
    that raises leaves the table as it was: with 404 when no row has that
    model and version, with 502 and the message of the failure when the
    model server does not load the model. *)
Theorem rollback_model_activates_the_requested_version
    (env : ModelsEnv) (name version : string) (table : list ModelDeployment) :
  match rollback_model env name version table with
  | (inr resp, table') =>
      exists i d,
        table !! i = Some d
        /\ d_model_name d = name /\ d_version d = version
        /\ (forall j d', table !! j = Some d' -> j < i ->
                         ~ (d_model_name d' = name /\ d_version d' = version))
        /\ load env name (reload_request d version) = None
        /\ table' !! i = Some (set_active true d)
        /\ active_for name table' = [set_active true d]
        /\ (forall d', d' ∈ list_models table' -> d_model_name d' = name ->
                       d_version d' = version)
        /\ (forall other, other <> name ->
                          active_for other table' = active_for other table)
        /\ length table' = length table
  | (inl e, table') =>
      table' = table
      /\ (db_ok env 0 = true ->
          Forall (fun d => ~ (d_model_name d = name /\ d_version d = version)) table ->
          e = HTTPException 404
                ("No deployment found for " +:+ name +:+ " version "
                 +:+ version +:+ "."))
      /\ (db_ok env 0 = true ->
          forall i d msg,
            list_find (fun d => d_model_name d = name /\ d_version d = version) table
            = Some (i, d) ->
            load env name (reload_request d version) = Some msg ->
            e = HTTPException 502 ("Failed to reload model: " +:+ msg))
  end.
Proof.
  destruct (rollback_model_cases env name version table)
    as [(Hdb & ->) | [(Hdb & Hfind & ->) | [(Hdb & i & d & msg & Hfind & Hload & ->)
       | [(i & d & m & Hfind & Hload & ->) | (i & d & Hfind & Hload & ->)]]]].
  - split; [refl|]. rewrite Hdb. split; discriminate.
  - split; [refl|]. split; [intros; refl|]. intros _ i d msg H. congruence.
  - split; [refl|]. split.
    + intros _ H. apply (proj2 (list_find_None _ _)) in H. congruence.
    + intros _ i' d' msg' H1 H2. rewrite Hfind in H1. injection H1 as <- <-.
      rewrite Hload in H2. now injection H2 as <-.
  - split; [refl|]. split.
    + intros _ H. apply (proj2 (list_find_None _ _)) in H. congruence.
    + intros _ i' d' msg' H1 H2. rewrite Hfind in H1. injection H1 as <- <-.
      congruence.
  - apply list_find_Some in Hfind as (Hi & [Hn Hv] & Hfirst).
    exists i, d. split; [exact Hi|]. split; [exact Hn|]. split; [exact Hv|].
    split; [exact Hfirst|]. split; [exact Hload|].
    pose proof (active_for_rolled_back name i table d Hi Hn) as Hact.
    rewrite set_active_deactivate in Hact.
    split; [rewrite (rolled_back_lookup name i table d Hi);
            now rewrite set_active_deactivate|].
    split; [exact Hact|]. split; [|split].
    + intros d' Hd' Hn'. apply (list_models_of_model name) in Hd'; [|exact Hn'].
      rewrite Hact in Hd'. apply list_elem_of_singleton in Hd'. now subst d'.
    + intros other Hne.
      exact (active_for_rolled_back_other name other i table d Hi Hn Hne).
    + unfold rolled_back. now rewrite length_alter, length_map.
Qed.

Lemma rollback_model_activates_the_requested_version_witness :
  exists resp table',
    rollback_model models_env "iris-classifier" "0" two_deployments
    = (inr resp, table')
    /\ map (fun d => (d_version d, d_is_active d)) table'
       = [("0", true); ("1", false)].
Proof.
  pose proof (rollback_model_activates_the_requested_version models_env
                "iris-classifier" "0" two_deployments) as H.
  destruct (rollback_model models_env "iris-classifier" "0" two_deployments)
    as [[e|resp] table'] eqn:Hrun; [vm_compute in Hrun; discriminate Hrun|].
  exists resp, table'. split; [refl|].
  vm_compute in Hrun. injection Hrun as _ <-. refl.
Defined.

(** X17.  Unregistering a model never fails because of the model server:
    whether the unload call succeeds or raises, and whether or not the model
    was ever deployed, the handler answers as soon as the database does.  It
    has then switched off every row of the model and no other row, so that
    the list of deployed models no longer shows the model, and doing it
    again changes nothing.  When the database fails the table is as it was. *)
Theorem delete_model_deactivates_whatever_the_server_says
    (env : ModelsEnv) (name : string) (table : list ModelDeployment) :
  match delete_model env name table with
  | (inr resp, table') =>
      resp = {| message := "Model " +:+ name +:+ " unregistered." |}
      /\ table' = map (deactivate name) table
      /\ active_for name table' = []
      /\ (forall d, d ∈ list_models table' -> d_model_name d <> name)
      /\ (forall other, other <> name ->
                        active_for other table' = active_for other table)
      /\ (delete_model env name table').2 = table'
  | (inl e, table') =>
      table' = table /\ (db_ok env 0 = false \/ db_ok env 1 = false)
  end
  /\ (db_ok env 0 = true -> db_ok env 1 = true ->
      exists resp table', delete_model env name table = (inr resp, table')).
Proof.
  assert (Hidem : forall t, map (deactivate name) (map (deactivate name) t)
                            = map (deactivate name) t).
  { intros t. rewrite map_map. apply map_ext. intros d. apply deactivate_idem. }
  unfold delete_model.
  destruct (unload env name); destruct (db_ok env 0); cbn [negb];
    try destruct (db_ok env 1); cbn [negb];
    (split; [|first [ intros _ _; eexists _, _; refl
                    | intros H; discriminate H
                    | intros _ H; discriminate H ]]);
    try (split; [refl | now (left + right)]);
    (split; [refl|]); (split; [refl|]);
    (split; [apply active_for_deactivated|]);
    (split; [intros d Hd Hn; apply (list_models_of_model name) in Hd;
             [rewrite active_for_deactivated in Hd; inversion Hd | exact Hn]|]);
    (split; [intros other Hne; now apply active_for_other|]);
    apply Hidem.
Qed.

Lemma delete_model_deactivates_whatever_the_server_says_witness :
  delete_model models_env_down "iris-classifier" two_deployments
  = (inr {| message := "Model iris-classifier unregistered." |},
     map (deactivate "iris-classifier") two_deployments).
Proof.
  destruct (delete_model_deactivates_whatever_the_server_says models_env_down
              "iris-classifier" two_deployments) as [H _].
  destruct (delete_model models_env_down "iris-classifier" two_deployments)
    as [[e|resp] table'] eqn:Hrun; [vm_compute in Hrun; discriminate Hrun|].
  destruct H as (-> & -> & _). refl.
Defined.

Lemma at_most_one_active_deployment_per_model_witness :
  length (active_for "iris-classifier"
            (rollback_model models_env "iris-classifier" "0" two_deployments).2)
  <= 1.
Proof.
  apply at_most_one_active_deployment_per_model.
  apply table_rollback. unfold two_deployments.
  apply table_promote; [refl|]. apply table_promote; [refl|]. apply table_empty.
Defined.

End ModelsRouterFacts.
(** ** The repositories router *)

Module ReposRouterFacts.
Import GitHub App WebhookRouter ReposRouter AppSamples.

Ltac refl := exact eq_refl.

Lemma active_repos_removed url repo_id table :
  (forall r, r ∈ table -> r_is_active r = true -> r_github_url r = url ->
             r_id r = repo_id) ->
  active_repos url (filter (fun r => r_id r <> repo_id) table) = [].
Proof.
  intros H. unfold active_repos.
  induction table as [|r l IH]; [refl|].
  assert (IH' : filter (fun r => r_github_url r = url /\ r_is_active r = true)
                  (filter (fun r => r_id r <> repo_id) l) = []).
  { apply IH. intros r' Hr'. apply H. now right. }
  rewrite filter_cons. destruct (decide (r_id r <> repo_id)) as [Hid|_];
    [|exact IH'].
  rewrite filter_cons, IH'. destruct (decide _) as [[Hu Ha]|_]; [|refl].
  exfalso. apply Hid. apply H; [left | exact Ha | exact Hu].
Qed.

(** X18.  [delete_repo] answers 404 and changes nothing for an identifier
    that is not registered.  For a registered one it removes the row of that
    identifier and no other, whether or not the hook can be deleted on
    GitHub (an unparsable URL, an error of the API): only a failure of the
    database makes it raise, as when the database refuses to delete a
    repository that runs still refer to.  The runs and the queue are untouched.  From
    then on a signed push for the URL of that repository, when no other
    active repository is registered under it, is answered 404 by the
    webhook and starts no run. *)
Theorem delete_repo_removes_the_registration
    (env : ReposEnv) (repo_id : nat) (st : AppState) :
  (Forall (fun r => r_id r <> repo_id) (repositories st) ->
   db_ok env 0 = true ->
   delete_repo env repo_id st
   = (inl (HTTPException 404 ("Repository " +:+ pretty repo_id +:+ " not found.")),
      st))
  /\ (forall repo,
        repo ∈ repositories st -> r_id repo = repo_id ->
        db_ok env 0 = true -> db_ok env 1 = true ->
        delete_repo env repo_id st
        = (inr {| message := "Repository " +:+ pretty repo_id +:+ " deleted." |},
           {| repositories := filter (fun r => r_id r <> repo_id) (repositories st);
              pipelines := pipelines st; queue := queue st |}))
  /\ (forall resp st' wenv req payload,
        delete_repo env repo_id st = (inr resp, st') ->
        (forall r, r ∈ repositories st -> r_is_active r = true ->
                   r_github_url r = default "" (html_url payload)
                   \/ r_github_url r = default "" (html_url payload) +:+ ".git" ->
                   r_id r = repo_id) ->
        x_hub_signature_256 req
        = "sha256=" +:+ hexdigest wenv (github_webhook_secret wenv) (body req) ->
        is_ascii (x_hub_signature_256 req) = true ->
        x_github_event req = "push" ->
        json req = inr payload ->
        (forall k, WebhookRouter.db_ok wenv k = true) ->
        github_webhook wenv req st'
        = (inl (HTTPException 404 "No registered repository matches this webhook."),
           st')).
Proof.
  split; [|split].
  - intros Hnone Hdb. unfold delete_repo. rewrite Hdb. cbn [negb].
    rewrite (proj2 (list_find_None _ _) Hnone). refl.
  - intros repo Hin Hid Hdb0 Hdb1. unfold delete_repo. rewrite Hdb0, Hdb1.
    cbn [negb].
    destruct (list_find (fun r => r_id r = repo_id) (repositories st))
      as [[i r]|] eqn:Hfind.
    + destruct (match r_webhook_id r with
                | Some webhook_id =>
                    if bool_decide (webhook_id = 0%Z) then inr ()
                    else delete_webhook env (r_github_url r) webhook_id
                | None => inr ()
                end); refl.
    + apply list_find_None in Hfind. rewrite Forall_forall in Hfind.
      now destruct (Hfind repo Hin).
  - intros resp st' wenv req payload Hdel Hother Hsig Hascii Hev Hjson Hdb.
    assert (Hst : repositories st'
                  = filter (fun r => r_id r <> repo_id) (repositories st)).
    { unfold delete_repo in Hdel.
      destruct (db_ok env 0); cbn [negb] in Hdel; [|discriminate Hdel].
      destruct (list_find _ (repositories st)) as [[i r]|]; [|discriminate Hdel].
      destruct (match r_webhook_id r with Some _ => _ | None => _ end);
        (destruct (db_ok env 1); cbn [negb] in Hdel; [|discriminate Hdel]);
        injection Hdel as _ <-; refl. }
    unfold github_webhook.
    rewrite (proj2 (WebhookFacts.verify_true_iff _ _ _ _) (conj Hsig Hascii)).
    rewrite Hev, Hjson, !Hdb, String.eqb_refl. cbn [negb]. rewrite Hst.
    rewrite !active_repos_removed; [refl | |];
      intros r Hr Ha Hu; apply (Hother r Hr Ha); auto.
Qed.

Lemma delete_repo_removes_the_registration_witness :
  exists st',
    delete_repo repos_env_github_down 1 app0
    = (inr {| message := "Repository 1 deleted." |}, st')
    /\ repositories st' = []
    /\ github_webhook env_celery signed_push st'
       = (inl (HTTPException 404 "No registered repository matches this webhook."),
          st').
Proof.
  destruct (delete_repo_removes_the_registration repos_env_github_down 1 app0)
    as (_ & Hdel & Hpush).
  specialize (Hdel sample_repo ltac:(left) eq_refl eq_refl eq_refl).
  eexists. split; [exact Hdel|]. split; [refl|].
  apply (Hpush _ _ env_celery signed_push sample_push Hdel);
    [ intros r Hr _ _; apply list_elem_of_singleton in Hr; now subst r
    | refl | refl | refl | refl | intros k; refl ].
Defined.

End ReposRouterFacts.
(** ** The notebook parser, further *)

Module ParserMoreFacts.
Import NotebookParser Samples MoreSamples.

Ltac refl := exact eq_refl.

Lemma filter_ext_in {A} (P Q : A -> Prop) `{!forall x, Decision (P x)}
    `{!forall x, Decision (Q x)} (l : list A) :
  (forall x, x ∈ l -> (P x <-> Q x)) -> filter P l = filter Q l.
Proof.
  induction l as [|x l IH]; intros Hext; [refl|].
  rewrite !filter_cons, IH by (intros y Hy; apply Hext; now right).
  assert (Hx : P x <-> Q x) by (apply Hext; now left).
  destruct (decide (P x)) as [Hp|Hp], (decide (Q x)) as [Hq|Hq]; try refl;
    exfalso; tauto.
Qed.

(** X19.  The verdict of [validate_required_tags], and the message when it
    raises, depend only on which of the four required tags some cell of the
    notebook carries: not on the order of the cells, on their number, on
    their sources or on their other tags.  In particular a valid notebook
    stays valid when cells or tags are added. *)
Theorem validate_required_tags_depends_on_tags_present (nb nb' : notebook) :
  ((forall t, t ∈ REQUIRED_TAGS -> (has_tag nb t <-> has_tag nb' t)) ->
   validate_required_tags nb = validate_required_tags nb')
  /\ ((forall t, t ∈ REQUIRED_TAGS -> has_tag nb t -> has_tag nb' t) ->
      validate_required_tags nb = inr tt ->
      validate_required_tags nb' = inr tt).
Proof.
  assert (Hvalid : forall n, validate_required_tags n = inr tt
                             <-> absent_tags n = []).
  { intros n. unfold validate_required_tags.
    rewrite ParserFacts.missing_tags_absent.
    destruct (absent_tags n); split; congruence. }
  split.
  - intros H. unfold validate_required_tags.
    rewrite !ParserFacts.missing_tags_absent.
    assert (E : absent_tags nb = absent_tags nb').
    { unfold absent_tags. apply filter_ext_in. intros t Ht.
      now rewrite (H t Ht). }
    now rewrite E.
  - intros H Hv. apply Hvalid. apply Hvalid in Hv.
    destruct (absent_tags nb') as [|t l] eqn:E; [refl|]. exfalso.
    assert (Hin : t ∈ absent_tags nb') by (rewrite E; left).
    unfold absent_tags in Hin. apply list_elem_of_filter in Hin as [Hno Ht].
    assert (Hin : t ∈ absent_tags nb).
    { unfold absent_tags. apply list_elem_of_filter. split; [|exact Ht].
      intros Hy. apply Hno, (H t Ht), Hy. }
    rewrite Hv in Hin. inversion Hin.
Qed.

Lemma validate_required_tags_depends_on_tags_present_witness :
  validate_required_tags nb_shuffled = validate_required_tags nb_full.
Proof.
  destruct (validate_required_tags_depends_on_tags_present nb_shuffled nb_full)
    as [H _].
  apply H. intros t Ht. unfold REQUIRED_TAGS in Ht.
  repeat (apply elem_of_cons in Ht as [->|Ht]);
    [ | | | | inversion Ht];
    split; intros _;
    match goal with
    | |- has_tag ?nb ?t =>
        apply (bool_decide_eq_true_1 (has_tag nb t)); vm_compute; refl
    end.
Defined.

(** X20.  [extract_config] raises, with its fixed message, exactly when no
    cell carries the tag mlops:config, and returns a configuration
    otherwise.  So after [validate_required_tags] has returned, as in the
    validate phase of the task, [extract_config] cannot raise. *)
Theorem extract_config_raises_only_without_config_cell (nb : notebook) :
  (has_tag nb "mlops:config" -> exists cfg, extract_config nb = inr cfg)
  /\ (~ has_tag nb "mlops:config" ->
      extract_config nb
      = inl (Py.ValueError "No cell with tag 'mlops:config' found in notebook."))
  /\ (validate_required_tags nb = inr tt -> exists cfg, extract_config nb = inr cfg).
Proof.
  assert (Hsome : get_cells_by_tag nb "mlops:config" <> [] ->
                  exists cfg, extract_config nb = inr cfg).
  { intros H. unfold extract_config.
    destruct (get_cells_by_tag nb "mlops:config"); [contradiction|].
    eexists; refl. }
  split; [|split].
  - intros Hy. apply Hsome. intros E.
    now apply ParserFacts.get_cells_by_tag_nil in E.
  - intros Hn. apply ParserFacts.get_cells_by_tag_nil in Hn.
    unfold extract_config. now rewrite Hn.
  - intros Hv. apply Hsome. intros E.
    unfold validate_required_tags, missing_tags, REQUIRED_TAGS in Hv.
    rewrite filter_cons in Hv.
    destruct (decide (get_cells_by_tag nb "mlops:config" = [])) as [_|Hne];
      [discriminate Hv | contradiction].
Qed.

Lemma extract_config_raises_only_without_config_cell_witness :
  exists cfg, extract_config nb_shuffled = inr cfg.
Proof.
  destruct (extract_config_raises_only_without_config_cell nb_shuffled)
    as (_ & _ & H).
  apply H. vm_compute. refl.
Defined.

Lemma config_field_wellformed key dflt src :
  dflt <> "" -> Forall (fun a => is_quote a = false) (chars dflt) ->
  config_field key dflt src <> ""
  /\ Forall (fun a => is_quote a = false) (chars (config_field key dflt src)).
Proof.
  intros Hd Hq. unfold config_field.
  destruct (re_search (chars key) (chars src)) as [v|] eqn:Hs; [|now split].
  destruct (ParserFacts.re_search_Some _ _ _ Hs) as (pre & Hat & _).
  destruct Hat as (ws1 & ws2 & q1 & q2 & rest & _ & _ & _ & _ & _ & Hv & Hvq).
  split.
  - destruct v; [contradiction | discriminate].
  - unfold chars. now rewrite list_ascii_of_string_of_list_ascii.
Qed.

(** X21.  Whatever the notebook, the two fields of a configuration that
    [extract_config] returns are never empty and hold neither a single nor
    a double quote: a declaration with an empty value is not a declaration,
    and a value ends at the first quote of either kind. *)
Theorem extract_config_values_are_nonempty_and_quote_free
    (nb : notebook) (cfg : config) :
  extract_config nb = inr cfg ->
  model_name cfg <> "" /\ version cfg <> ""
  /\ Forall (fun a => a <> squote /\ a <> dquote) (chars (model_name cfg))
  /\ Forall (fun a => a <> squote /\ a <> dquote) (chars (version cfg)).
Proof.
  unfold extract_config.
  destruct (get_cells_by_tag nb "mlops:config") as [|c cs]; [discriminate|].
  intros [= <-]. cbn [model_name version].
  assert (Hq : forall a, is_quote a = false -> a <> squote /\ a <> dquote).
  { intros a Ha. unfold is_quote in Ha. apply orb_false_elim in Ha as [H1 H2].
    split; intros ->; [discriminate H1 | discriminate H2]. }
  destruct (config_field_wellformed "MODEL_NAME" "default-model" (cell_text c))
    as [Hm Hmq]; [discriminate | repeat constructor|].
  destruct (config_field_wellformed "VERSION" "1" (cell_text c))
    as [Hv Hvq]; [discriminate | repeat constructor|].
  repeat split; try assumption;
    (eapply Forall_impl; [eassumption|]); exact Hq.
Qed.

Lemma extract_config_values_are_nonempty_and_quote_free_witness :
  exists cfg,
    extract_config nb_shuffled = inr cfg
    /\ model_name cfg <> "" /\ version cfg <> "".
Proof.
  exists {| model_name := "default-model"; version := "7" |}.
  assert (H : extract_config nb_shuffled
              = inr {| model_name := "default-model"; version := "7" |})
    by (vm_compute; refl).
  split; [exact H|].
  destruct (extract_config_values_are_nonempty_and_quote_free nb_shuffled _ H)
    as (Hm & Hv & _).
  split; assumption.
Defined.

End ParserMoreFacts.

(** ** The model server: unloading, reloading, counting, readiness *)

Module ServerMoreFacts.
Import ModelServer ModelServerSystem Samples MoreSamples.

Ltac refl := exact eq_refl.

Lemma ready_size st : models_loaded (ready st) = size (_models st).
Proof. refl. Qed.

(** X22.  [delete_model] either finds no model under the name, and then it
    raises 404 and leaves the state as it is, or it removes that one key:
    every other model stays as it was, the number [ready] reports drops by
    one, and from then on [predict] and a second [delete_model] for that
    name raise 404 without changing anything. *)
Theorem delete_model_unloads_exactly_that_model (name : string) (st : ServerState) :
  match delete_model name st with
  | (inl exc, st') =>
      _models st !! name = None /\ st' = st
      /\ exc = Py.HTTPException 404 ("Model '" +:+ name +:+ "' is not loaded.")
  | (inr resp, st') =>
      is_Some (_models st !! name)
      /\ resp = {| message := "Model '" +:+ name +:+ "' unloaded." |}
      /\ _models st' !! name = None
      /\ (forall k, k <> name -> _models st' !! k = _models st !! k)
      /\ clock st' = clock st
      /\ S (models_loaded (ready st')) = models_loaded (ready st)
      /\ (forall data,
            predict name data st'
            = (inl (Py.HTTPException 404 ("Model '" +:+ name +:+ "' is not loaded.")),
               st'))
      /\ delete_model name st'
         = (inl (Py.HTTPException 404 ("Model '" +:+ name +:+ "' is not loaded.")),
            st')
  end.
Proof.
  unfold delete_model. destruct (_models st !! name) as [e|] eqn:He.
  - cbn [set_models _models clock].
    assert (Hd : delete name (_models st) !! name = None)
      by apply lookup_delete_eq.
    split; [now exists e|]. split; [refl|]. split; [exact Hd|].
    split; [intros k Hk; now rewrite lookup_delete_ne by congruence|].
    split; [refl|]. split.
    { rewrite !ready_size. cbn [_models].
      transitivity (size (<[name:=e]> (delete name (_models st)))).
      - now rewrite map_size_insert_None by exact Hd.
      - f_equal. now apply insert_delete_id. }
    split.
    + intros data. unfold predict. cbn [set_models _models]. now rewrite Hd.
    + cbn [set_models _models]. now rewrite Hd.
  - repeat split.
Qed.

(** X23.  After [load_model] has succeeded for a name, [predict] for that
    name is answered by the model just deserialised, whatever was loaded
    under the name before: the version in the response is the one of the
    load request, and the counter of the entry, which restarts at zero with
    every load, is one after the first prediction the model makes. *)
Theorem load_model_then_predict_serves_the_new_model
    (env : Env) (name : string) (body : LoadModelRequest) (st : ServerState)
    (m : Model) (data : list (list Q)) :
  locate_and_load env body = inr m ->
  let st1 := (load_model env name body st).2 in
  (request_count <$> (_models st1 !! name)) = Some 0
  /\ match model_predict m data with
     | inl msg =>
         predict name data st1
         = (inl (Py.HTTPException 500 ("Prediction failed: " +:+ msg)), st1)
     | inr p =>
         (request_count <$> (_models (predict name data st1).2 !! name)) = Some 1
         /\ (predict name data st1).1
            = match to_list p with
              | inl msg => inl (Py.HTTPException 500 ("Prediction failed: " +:+ msg))
              | inr l => inr {| resp_prediction := l; resp_model_name := name;
                                resp_version := req_version body |}
              end
     end.
Proof.
  intros Hl. unfold load_model. rewrite Hl. cbn [snd].
  split; [cbn [_models]; now rewrite lookup_insert_eq|].
  unfold predict. cbn [_models]. rewrite lookup_insert_eq. cbn [model version].
  destruct (model_predict m data) as [msg|p]; [refl|].
  destruct (to_list p); cbn [fst snd set_models _models];
    rewrite lookup_insert_eq; split; refl.
Qed.

Lemma load_model_then_predict_serves_the_new_model_witness :
  (predict "iris-classifier" [[1%Q]]
     (load_model env_artifact_dir "iris-classifier"
        {| req_mlflow_run_id := "run-2"; req_version := "2" |}
        server_with_iris).2).1
  = inr {| resp_prediction := [0%Q]; resp_model_name := "iris-classifier";
           resp_version := "2" |}.
Proof.
  destruct (load_model_then_predict_serves_the_new_model env_artifact_dir
              "iris-classifier"
              {| req_mlflow_run_id := "run-2"; req_version := "2" |}
              server_with_iris constant_model [[1%Q]]) as [_ [_ H]];
    [vm_compute; refl|].
  exact H.
Defined.

Lemma answered_model e1 e name r :
  model e1 = model e -> answered e1 name r = answered e name r.
Proof. intros H. unfold answered. now rewrite H. Qed.

Lemma predict_step name r st e :
  _models st !! name = Some e ->
  exists e1,
    _models (predict r.1 r.2 st).2 !! name = Some e1
    /\ request_count e1
       = request_count e + (if answered e name r then 1 else 0)
    /\ model e1 = model e /\ model_name e1 = model_name e
    /\ version e1 = version e /\ mlflow_run_id e1 = mlflow_run_id e
    /\ loaded_at e1 = loaded_at e.
Proof.
  intros He. unfold predict, answered.
  destruct (decide (r.1 = name)) as [Heq|Hne].
  - rewrite (bool_decide_eq_true_2 _ Heq), Heq, He. cbn [andb].
    destruct (model_predict (model e) r.2) as [msg|p].
    + exists e. cbn [snd]. rewrite He, Nat.add_0_r. repeat split.
    + exists (count_request e).
      assert (Hs : _models (set_models <[name:=count_request e]> st) !! name
                   = Some (count_request e))
        by (cbn [set_models _models]; apply lookup_insert_eq).
      destruct (to_list p); cbn [snd]; rewrite Hs;
        (split; [refl|]); cbn [count_request request_count];
        (split; [lia|]); repeat split.
  - rewrite (bool_decide_eq_false_2 _ Hne). cbn [andb].
    exists e. rewrite Nat.add_0_r. split; [|repeat split].
    destruct (_models st !! r.1) as [e0|]; [|exact He].
    destruct (model_predict (model e0) r.2) as [msg|p]; [exact He|].
    assert (Hs : _models (set_models <[r.1:=count_request e0]> st) !! name
                 = Some e)
      by (cbn [set_models _models]; now rewrite lookup_insert_ne by exact Hne).
    destruct (to_list p); exact Hs.
Qed.

Lemma predict_keeps_keys name data st k :
  is_Some (_models (predict name data st).2 !! k) <-> is_Some (_models st !! k).
Proof.
  unfold predict. destruct (_models st !! name) as [e|] eqn:He; [|reflexivity].
  destruct (model_predict (model e) data) as [msg|p]; [reflexivity|].
  assert (H : is_Some (_models (set_models <[name:=count_request e]> st) !! k)
              <-> is_Some (_models st !! k)).
  { cbn [set_models _models]. destruct (decide (name = k)) as [<-|Hne].
    - rewrite lookup_insert_eq, He. split; intros _; eexists; refl.
    - now rewrite lookup_insert_ne by exact Hne. }
  destruct (to_list p); exact H.
Qed.

Lemma predict_keeps_clock name data st :
  clock (predict name data st).2 = clock st.
Proof.
  unfold predict. destruct (_models st !! name) as [e|]; [|refl].
  destruct (model_predict (model e) data) as [msg|p]; [refl|].
  destruct (to_list p); refl.
Qed.

Lemma serve_cons r reqs st :
  serve (r :: reqs) st = serve reqs (predict r.1 r.2 st).2.
Proof. refl. Qed.

(** X24.  Over any sequence of prediction requests, the counter of a loaded
    model grows by the number of requests that were for its name and that
    its [predict] method answered without raising, including those whose
    answer could then not be turned into a list and got the status 500.
    Nothing else of the entry changes, no model appears or disappears, and
    requests for other names, loaded or not, do not touch the counter. *)
Theorem serve_counts_answered_requests
    (reqs : list (string * list (list Q))) (st : ServerState)
    (name : string) (e : _ModelEntry) :
  _models st !! name = Some e ->
  (exists e',
     _models (serve reqs st) !! name = Some e'
     /\ request_count e'
        = request_count e
          + length (filter (fun r => answered e name r = true) reqs)
     /\ model e' = model e /\ model_name e' = model_name e
     /\ version e' = version e /\ mlflow_run_id e' = mlflow_run_id e
     /\ loaded_at e' = loaded_at e)
  /\ (forall k, is_Some (_models (serve reqs st) !! k)
                <-> is_Some (_models st !! k))
  /\ clock (serve reqs st) = clock st.
Proof.
  revert st e. induction reqs as [|r reqs IH]; intros st e He.
  - split; [|split; [intros k|]; reflexivity].
    exists e. cbn. rewrite Nat.add_0_r. repeat split. exact He.
  - rewrite serve_cons.
    destruct (predict_step name r st e He)
      as (e1 & He1 & Hc1 & Hm1 & Hn1 & Hv1 & Hr1 & Hl1).
    destruct (IH _ e1 He1)
      as ((e' & He' & Hc & Hm & Hn & Hv & Hr & Hl) & Hk & Hclk).
    split; [|split].
    + exists e'. split; [exact He'|]. split.
      * rewrite Hc, Hc1.
        rewrite (list_filter_iff (fun r0 => answered e1 name r0 = true)
                   (fun r0 => answered e name r0 = true))
          by (intros r0; now rewrite (answered_model e1 e name r0 Hm1)).
        rewrite filter_cons.
        destruct (answered e name r);
          [rewrite decide_True by refl|rewrite decide_False by discriminate];
          cbn [length]; lia.
      * repeat split; congruence.
    + intros k. rewrite Hk. apply predict_keeps_keys.
    + rewrite Hclk. apply predict_keeps_clock.
Qed.

Lemma serve_counts_answered_requests_witness :
  (request_count <$> (_models
     (serve [ ("moody", []); ("iris-classifier", [[1%Q]]); ("moody", [[1%Q]]);
              ("ghost", [[1%Q]]); ("moody", [[1%Q]; [2%Q]]) ]
        server_with_two) !! "moody")) = Some 2.
Proof.
  destruct (serve_counts_answered_requests
              [ ("moody", []); ("iris-classifier", [[1%Q]]); ("moody", [[1%Q]]);
                ("ghost", [[1%Q]]); ("moody", [[1%Q]; [2%Q]]) ]
              server_with_two "moody" moody_entry)
    as ((e' & He' & Hc & _) & _); [vm_compute; refl|].
  rewrite He'. cbn [fmap option_fmap option_map]. f_equal. exact Hc.
Defined.

Lemma list_models_names st :
  registry_wf (_models st) ->
  info_model_name <$> list_models st = (map_to_list (_models st)).*1.
Proof.
  intros Hwf. unfold list_models. rewrite <- list_fmap_compose.
  apply list_fmap_ext. intros i [k e] Hi. cbn.
  apply Hwf. apply elem_of_map_to_list. eapply list_elem_of_lookup_2, Hi.
Qed.

(** X25.  [ready] and [list_models] agree: the number of models [ready]
    reports is the length of the listing, and its status is ok exactly
    when the listing is not empty.  In every state the server reaches, the
    listing names each loaded model once, and the names listed are those
    for which [predict] does not raise 404. *)
Theorem ready_agrees_with_list_models (env : Env) (st : ServerState) :
  reachable env st ->
  models_loaded (ready st) = length (list_models st)
  /\ (status (ready st) = "ok" <-> list_models st <> [])
  /\ (status (ready st) = "no_models" <-> list_models st = [])
  /\ NoDup (info_model_name <$> list_models st)
  /\ (forall name,
        name ∈ (info_model_name <$> list_models st)
        <-> forall data,
              (predict name data st).1
              <> inl (Py.HTTPException 404
                        ("Model '" +:+ name +:+ "' is not loaded."))).
Proof.
  intros Hreach. pose proof (ServerFacts.reachable_wf env st Hreach) as Hwf.
  assert (Hnil : list_models st = [] <-> _models st = ∅).
  { unfold list_models. split.
    - intros H. apply fmap_nil_inv in H. now apply map_to_list_empty_iff.
    - intros ->. now rewrite map_to_list_empty. }
  split; [|split; [|split; [|split]]].
  - unfold list_models. rewrite length_fmap, length_map_to_list. refl.
  - rewrite Hnil. unfold ready. cbn [status].
    destruct (decide (_models st = ∅)) as [E|E].
    + rewrite (bool_decide_eq_true_2 _ E).
      split; [discriminate | intros H; contradiction].
    + rewrite (bool_decide_eq_false_2 _ E).
      split; [intros _; exact E | intros _; refl].
  - rewrite Hnil. unfold ready. cbn [status].
    destruct (decide (_models st = ∅)) as [E|E].
    + rewrite (bool_decide_eq_true_2 _ E).
      split; [intros _; exact E | intros _; refl].
    + rewrite (bool_decide_eq_false_2 _ E).
      split; [discriminate | intros H; contradiction].
  - rewrite (list_models_names st Hwf). apply NoDup_fst_map_to_list.
  - intros name. rewrite (list_models_names st Hwf).
    rewrite list_elem_of_fmap. split.
    + intros ([k e] & -> & Hin) data. apply elem_of_map_to_list in Hin.
      cbn [fst]. unfold predict. rewrite Hin.
      destruct (model_predict (model e) data) as [msg|p];
        [cbn; discriminate|].
      destruct (to_list p); cbn; discriminate.
    + intros H. destruct (_models st !! name) as [e|] eqn:He.
      * exists (name, e). split; [refl|]. now apply elem_of_map_to_list.
      * exfalso. apply (H []). unfold predict. now rewrite He.
Qed.

Lemma ready_agrees_with_list_models_witness :
  models_loaded
    (ready (load_model env_artifact_dir "iris-classifier"
              {| req_mlflow_run_id := "run-2"; req_version := "2" |}
              {| _models := ∅; clock := 0 |}).2)
  = length
      (list_models (load_model env_artifact_dir "iris-classifier"
                      {| req_mlflow_run_id := "run-2"; req_version := "2" |}
                      {| _models := ∅; clock := 0 |}).2).
Proof.
  apply (ready_agrees_with_list_models env_artifact_dir).
  apply reach_load, reach_start.
Defined.

Lemma glob_joblib_skip env dir pre l :
  iterdir env dir = pre ++ l ->
  Forall (fun g => forall stem, g <> stem +:+ ".joblib") pre ->
  glob_joblib env dir = filter (fun f => ends_with ".joblib" f = true) l.
Proof.
  intros Hi Hpre. unfold glob_joblib. rewrite Hi, filter_app.
  replace (filter (fun f => ends_with ".joblib" f = true) pre) with (@nil string);
    [refl|].
  symmetry. clear Hi. induction Hpre as [|g pre Hg _ IH]; [refl|].
  rewrite filter_cons, decide_False; [exact IH|].
  intros E. apply TextFacts.ends_with_spec in E as [stem ->]. now apply (Hg stem).
Qed.

(** X26.  When the downloaded artifact is a directory, [load_model]
    deserialises one file of it: the first one, in the order the directory
    is listed, whose name ends with the extension .joblib, or, when no name
    does, the first file of the listing whatever it is.  The listing is the
    same for the search by extension and for the fallback. *)
Theorem load_model_prefers_the_first_joblib_file
    (env : Env) (body : LoadModelRequest) (path : string)
    (pre post : list string) (f : string) :
  download_artifacts env (req_mlflow_run_id body) = inr path ->
  is_dir env path = true ->
  iterdir env path = pre ++ f :: post ->
  Forall (fun g => forall stem, g <> stem +:+ ".joblib") pre ->
  ((exists stem, f = stem +:+ ".joblib")
   \/ (pre = [] /\ (forall stem, f <> stem +:+ ".joblib")
       /\ Forall (fun g => forall stem, g <> stem +:+ ".joblib") post)) ->
  locate_and_load env body
  = match joblib_load env f with
    | inl msg => inl (Py.ExternalError msg)
    | inr m => inr m
    end.
Proof.
  intros Hd Hdir Hi Hpre Hf. unfold locate_and_load. rewrite Hd, Hdir.
  destruct Hf as [Hext|(-> & Hnf & Hpost)].
  - rewrite (glob_joblib_skip env path pre (f :: post) Hi Hpre).
    rewrite filter_cons, decide_True
      by (apply TextFacts.ends_with_spec; exact Hext).
    refl.
  - rewrite (glob_joblib_skip env path (f :: post) [] );
      [| now rewrite app_nil_r | now constructor].
    rewrite filter_nil, Hi. refl.
Qed.

Lemma load_model_prefers_the_first_joblib_file_witness :
  locate_and_load env_artifact_dir
    {| req_mlflow_run_id := "run-2"; req_version := "2" |}
  = inr constant_model.
Proof.
  apply (load_model_prefers_the_first_joblib_file env_artifact_dir
           {| req_mlflow_run_id := "run-2"; req_version := "2" |}
           "/app/models/model" ["/app/models/model/MLmodel"] []
           "/app/models/model/model.joblib").
  - refl.
  - refl.
  - refl.
  - apply Forall_singleton. intros stem E.
    assert (H : ends_with ".joblib" "/app/models/model/MLmodel" = true)
      by (apply TextFacts.ends_with_spec; now exists stem).
    vm_compute in H. discriminate H.
  - left. now exists "/app/models/model/model".
Defined.

End ServerMoreFacts.
